(** * controller-grpc: the streaming RPC handlers of controller.go

    A shallow embedding of the handlers of [controller-grpc/controller.go]
    (listApps, StreamApps, createScale, StreamScales, StreamReleases,
    StreamFormations, StreamDeployments, CreateDeployment) and of the
    subscription fabric (subscribeEvents, EventListener.Close).

    Conventions.
    - Go [int64] and [int] values are [Z]; the one place where the code does
      arithmetic on them ([count + 1] in StreamReleases) wraps explicitly.
    - A Go [(value, error)] result is a pair whose error component is an
      [option]: [None] is the nil error.
    - A blocking receive is driven by an explicit list of what the receive
      yields; a handler that needs more input than the list holds is
      [Blocked].
    - The packages the file imports ([data], [utils], [protobuf], [json],
      the stores, [fmt] on a format without operands) are collaborators:
      they are the fields of the class [Collaborators], and every theorem
      is stated for all of them; the examples run the handlers on the
      instance [Fixture.collaborators]. *)

From stdpp Require Import gmap strings list fin_maps pretty.
From Stdlib Require Import ZArith Lia Ascii Sorted.

Local Open Scope string_scope.
Local Open Scope list_scope.
Local Open Scope Z_scope.

(** ** Outcome of running a handler *)

Inductive Run (A : Type) : Type :=
| Done (a : A)          (* the function returned *)
| Panics (msg : string) (* a Go run-time panic *)
| Blocked.              (* still waiting: the input (or the fuel) ran out *)
Arguments Done {A} a.
Arguments Panics {A} msg.
Arguments Blocked {A}.

(** Go's [error] values.  [errors.New] and [fmt.Errorf] build a plain error
    that carries only a message; [utils.ConvertError] builds a gRPC status
    error, which carries a status code as well. *)
Inductive Code : Type :=
| InvalidArgument | NotFound | FailedPrecondition | DeadlineExceeded
| Internal | Canceled | Unknown.

Inductive error : Type :=
| PlainError (msg : string)
| StatusError (c : Code) (msg : string).

Definition error_msg (e : error) : string :=
  match e with PlainError m => m | StatusError _ m => m end.

(** The status code carried by an error value, if it carries one. *)
Definition error_code (e : error) : option Code :=
  match e with PlainError _ => None | StatusError c _ => Some c end.

(** [fmt]'s verbs [%q] on a string and [%v] on a slice of strings. *)
Definition fmt_q (s : string) : string :=
  String (ascii_of_nat 34) s +:+ String (ascii_of_nat 34) "".

Definition fmt_v (l : list string) : string :=
  "[" +:+ String.concat " " l +:+ "]".

(** ** Domain records (package ct: controller/types) *)

Module ct.

(** The event-type and state constants of controller/types; the package is
    not part of this file, the values are the ones its JSON uses. *)
Definition EventTypeApp : string := "app".
Definition EventTypeAppDeletion : string := "app_deletion".
Definition EventTypeAppRelease : string := "app_release".
Definition EventTypeRelease : string := "release".
Definition EventTypeScaleRequest : string := "scale_request".
Definition EventTypeDeployment : string := "deployment".

Definition EventOpCreate : string := "create".
Definition EventOpUpdate : string := "update".

Inductive ScaleRequestState : Type :=
| ScaleRequestStatePending
| ScaleRequestStateCancelled
| ScaleRequestStateComplete.

Record Event : Type := mkEvent {
  Event_ID : Z;
  Event_AppID : string;
  Event_ObjectType : string;
  Event_ObjectID : string;
  Event_Op : string;
  Event_Data : string;
  Event_CreatedAt : Z
}.

Record App : Type := mkApp {
  App_ID : string;
  App_Name : string;
  App_Meta : gmap string string
}.

Record ScaleRequest : Type := mkScaleRequest {
  ScaleRequest_ID : string;
  ScaleRequest_AppID : string;
  ScaleRequest_ReleaseID : string;
  ScaleRequest_State : ScaleRequestState;
  ScaleRequest_NewProcesses : option (gmap string Z);
  ScaleRequest_NewTags : option (gmap string (gmap string string))
}.

Record Release : Type := mkRelease {
  Release_ID : string;
  Release_AppID : string;
  Release_Meta : gmap string string
}.

Record Deployment : Type := mkDeployment {
  Deployment_ID : string;
  Deployment_AppID : string;
  Deployment_OldReleaseID : string;
  Deployment_NewReleaseID : string;
  Deployment_Status : string
}.

Record ExpandedDeployment : Type := mkExpandedDeployment {
  ExpandedDeployment_ID : string;
  ExpandedDeployment_AppID : string;
  ExpandedDeployment_Type : string;
  ExpandedDeployment_Status : string
}.

Record Formation : Type := mkFormation {
  Formation_AppID : string;
  Formation_ReleaseID : string;
  Formation_Processes : gmap string Z;
  Formation_Tags : gmap string (gmap string string)
}.

Record ExpandedFormation : Type := mkExpandedFormation {
  ExpandedFormation_PendingScaleRequest : option ScaleRequest
}.

Record DeploymentEvent : Type := mkDeploymentEvent {
  DeploymentEvent_Status : string;
  DeploymentEvent_JobType : string;
  DeploymentEvent_JobState : string;
  DeploymentEvent_Error : string
}.

End ct.

(** ** Package data: page tokens *)

Module data.

Record PageToken : Type := mkPageToken {
  BeforeID : option string;
  Size : Z
}.

End data.

(** ** Protocol messages (package protobuf) *)

Module protobuf.

Inductive ScaleRequestState : Type :=
| SCALE_PENDING | SCALE_CANCELLED | SCALE_COMPLETE.

Record App : Type := mkApp {
  App_Name : string;
  App_DisplayName : string;
  App_Labels : gmap string string
}.

Record ScaleRequest : Type := mkScaleRequest {
  ScaleRequest_Parent : string;
  ScaleRequest_Name : string;
  ScaleRequest_State : ScaleRequestState;
  ScaleRequest_NewProcesses : gmap string Z;
  ScaleRequest_NewTags : gmap string (gmap string string)
}.

Record Release : Type := mkRelease {
  Release_Name : string;
  Release_Labels : gmap string string
}.

Record ExpandedDeployment : Type := mkExpandedDeployment {
  ExpandedDeployment_Name : string;
  ExpandedDeployment_Type : string;
  ExpandedDeployment_Status : string
}.

Record Formation : Type := mkFormation {
  Formation_Parent : string;
  Formation_State : ScaleRequestState;
  Formation_ScaleRequest : string;
  Formation_Processes : gmap string Z;
  Formation_Tags : gmap string (gmap string string)
}.

Record Deployment : Type := mkDeployment {
  Deployment_Name : string;
  Deployment_Status : string
}.

Record DeploymentEvent : Type := mkDeploymentEvent {
  DeploymentEvent_Deployment : Deployment;
  DeploymentEvent_JobType : string;
  DeploymentEvent_JobState : string;
  DeploymentEvent_Error : string;
  DeploymentEvent_CreateTime : Z
}.

Record LabelFilter : Type := mkLabelFilter {
  LabelFilter_Expressions : list (string * string * list string)
}.

Record StreamAppsRequest : Type := mkStreamAppsRequest {
  StreamAppsRequest_PageSize : Z;
  StreamAppsRequest_PageToken : string;
  StreamAppsRequest_NameFilters : list string;
  StreamAppsRequest_LabelFilters : list LabelFilter;
  StreamAppsRequest_StreamUpdates : bool;
  StreamAppsRequest_StreamCreates : bool
}.

Record StreamAppsResponse : Type := mkStreamAppsResponse {
  StreamAppsResponse_Apps : list App;
  StreamAppsResponse_NextPageToken : string;
  StreamAppsResponse_PageComplete : bool
}.

Record StreamScalesRequest : Type := mkStreamScalesRequest {
  StreamScalesRequest_NameFilters : list string
}.

Record StreamScalesResponse : Type := mkStreamScalesResponse {
  StreamScalesResponse_ScaleRequests : list ScaleRequest
}.

Record StreamReleasesRequest : Type := mkStreamReleasesRequest {
  StreamReleasesRequest_PageSize : Z;
  StreamReleasesRequest_PageToken : string;
  StreamReleasesRequest_NameFilters : list string;
  StreamReleasesRequest_LabelFilters : list LabelFilter;
  StreamReleasesRequest_StreamUpdates : bool;
  StreamReleasesRequest_StreamCreates : bool
}.

Record StreamReleasesResponse : Type := mkStreamReleasesResponse {
  StreamReleasesResponse_Releases : list Release;
  StreamReleasesResponse_NextPageToken : string;
  StreamReleasesResponse_PageComplete : bool
}.

Record CreateScaleRequest : Type := mkCreateScaleRequest {
  CreateScaleRequest_Parent : string;
  CreateScaleRequest_Processes : gmap string Z;
  CreateScaleRequest_Tags : gmap string (gmap string string)
}.

Record StreamFormationsRequest : Type := mkStreamFormationsRequest {
  StreamFormationsRequest_NameFilters : list string
}.

Record StreamFormationsResponse : Type := mkStreamFormationsResponse {
  StreamFormationsResponse_Formations : list Formation
}.

Record StreamDeploymentsRequest : Type := mkStreamDeploymentsRequest {
  StreamDeploymentsRequest_PageSize : Z;
  StreamDeploymentsRequest_PageToken : string;
  StreamDeploymentsRequest_NameFilters : list string;
  StreamDeploymentsRequest_TypeFilters : list string;
  StreamDeploymentsRequest_StreamUpdates : bool;
  StreamDeploymentsRequest_StreamCreates : bool
}.

Record StreamDeploymentsResponse : Type := mkStreamDeploymentsResponse {
  StreamDeploymentsResponse_Deployments : list ExpandedDeployment
}.

Record CreateDeploymentRequest : Type := mkCreateDeploymentRequest {
  CreateDeploymentRequest_Parent : string;
  CreateDeploymentRequest_Release : string;
  CreateDeploymentRequest_ScaleRequest : option CreateScaleRequest
}.

End protobuf.

(** ** Package utils: the conversion of scale requests *)

Module utils.

(** Modelled from the spec: [utils.ConvertScaleRequest] lives in
    controller-grpc/utils, outside this file.  The spec gives a scale
    request an id, an app id, a release id, a state among pending,
    cancelled and complete, optional new processes and tags, and the
    resource name [apps/{id}/releases/{id}/scale/{id}]; the conversion
    carries each of them over. *)
Definition ConvertScaleRequest (ctReq : ct.ScaleRequest)
    : protobuf.ScaleRequest :=
  let parent :=
    "apps/" +:+ ct.ScaleRequest_AppID ctReq +:+
    "/releases/" +:+ ct.ScaleRequest_ReleaseID ctReq in
  protobuf.mkScaleRequest
    parent
    (parent +:+ "/scale/" +:+ ct.ScaleRequest_ID ctReq)
    match ct.ScaleRequest_State ctReq with
    | ct.ScaleRequestStatePending => protobuf.SCALE_PENDING
    | ct.ScaleRequestStateCancelled => protobuf.SCALE_CANCELLED
    | ct.ScaleRequestStateComplete => protobuf.SCALE_COMPLETE
    end
    (default ∅ (ct.ScaleRequest_NewProcesses ctReq))
    (default ∅ (ct.ScaleRequest_NewTags ctReq)).

End utils.

(** ** The collaborators

    Everything the handlers call outside controller.go.  [json.Unmarshal] at
    a given target type is one decoder per type; a store method is the
    function from its arguments to its answer. *)

Class Collaborators : Type := {
  (* package data *)
  ParsePageToken : string -> error + data.PageToken;
  PageToken_String : option data.PageToken -> string;
  BeforeIDInt64 : data.PageToken -> option Z;
  appRepo_ListPage :
    data.PageToken -> error + (list ct.App * option data.PageToken);
  (* AddScaleRequest fills in the id of the request it is handed; it is
     given by the id it assigns *)
  formationRepo_AddScaleRequest : ct.ScaleRequest -> error + string;
  deploymentRepo_Add : string -> string -> error + ct.Deployment;
  (* ListEvents(appIDs, objectTypes, objectID, beforeID, sinceID, count) *)
  eventRepo_ListEvents :
    list string -> list string -> string -> option Z -> option Z -> Z ->
    error + list ct.Event;
  (* a store read inside an event loop: the first argument is the number of
     events the loop has received so far *)
  deploymentRepo_Get : nat -> string -> error + ct.Deployment;
  deploymentRepo_GetExpanded : nat -> string -> error + ct.ExpandedDeployment;
  formationRepo_Get : nat -> string -> string -> error + ct.Formation;
  formationRepo_GetExpanded :
    nat -> string -> string -> error + ct.ExpandedFormation;
  (* the query of line 899 and its Scan *)
  scaleRequestID_QueryRow : nat -> string -> string -> error + string;
  appRepo_GetRelease : string -> error + ct.Release;
  (* ListExpanded(PageToken, AppIDs, DeploymentIDs) *)
  deploymentRepo_ListExpanded :
    data.PageToken -> list string -> list string ->
    error + list ct.ExpandedDeployment;
  (* package utils *)
  ParseIDFromName : string -> string -> string;
  ParseAppIDsFromNameFilters : list string -> list string;
  ParseReleaseIDsFromNameFilters : list string -> list string;
  ConvertApp : ct.App -> protobuf.App;
  ConvertRelease : ct.Release -> protobuf.Release;
  ConvertError : error -> string -> error;
  ParseIDsFromNameFilters : list string -> string -> list string;
  ConvertFormation : ct.Formation -> protobuf.Formation;
  ConvertDeployment : ct.Deployment -> protobuf.Deployment;
  ConvertExpandedDeployment : ct.ExpandedDeployment -> protobuf.ExpandedDeployment;
  ConvertDeploymentEventJobState : string -> string;
  TimestampProto : Z -> Z;
  (* package protobuf *)
  MatchLabelFilters : gmap string string -> list protobuf.LabelFilter -> bool;
  (* NewReleaseTypeMatcher(typeFilters).Match(t) *)
  ReleaseTypeMatcher_Match : list string -> string -> bool;
  (* encoding/json, one decoder per target type.  The handlers decode an
     app, a release and (in StreamScales) a scale request into a pointer,
     which they hand to a converter of package utils without reading
     through it: these three decoders give the record the pointer refers
     to, and a payload that leaves the pointer nil is outside what they
     describe, since what becomes of it is decided in package utils.
     (createScale decodes a scale request into a value, not a pointer.) *)
  Unmarshal_App : string -> error + ct.App;
  Unmarshal_ScaleRequest : string -> error + ct.ScaleRequest;
  Unmarshal_Release : string -> error + ct.Release;
  (* the target is a pointer that controller.go itself dereferences:
     [None] is the nil pointer that the JSON value null leaves, with no
     error *)
  Unmarshal_DeploymentEvent : string -> error + option ct.DeploymentEvent;
  (* package fmt: the text of Sprintf(format), and so of Errorf(format),
     for a format that is given no operands *)
  fmt_Sprintf : string -> string;
  (* ct.DefaultScaleTimeout.Seconds() *)
  DefaultScaleTimeout_seconds : Z
}.

(** ** listApps (controller.go, lines 269-346) *)

Section ListApps.
Context `{C : Collaborators}.

(** The inner loop over [appIDs]: [a.ID == appID || a.Name == appID]. *)
Definition appFound (appIDs : list string) (a : ct.App) : bool :=
  existsb (fun appID =>
             String.eqb (ct.App_ID a) appID || String.eqb (ct.App_Name a) appID)
          appIDs.

(** The loop [for _, a := range ctApps]; [apps] and [n] are the
    accumulators, [appIDs = None] is the nil slice. *)
Fixpoint collectApps (appIDs : option (list string))
    (labelFilters : list protobuf.LabelFilter) (pageSize : Z)
    (ctApps : list ct.App) (apps : list protobuf.App) (n : Z)
    : list protobuf.App * Z :=
  match ctApps with
  | [] => (apps, n)
  | a :: rest =>
      let skipped :=
        match appIDs with
        | Some ids => negb (appFound ids a)
        | None => false
        end in
      if skipped then collectApps appIDs labelFilters pageSize rest apps n
      else if negb (MatchLabelFilters (ct.App_Meta a) labelFilters)
      then collectApps appIDs labelFilters pageSize rest apps n
      else
        let apps' := apps ++ [ConvertApp a] in
        let n' := n + 1 in
        if n' =? pageSize then (apps', n')
        else collectApps appIDs labelFilters pageSize rest apps' n'
  end.

(** What one call has computed when it reaches the comment
    "make sure we fill the page if possible". *)
Record Page : Type := mkPage {
  page_apps : list protobuf.App;
  page_n : Z;
  page_pageSize : Z;
  page_nextPageToken : option data.PageToken
}.

(** The run-time check of [make([]*protobuf.App, 0, cap)]: the capacity is
    out of range when it is negative or when [cap] pointers of 8 bytes take
    more than the largest allocation, [maxAlloc] (2^48 bytes where
    addresses have 48 bits, as on linux/amd64). *)
Definition maxAlloc : Z := 2 ^ 48.

Definition makeslice_panics (cap : Z) : bool :=
  (cap <? 0) || (maxAlloc <? 8 * cap).

(** Lines 270-325: [inl err] is the early [return nil, nil, err]. *)
Definition listApps_page (req : protobuf.StreamAppsRequest)
    : Run (error + Page) :=
  let pageSize := protobuf.StreamAppsRequest_PageSize req in
  match ParsePageToken (protobuf.StreamAppsRequest_PageToken req) with
  | inl err => Done (inl err)
  | inr pageToken =>
      let pageToken' :=
        if 0 <? pageSize
        then data.mkPageToken (data.BeforeID pageToken) pageSize
        else pageToken in
      let pageSize := if 0 <? pageSize then pageSize else data.Size pageToken in
      let labelFilters := protobuf.StreamAppsRequest_LabelFilters req in
      match appRepo_ListPage pageToken' with
      | inl err => Done (inl err)
      | inr (ctApps, nextPageToken) =>
          let pageSize :=
            if pageSize =? 0 then Z.of_nat (length ctApps) else pageSize in
          let appIDs :=
            ParseAppIDsFromNameFilters (protobuf.StreamAppsRequest_NameFilters req) in
          let appIDs :=
            if (length appIDs =? 0)%nat then None else Some appIDs in
          if makeslice_panics pageSize
          then Panics "makeslice: cap out of range"
          else
            let '(apps, n) :=
              collectApps appIDs labelFilters pageSize ctApps [] 0 in
            Done (inr (mkPage apps n pageSize nextPageToken))
      end
  end.

(** The request of the recursive call (lines 330-337). *)
Definition nextRequest (req : protobuf.StreamAppsRequest)
    (nextPageToken : option data.PageToken) : protobuf.StreamAppsRequest :=
  protobuf.mkStreamAppsRequest
    (protobuf.StreamAppsRequest_PageSize req)
    (PageToken_String nextPageToken)
    (protobuf.StreamAppsRequest_NameFilters req)
    (protobuf.StreamAppsRequest_LabelFilters req)
    (protobuf.StreamAppsRequest_StreamUpdates req)
    (protobuf.StreamAppsRequest_StreamCreates req).

(** The Go triple [(apps, nextPageToken, err)]. *)
Definition AppsResult : Type :=
  (list protobuf.App * option data.PageToken * option error)%type.

(** [listApps]; the recursion follows the store's page tokens, so it is
    bounded by [fuel]. *)
Fixpoint listApps (fuel : nat) (req : protobuf.StreamAppsRequest)
    : Run AppsResult :=
  match fuel with
  | O => Blocked
  | S fuel' =>
      match listApps_page req with
      | Panics m => Panics m
      | Blocked => Blocked
      | Done (inl err) => Done ([], None, Some err)
      | Done (inr p) =>
          if (page_n p <? page_pageSize p)
             && bool_decide (page_nextPageToken p <> None)
          then
            match listApps fuel' (nextRequest req (page_nextPageToken p)) with
            | Panics m => Panics m
            | Blocked => Blocked
            | Done (_, _, Some _) =>
                Done (page_apps p, page_nextPageToken p, None)
            | Done (nextApps, npt, None) =>
                Done (nextApps ++ page_apps p, npt, None)
            end
          else Done (page_apps p, page_nextPageToken p, None)
      end
  end.

End ListApps.

(** ** The subscription fabric (controller.go, lines 163-218)

    [subscribeEvents] builds an [EventListener] with an unbuffered merged
    channel [Events], one [data.EventSubscriber] per app id and one
    forwarder goroutine per subscriber.  The goroutines are interleaved by
    an explicit schedule of [Action]s. *)

Module Fabric.

(** A Go channel, as far as this file uses one: what is queued in it and
    whether [close] was called on it. *)
Record Chan : Type := mkChan {
  queue : list ct.Event;
  closed : bool
}.

(** [make(chan *ct.Event)]. *)
Definition make : Chan := mkChan [] false.

(** [close(ch)]. *)
Definition close (ch : Chan) : Chan := mkChan (queue ch) true.

(** [data.EventSubscriber]: its channel and its [Err] field. *)
Record EventSubscriber : Type := mkEventSubscriber {
  sub_Events : Chan;
  sub_Err : option error
}.

(** [sub.Close()] closes the subscriber's channel (package data). *)
Definition EventSubscriber_Close (sub : EventSubscriber) : EventSubscriber :=
  mkEventSubscriber (close (sub_Events sub)) (sub_Err sub).

(** Where a forwarder goroutine (lines 206-214) stands. *)
Inductive Forwarder : Type :=
| AtReceive                 (* at [ctEvent, ok := <-sub.Events] *)
| AtSend (ctEvent : ct.Event) (* at [eventListener.Events <- ctEvent] *)
| Returned.                 (* left the loop through [break] *)

Record EventListener : Type := mkEventListener {
  Events : Chan;
  Err : option error;
  errOnce : bool;  (* whether errOnce.Do has run its function *)
  subs : list EventSubscriber;
  forwarders : list Forwarder
}.

(** [subscribeEvents], after [maybeStartEventListener] and every
    [Subscribe] call succeeded. *)
Definition subscribeEvents (appIDs : list string) : EventListener :=
  let appIDs := if (length appIDs =? 0)%nat then [""] else appIDs in
  mkEventListener make None false
    (map (fun _ => mkEventSubscriber make None) appIDs)
    (map (fun _ => AtReceive) appIDs).

(** One iteration of the loop of [Close] (lines 171-176). *)
Definition Close_sub (st : option error * bool) (sub : EventSubscriber)
    : option error * bool :=
  match sub_Err sub with
  | Some err => if snd st then st else (Some err, true)
  | None => st
  end.

(** [EventListener.Close]. *)
Definition Close (e : EventListener) : EventListener :=
  let subs' := map EventSubscriber_Close (subs e) in
  let '(err, once) := fold_left Close_sub subs' (Err e, errOnce e) in
  mkEventListener (Events e) err once subs' (forwarders e).

Inductive Action : Type :=
| Publish (i : nat) (ev : ct.Event) (* the data listener delivers to subs[i] *)
| Fail (i : nat) (err : error)      (* the data listener sets subs[i].Err *)
| Forward (i : nat)                 (* forwarder i runs up to its next channel operation *)
| Receive (i : nat)                 (* the handler's [<-sub.Events] meets forwarder i's send *)
| DoClose.                          (* the handler calls [sub.Close()] *)

(** One step of forwarder [i] at [<-sub.Events]: a queued event is taken
    even from a closed channel; an empty closed channel yields
    [ok = false]; an empty open channel blocks. *)
Definition forward (sub : EventSubscriber) (f : Forwarder)
    : EventSubscriber * Forwarder :=
  match f with
  | AtReceive =>
      match queue (sub_Events sub) with
      | ev :: q =>
          (mkEventSubscriber (mkChan q (closed (sub_Events sub))) (sub_Err sub),
           AtSend ev)
      | [] => if closed (sub_Events sub) then (sub, Returned) else (sub, f)
      end
  | _ => (sub, f)
  end.

(** An action that is not enabled leaves the state as it is. *)
Definition step (a : Action) (e : EventListener) : EventListener :=
  match a with
  | Publish i ev =>
      match subs e !! i with
      | Some sub =>
          if closed (sub_Events sub) then e
          else
            let sub' :=
              mkEventSubscriber
                (mkChan (queue (sub_Events sub) ++ [ev]) false) (sub_Err sub) in
            mkEventListener (Events e) (Err e) (errOnce e)
              (<[i:=sub']> (subs e)) (forwarders e)
      | None => e
      end
  | Fail i err =>
      match subs e !! i with
      | Some sub =>
          mkEventListener (Events e) (Err e) (errOnce e)
            (<[i:=mkEventSubscriber (sub_Events sub) (Some err)]> (subs e))
            (forwarders e)
      | None => e
      end
  | Forward i =>
      match subs e !! i, forwarders e !! i with
      | Some sub, Some f =>
          let '(sub', f') := forward sub f in
          mkEventListener (Events e) (Err e) (errOnce e)
            (<[i:=sub']> (subs e)) (<[i:=f']> (forwarders e))
      | _, _ => e
      end
  | Receive i =>
      match forwarders e !! i with
      | Some (AtSend _) =>
          if closed (Events e) then e
          else
            mkEventListener (Events e) (Err e) (errOnce e) (subs e)
              (<[i:=AtReceive]> (forwarders e))
      | _ => e
      end
  | DoClose => Close e
  end.

Definition run (acts : list Action) (e : EventListener) : EventListener :=
  fold_left (fun e a => step a e) acts e.

(** What a handler sees at [event, ok := <-sub.Events]. *)
Inductive Observed : Type :=
| ObservedEvent (ev : ct.Event)
| ObservedClosed   (* [ok = false] *)
| ObservedNothing. (* the receive blocks *)

Fixpoint firstSend (fs : list Forwarder) : option ct.Event :=
  match fs with
  | [] => None
  | AtSend ev :: _ => Some ev
  | _ :: fs' => firstSend fs'
  end.

Definition observe (e : EventListener) : Observed :=
  if closed (Events e) then ObservedClosed
  else match firstSend (forwarders e) with
       | Some ev => ObservedEvent ev
       | None => ObservedNothing
       end.

End Fabric.

(** What a receive on the merged channel [sub.Events] yields. *)
Inductive Recv : Type :=
| RecvEvent (event : ct.Event)
| RecvClosed.

(** The value of [utils.ConvertError(err, err.Error())] on the error cell. *)
Definition convertedErr `{C : Collaborators} (sub_Err : option error)
    : option error :=
  match sub_Err with
  | Some err => Some (ConvertError err (error_msg err))
  | None => None
  end.

(** ** StreamApps (controller.go, lines 348-443) *)

Section StreamApps.
Context `{C : Collaborators}.

(** One iteration of the goroutine of lines 395-435 after a successful
    receive: the responses it sends. *)
Definition StreamApps_event (req : protobuf.StreamAppsRequest)
    (event : ct.Event) : list protobuf.StreamAppsResponse :=
  if String.eqb (ct.Event_ObjectType event) ct.EventTypeApp then
    match Unmarshal_App (ct.Event_Data event) with
    | inl _ => []   (* logged, [continue] *)
    | inr ctApp =>
        let app := ConvertApp ctApp in
        let shouldSend :=
          (protobuf.StreamAppsRequest_StreamCreates req
             && String.eqb (ct.Event_Op event) ct.EventOpCreate)
          || (protobuf.StreamAppsRequest_StreamUpdates req
                && String.eqb (ct.Event_Op event) ct.EventOpUpdate) in
        let shouldSend :=
          if negb (MatchLabelFilters (protobuf.App_Labels app)
                     (protobuf.StreamAppsRequest_LabelFilters req))
          then false else shouldSend in
        if shouldSend
        then [protobuf.mkStreamAppsResponse [app] "" false]
        else []
    end
  else []. (* app_deletion, app_release: nothing is done yet *)

(** The loop of the goroutine: what it sends, and whether it ends. *)
Fixpoint StreamApps_loop (req : protobuf.StreamAppsRequest)
    (received : list Recv) : list protobuf.StreamAppsResponse * Run unit :=
  match received with
  | [] => ([], Blocked)
  | RecvClosed :: _ => ([], Done tt)
  | RecvEvent event :: rest =>
      let '(sent, r) := StreamApps_loop req rest in
      (StreamApps_event req event ++ sent, r)
  end.

(** The handler: the responses sent on the stream and the returned error.
    [subscribeErr] is the error of [subscribeEvents], [sub_Err] the error
    cell when the loop has ended. *)
Definition StreamApps (fuel : nat) (req : protobuf.StreamAppsRequest)
    (subscribeErr : option error) (received : list Recv)
    (sub_Err : option error)
    : list protobuf.StreamAppsResponse * Run (option error) :=
  let unary :=
    negb (protobuf.StreamAppsRequest_StreamUpdates req
          || protobuf.StreamAppsRequest_StreamCreates req) in
  match (if unary then None else subscribeErr) with
  | Some err => ([], Done (Some err))
  | None =>
      match listApps fuel req with
      | Blocked => ([], Blocked)
      | Panics m => ([], Panics m)
      | Done (_, _, Some err) => ([], Done (Some err))
      | Done (apps, nextPageToken, None) =>
          let page :=
            protobuf.mkStreamAppsResponse apps
              (PageToken_String nextPageToken) true in
          if unary then ([page], Done None)
          else
            let '(sent, r) := StreamApps_loop req received in
            (page :: sent,
             match r with
             | Done _ => Done (convertedErr sub_Err)
             | Panics m => Panics m
             | Blocked => Blocked
             end)
      end
  end.

End StreamApps.

(** ** createScale (controller.go, lines 481-550) *)

(** What the [select] of lines 513-538 picks. *)
Inductive Select : Type :=
| SelectEvent (event : ct.Event)
| SelectClosed
| SelectTimeout.

(** How the loop labelled [outer] ends. *)
Inductive LoopExit : Type :=
| BreakOuter
| Return (err : error).

Section CreateScale.
Context `{C : Collaborators}.

(** [parseDeploymentProcesses] and [parseDeploymentTags] copy their
    argument into a fresh map; the result is never nil. *)
Definition parseDeploymentProcesses (from : gmap string Z) : gmap string Z :=
  from.
Definition parseDeploymentTags (from : gmap string (gmap string string))
    : gmap string (gmap string string) := from.

Definition timeoutError : error :=
  PlainError ("timed out waiting for scale to complete (waited "
              +:+ pretty DefaultScaleTimeout_seconds +:+ " seconds)").

(** The loop [outer] (lines 511-539). *)
Fixpoint createScale_loop (scaleReq : ct.ScaleRequest)
    (selected : list Select) : Run LoopExit :=
  match selected with
  | [] => Blocked
  | SelectClosed :: _ => Done BreakOuter
  | SelectTimeout :: _ => Done (Return timeoutError)
  | SelectEvent event :: rest =>
      if String.eqb (ct.Event_ObjectType event) ct.EventTypeScaleRequest then
        match Unmarshal_ScaleRequest (ct.Event_Data event) with
        | inl _ => createScale_loop scaleReq rest
        | inr req =>
            if negb (String.eqb (ct.ScaleRequest_ID req)
                       (ct.ScaleRequest_ID scaleReq))
            then createScale_loop scaleReq rest
            else
              match ct.ScaleRequest_State req with
              | ct.ScaleRequestStateCancelled =>
                  Done (Return (PlainError "scale request cancelled"))
              | ct.ScaleRequestStateComplete => Done BreakOuter
              | ct.ScaleRequestStatePending => createScale_loop scaleReq rest
              end
        end
      else createScale_loop scaleReq rest
  end.

(** The request built at lines 494-504, before it is inserted. *)
Definition newScaleReq (req : protobuf.CreateScaleRequest) : ct.ScaleRequest :=
  let appID := ParseIDFromName (protobuf.CreateScaleRequest_Parent req) "apps" in
  let releaseID :=
    ParseIDFromName (protobuf.CreateScaleRequest_Parent req) "releases" in
  let processes :=
    parseDeploymentProcesses (protobuf.CreateScaleRequest_Processes req) in
  let tags := parseDeploymentTags (protobuf.CreateScaleRequest_Tags req) in
  ct.mkScaleRequest "" appID releaseID ct.ScaleRequestStatePending
    (Some processes) (Some tags).

(** [scaleReq] after [AddScaleRequest] wrote the id into it. *)
Definition withID (scaleReq : ct.ScaleRequest) (id : string) : ct.ScaleRequest :=
  ct.mkScaleRequest id
    (ct.ScaleRequest_AppID scaleReq) (ct.ScaleRequest_ReleaseID scaleReq)
    (ct.ScaleRequest_State scaleReq)
    (ct.ScaleRequest_NewProcesses scaleReq) (ct.ScaleRequest_NewTags scaleReq).

(** The Go pair of a scale request (nil is [None]) and an error. *)
Definition ScaleResult : Type :=
  (option protobuf.ScaleRequest * option error)%type.

Definition createScale (req : protobuf.CreateScaleRequest)
    (subscribeErr : option error) (selected : list Select)
    (sub_Err : option error) : Run ScaleResult :=
  match subscribeErr with
  | Some err => Done (None, Some err)
  | None =>
      let scaleReq := newScaleReq req in
      match formationRepo_AddScaleRequest scaleReq with
      | inl err => Done (None, Some err)
      | inr id =>
          let scaleReq := withID scaleReq id in
          match createScale_loop scaleReq selected with
          | Blocked => Blocked
          | Panics m => Panics m
          | Done (Return err) => Done (None, Some err)
          | Done BreakOuter =>
              match sub_Err with
              | Some err => Done (None, convertedErr (Some err))
              | None => Done (Some (utils.ConvertScaleRequest scaleReq), None)
              end
          end
      end
  end.

End CreateScale.

(** ** StreamScales (controller.go, lines 552-672) *)

(** What the goroutines of StreamScales wait for: the next receive on
    [sub.Events], or the debounce timer [t.C] of lines 569-581 firing. *)
Inductive Tick : Type :=
| TickEvent (event : ct.Event)
| TickClosed
| TickTimer.

Section StreamScales.
Context `{C : Collaborators}.

Definition unmarshalScaleRequest (event : ct.Event)
    : error + protobuf.ScaleRequest :=
  match Unmarshal_ScaleRequest (ct.Event_Data event) with
  | inl err => inl err
  | inr ctReq => inr (utils.ConvertScaleRequest ctReq)
  end.

(** [prependScaleRequest] (lines 597-614): the new value of the variable
    [scaleRequests] and the returned error. *)
Definition prependScaleRequest (event : ct.Event)
    (scaleRequests : list protobuf.ScaleRequest)
    : list protobuf.ScaleRequest * option error :=
  match unmarshalScaleRequest event with
  | inl err => (scaleRequests, Some err)
  | inr req =>
      (fold_left
         (fun _scaleRequests sr =>
            if String.eqb (protobuf.ScaleRequest_Name sr)
                          (protobuf.ScaleRequest_Name req)
            then _scaleRequests
            else _scaleRequests ++ [sr])
         scaleRequests [req],
       None)
  end.

(** The variables the closures share; [timer] says whether the debounce
    timer is running. *)
Record ScalesState : Type := mkScalesState {
  scaleRequests : list protobuf.ScaleRequest;
  scales_currID : Z;
  timer : bool
}.

(** One iteration of the loop of lines 631-639. *)
Definition StreamScales_listed (st : ScalesState) (event : ct.Event)
    : ScalesState :=
  mkScalesState (fst (prependScaleRequest event (scaleRequests st)))
                (ct.Event_ID event) (timer st).

(** [sendResponseWithDelay()]: the debounce goroutine resets its timer. *)
Definition sendResponseWithDelay (st : ScalesState) : ScalesState :=
  mkScalesState (scaleRequests st) (scales_currID st) true.

(** Lines 656-665, for a received event. *)
Definition StreamScales_event (st : ScalesState) (event : ct.Event)
    : ScalesState :=
  if ct.Event_ID event <=? scales_currID st then st
  else
    mkScalesState (fst (prependScaleRequest event (scaleRequests st)))
                  (ct.Event_ID event) (timer st).

Definition sendResponse (st : ScalesState) : protobuf.StreamScalesResponse :=
  protobuf.mkStreamScalesResponse (scaleRequests st).

(** One step of the loop of lines 647-666 together with the debounce
    goroutine, seen from the receive of line 650: the call of
    [sendResponseWithDelay] at the top of the next iteration follows the
    handling of each event; the timer fires only while it is running, and
    [sendResponse] then sends the list as it is. *)
Definition StreamScales_tick (st : ScalesState) (t : Tick)
    : ScalesState * list protobuf.StreamScalesResponse :=
  match t with
  | TickEvent event =>
      (sendResponseWithDelay (StreamScales_event st event), [])
  | TickTimer =>
      if timer st
      then (mkScalesState (scaleRequests st) (scales_currID st) false,
            [sendResponse st])
      else (st, [])
  | TickClosed => (st, [])
  end.

Fixpoint StreamScales_loop (st : ScalesState) (ticks : list Tick)
    : list protobuf.StreamScalesResponse * Run unit :=
  match ticks with
  | [] => ([], Blocked)
  | TickClosed :: _ => ([], Done tt)
  | t :: rest =>
      let '(st', out) := StreamScales_tick st t in
      let '(sent, r) := StreamScales_loop st' rest in
      (out ++ sent, r)
  end.

(** The state when the snapshot has been read (lines 624-639). *)
Definition StreamScales_snapshot (rows : list ct.Event) : ScalesState :=
  fold_left StreamScales_listed (rev rows) (mkScalesState [] 0 false).

Definition StreamScales (req : protobuf.StreamScalesRequest)
    (subscribeErr : option error) (ticks : list Tick)
    (sub_Err : option error)
    : list protobuf.StreamScalesResponse * Run (option error) :=
  let appIDs :=
    ParseAppIDsFromNameFilters (protobuf.StreamScalesRequest_NameFilters req) in
  match subscribeErr with
  | Some err => ([], Done (Some err))
  | None =>
      match eventRepo_ListEvents appIDs [ct.EventTypeScaleRequest] ""
              None None 0 with
      | inl err => ([], Done (Some err))
      | inr rows =>
          let st := StreamScales_snapshot rows in
          let '(sent, r) := StreamScales_loop (sendResponseWithDelay st) ticks in
          (sendResponse st :: sent,
           match r with
           | Done _ => Done sub_Err
           | Panics m => Panics m
           | Blocked => Blocked
           end)
      end
  end.

End StreamScales.

(** ** StreamReleases (controller.go, lines 674-859) *)

(** Go's [int] is 64 bits wide here; [+] wraps. *)
Definition wrap64 (z : Z) : Z := (z + 2 ^ 63) mod 2 ^ 64 - 2 ^ 63.
Definition int_add (a b : Z) : Z := wrap64 (a + b).

Section StreamReleases.
Context `{C : Collaborators}.

(** The sets [appIDs] and [releaseIDs] of lines 689-698. *)
Definition releases_appIDs (req : protobuf.StreamReleasesRequest) : gset string :=
  list_to_set
    (ParseAppIDsFromNameFilters (protobuf.StreamReleasesRequest_NameFilters req)).
Definition releases_releaseIDs (req : protobuf.StreamReleasesRequest)
    : gset string :=
  list_to_set
    (ParseReleaseIDsFromNameFilters
       (protobuf.StreamReleasesRequest_NameFilters req)).

(** [eventAppIDs] after lines 700-704. *)
Definition releases_eventAppIDs (req : protobuf.StreamReleasesRequest)
    : list string :=
  if (0 <? size (releases_releaseIDs req))%nat then []
  else ParseAppIDsFromNameFilters (protobuf.StreamReleasesRequest_NameFilters req).

Definition unmarshalRelease (event : ct.Event) : error + protobuf.Release :=
  match Unmarshal_Release (ct.Event_Data event) with
  | inl err => inl err
  | inr ctRelease => inr (ConvertRelease ctRelease)
  end.

(** [maybeAcceptRelease] (lines 728-755): the named results
    [(release, accepted, err)]. *)
Definition maybeAcceptRelease (req : protobuf.StreamReleasesRequest)
    (event : ct.Event) : option protobuf.Release * bool * option error :=
  let releaseIDs := releases_releaseIDs req in
  let appIDs := releases_appIDs req in
  let filteredOut :=
    (0 <? size releaseIDs)%nat
    && negb (bool_decide (ct.Event_ObjectID event ∈ releaseIDs))
    && (if (0 <? size appIDs)%nat
        then negb (bool_decide (ct.Event_AppID event ∈ appIDs))
        else true) in
  if filteredOut then (None, false, None)
  else
    match unmarshalRelease event with
    | inl err => (None, false, Some err)
    | inr r =>
        if negb (MatchLabelFilters (protobuf.Release_Labels r)
                   (protobuf.StreamReleasesRequest_LabelFilters req))
        then (None, false, None)
        else (Some r, true, None)
    end.

(** [maybePrependRelease] (lines 757-778): the new value of [releases]
    and the returned error. *)
Definition maybePrependRelease (req : protobuf.StreamReleasesRequest)
    (event : ct.Event) (releases : list protobuf.Release)
    : list protobuf.Release * option error :=
  match maybeAcceptRelease req event with
  | (_, _, Some err) => (releases, Some err)
  | (Some r, true, None) =>
      (fold_left
         (fun _releases sr =>
            if String.eqb (protobuf.Release_Name sr) (protobuf.Release_Name r)
            then _releases
            else _releases ++ [sr])
         releases [r],
       None)
  | (_, _, None) => (releases, None)
  end.

(** Lines 676-687: the effective page size. *)
Definition releases_pageSize (req : protobuf.StreamReleasesRequest)
    (pageToken : data.PageToken) : Z :=
  if 0 <? protobuf.StreamReleasesRequest_PageSize req
  then protobuf.StreamReleasesRequest_PageSize req
  else data.Size pageToken.

(** Lines 789-792: the number of rows asked of the store. *)
Definition releases_count (pageSize : Z) : Z :=
  if 0 <? pageSize then int_add pageSize 1 else pageSize.

(** Lines 801-806: the window that is kept and [nextPageToken]. *)
Definition releases_window (pageSize : Z) (rows : list ct.Event)
    : Run (list ct.Event * option data.PageToken) :=
  if ((pageSize =? 0) || (Z.of_nat (length rows) =? int_add pageSize 1))
     && (0 <? length rows)%nat
  then
    let rows := take (length rows - 1) rows in
    match rows with
    | [] => Panics "index out of range"
    | event :: _ =>
        Done (rows,
              Some (data.mkPageToken (Some (pretty (ct.Event_ID event))) pageSize))
    end
  else Done (rows, None).

Record ReleasesState : Type := mkReleasesState {
  releases : list protobuf.Release;
  releases_currID : Z
}.

(** One iteration of the loop of lines 808-817. *)
Definition StreamReleases_listed (req : protobuf.StreamReleasesRequest)
    (st : ReleasesState) (event : ct.Event) : ReleasesState :=
  mkReleasesState (fst (maybePrependRelease req event (releases st)))
                  (ct.Event_ID event).

(** Lines 836-852 for a received event: the new [currID] and what is
    sent. *)
Definition StreamReleases_event (req : protobuf.StreamReleasesRequest)
    (currID : Z) (event : ct.Event)
    : Z * list protobuf.StreamReleasesResponse :=
  if ct.Event_ID event <=? currID then (currID, [])
  else
    match maybeAcceptRelease req event with
    | (_, _, Some _) => (ct.Event_ID event, [])
    | (Some release, true, None) =>
        (ct.Event_ID event, [protobuf.mkStreamReleasesResponse [release] "" false])
    | (_, _, None) => (ct.Event_ID event, [])
    end.

Fixpoint StreamReleases_loop (req : protobuf.StreamReleasesRequest)
    (currID : Z) (received : list Recv)
    : list protobuf.StreamReleasesResponse * Run unit :=
  match received with
  | [] => ([], Blocked)
  | RecvClosed :: _ => ([], Done tt)
  | RecvEvent event :: rest =>
      let '(currID', out) := StreamReleases_event req currID event in
      let '(sent, r) := StreamReleases_loop req currID' rest in
      (out ++ sent, r)
  end.

(** The snapshot phase (lines 787-817), given the rows of the store: the
    state it leaves and [nextPageToken]. *)
Definition StreamReleases_snapshot (req : protobuf.StreamReleasesRequest)
    (pageToken : data.PageToken) (rows : list ct.Event)
    : Run (ReleasesState * option data.PageToken) :=
  let pageSize := releases_pageSize req pageToken in
  let currID := default 0 (BeforeIDInt64 pageToken) in
  match releases_window pageSize rows with
  | Panics m => Panics m
  | Blocked => Blocked
  | Done (rows, nextPageToken) =>
      Done (fold_left (StreamReleases_listed req) (rev rows)
              (mkReleasesState [] currID),
            nextPageToken)
  end.

Definition StreamReleases (req : protobuf.StreamReleasesRequest)
    (subscribeErr : option error) (received : list Recv)
    (sub_Err : option error)
    : list protobuf.StreamReleasesResponse * Run (option error) :=
  let unary :=
    negb (protobuf.StreamReleasesRequest_StreamUpdates req
          || protobuf.StreamReleasesRequest_StreamCreates req) in
  match ParsePageToken (protobuf.StreamReleasesRequest_PageToken req) with
  | inl err => ([], Done (Some err))
  | inr pageToken =>
      let pageSize := releases_pageSize req pageToken in
      match subscribeErr with
      | Some err => ([], Done (Some err))
      | None =>
          match eventRepo_ListEvents (releases_eventAppIDs req)
                  [ct.EventTypeRelease] "" (BeforeIDInt64 pageToken) None
                  (releases_count pageSize) with
          | inl err => ([], Done (Some err))
          | inr rows =>
              match StreamReleases_snapshot req pageToken rows with
              | Panics m => ([], Panics m)
              | Blocked => ([], Blocked)
              | Done (st, nextPageToken) =>
                  let page :=
                    protobuf.mkStreamReleasesResponse (releases st)
                      (PageToken_String nextPageToken) true in
                  if unary then ([page], Done None)
                  else
                    let '(sent, r) :=
                      StreamReleases_loop req (releases_currID st) received in
                    (page :: sent,
                     match r with
                     | Done _ => Done sub_Err
                     | Panics m => Panics m
                     | Blocked => Blocked
                     end)
              end
          end
      end
  end.

End StreamReleases.

(** ** StreamFormations (controller.go, lines 861-974) *)

(** What the goroutine of StreamFormations does that is seen outside it. *)
Inductive FormationsEffect : Type :=
| CallRefreshFormation (appID releaseID : string)
| SendFormations (resp : protobuf.StreamFormationsResponse).

Section StreamFormations.
Context `{C : Collaborators}.

(** The loop of lines 866-872 that fills [releaseIDs]. *)
Fixpoint loadReleaseIDs (appIDs : list string) (releaseIDs : gmap string string)
    : error + gmap string string :=
  match appIDs with
  | [] => inr releaseIDs
  | appID :: rest =>
      match appRepo_GetRelease appID with
      | inl err => inl err
      | inr ctRelease =>
          loadReleaseIDs rest (<[appID := ct.Release_ID ctRelease]> releaseIDs)
      end
  end.

(** [refreshFormation] (lines 876-905), called for the [n]-th time: the
    new value of [formations], or the error. *)
Definition refreshFormation (n : nat) (appID releaseID : string)
    (formations : gmap string protobuf.Formation)
    : error + gmap string protobuf.Formation :=
  match formationRepo_Get n appID releaseID with
  | inl err => inl err
  | inr ctFormation =>
      match formationRepo_GetExpanded n appID releaseID with
      | inl err => inl err
      | inr ctEFormation =>
          let formation := ConvertFormation ctFormation in
          let state :=
            match ct.ExpandedFormation_PendingScaleRequest ctEFormation with
            | Some sr =>
                match ct.ScaleRequest_State sr with
                | ct.ScaleRequestStatePending => protobuf.SCALE_PENDING
                | ct.ScaleRequestStateCancelled => protobuf.SCALE_CANCELLED
                | ct.ScaleRequestStateComplete => protobuf.SCALE_COMPLETE
                end
            | None => protobuf.SCALE_COMPLETE
            end in
          match scaleRequestID_QueryRow n appID releaseID with
          | inl err =>
              inl (PlainError ("Error fetching scale request id: "
                               +:+ error_msg err))
          | inr scaleReqID =>
              let formation :=
                protobuf.mkFormation
                  (protobuf.Formation_Parent formation)
                  state
                  ("apps/" +:+ appID +:+ "/releases/" +:+ releaseID
                   +:+ "/scale/" +:+ scaleReqID)
                  (protobuf.Formation_Processes formation)
                  (protobuf.Formation_Tags formation) in
              inr (<[appID := formation]> formations)
          end
      end
  end.

(** [sendResponse] (lines 907-919): nothing is sent for an empty map. *)
Definition formations_sendResponse
    (formations : gmap string protobuf.Formation) : list FormationsEffect :=
  if (0 <? size formations)%nat
  then [SendFormations
          (protobuf.mkStreamFormationsResponse ((map_to_list formations).*2))]
  else [].

(** The goroutine of lines 933-961.  [n] counts the iterations; the
    result is what is put on [errChan].  [appID] and [releaseID] are
    declared inside the loop body, so each iteration starts with fresh
    ones; the values assigned after the receive end with the iteration. *)
Fixpoint StreamFormations_loop (n : nat) (releaseIDs : gmap string string)
    (formations : gmap string protobuf.Formation) (received : list Recv)
    : list FormationsEffect * Run (option error) :=
  let appID := "" in
  let releaseID := "" in
  match refreshFormation n appID releaseID formations with
  | inl err =>
      ([CallRefreshFormation appID releaseID],
       Done (Some (ConvertError err
                     ("Error fetching current app formation(" +:+ fmt_q appID
                      +:+ ", " +:+ fmt_q releaseID +:+ "): " +:+ error_msg err))))
  | inr formations =>
      let effects :=
        CallRefreshFormation appID releaseID :: formations_sendResponse formations in
      match received with
      | [] => (effects, Blocked)
      | RecvClosed :: _ => (effects, Done None)
      | RecvEvent event :: rest =>
          let appID := ct.Event_AppID event in
          let releaseIDs :=
            if String.eqb (ct.Event_ObjectType event) ct.EventTypeAppRelease
            then <[appID := ct.Event_ObjectID event]> releaseIDs
            else releaseIDs in
          let releaseID := default "" (releaseIDs !! appID) in
          let '(later, r) := StreamFormations_loop (S n) releaseIDs formations rest in
          (effects ++ later, r)
      end
  end.

Definition StreamFormations (req : protobuf.StreamFormationsRequest)
    (subscribeErr : option error) (received : list Recv)
    (sub_Err : option error) : list FormationsEffect * Run (option error) :=
  let appIDs :=
    ParseAppIDsFromNameFilters (protobuf.StreamFormationsRequest_NameFilters req) in
  match loadReleaseIDs appIDs ∅ with
  | inl err =>
      ([], Done (Some (ConvertError err
                         ("Error fetching current app release("
                          +:+ fmt_v (protobuf.StreamFormationsRequest_NameFilters req)
                          +:+ "): " +:+ error_msg err))))
  | inr releaseIDs =>
      match subscribeErr with
      | Some err => ([], Done (convertedErr (Some err)))
      | None =>
          let '(effects, r) := StreamFormations_loop 0 releaseIDs ∅ received in
          (effects,
           match r with
           | Done (Some err) => Done (Some err)
           | Done None => Done (convertedErr sub_Err)
           | Panics m => Panics m
           | Blocked => Blocked
           end)
      end
  end.

End StreamFormations.

(** ** StreamDeployments (controller.go, lines 986-1106) *)

Section StreamDeployments.
Context `{C : Collaborators}.

Definition listDeployments (req : protobuf.StreamDeploymentsRequest)
    : error + list protobuf.ExpandedDeployment :=
  match ParsePageToken (protobuf.StreamDeploymentsRequest_PageToken req) with
  | inl err => inl err
  | inr pageToken =>
      let pageToken :=
        if 0 <? protobuf.StreamDeploymentsRequest_PageSize req
        then data.mkPageToken (data.BeforeID pageToken)
               (protobuf.StreamDeploymentsRequest_PageSize req)
        else pageToken in
      let nameFilters := protobuf.StreamDeploymentsRequest_NameFilters req in
      match deploymentRepo_ListExpanded pageToken
              (ParseIDsFromNameFilters nameFilters "apps")
              (ParseIDsFromNameFilters nameFilters "deployments") with
      | inl err => inl err
      | inr ctExpandedDeployments =>
          let deployments := map ConvertExpandedDeployment ctExpandedDeployments in
          let typeFilters := protobuf.StreamDeploymentsRequest_TypeFilters req in
          if (length typeFilters =? 0)%nat then inr deployments
          else
            inr (filter
                   (fun ed =>
                      ReleaseTypeMatcher_Match typeFilters
                        (protobuf.ExpandedDeployment_Type ed) = true)
                   deployments)
      end
  end.

(** The message of the run-time panic of a read through a nil pointer. *)
Definition nilDereference : string :=
  "runtime error: invalid memory address or nil pointer dereference".

(** Line 1092 reads [deploymentEvent.Status]: when the payload left the
    pointer nil and the store has answered, the goroutine panics there. *)
Definition StreamDeployments_panics (n : nat) (ctEvent : ct.Event) : bool :=
  match Unmarshal_DeploymentEvent (ct.Event_Data ctEvent) with
  | inr None =>
      match deploymentRepo_GetExpanded n (ct.Event_ObjectID ctEvent) with
      | inl _ => false
      | inr _ => true
      end
  | _ => false
  end.

(** Lines 1080-1099 for the [n]-th received event: what is sent. *)
Definition StreamDeployments_event (req : protobuf.StreamDeploymentsRequest)
    (n : nat) (ctEvent : ct.Event) : list protobuf.StreamDeploymentsResponse :=
  match Unmarshal_DeploymentEvent (ct.Event_Data ctEvent) with
  | inl _ => []   (* logged, [continue] *)
  | inr None =>
      (* either the store fails, [continue], or line 1092 panics *)
      []
  | inr (Some deploymentEvent) =>
      match deploymentRepo_GetExpanded n (ct.Event_ObjectID ctEvent) with
      | inl _ => []
      | inr ctd =>
          let ctd :=
            ct.mkExpandedDeployment
              (ct.ExpandedDeployment_ID ctd) (ct.ExpandedDeployment_AppID ctd)
              (ct.ExpandedDeployment_Type ctd)
              (ct.DeploymentEvent_Status deploymentEvent) in
          let d := ConvertExpandedDeployment ctd in
          if negb (ReleaseTypeMatcher_Match
                     (protobuf.StreamDeploymentsRequest_TypeFilters req)
                     (protobuf.ExpandedDeployment_Type d))
          then []
          else [protobuf.mkStreamDeploymentsResponse [d]]
      end
  end.

Fixpoint StreamDeployments_loop (req : protobuf.StreamDeploymentsRequest)
    (n : nat) (received : list Recv)
    : list protobuf.StreamDeploymentsResponse * Run unit :=
  match received with
  | [] => ([], Blocked)
  | RecvClosed :: _ => ([], Done tt)
  | RecvEvent ctEvent :: rest =>
      if StreamDeployments_panics n ctEvent then ([], Panics nilDereference)
      else
        let '(sent, r) := StreamDeployments_loop req (S n) rest in
        (StreamDeployments_event req n ctEvent ++ sent, r)
  end.

Definition StreamDeployments (req : protobuf.StreamDeploymentsRequest)
    (subscribeErr : option error) (received : list Recv)
    (sub_Err : option error)
    : list protobuf.StreamDeploymentsResponse * Run (option error) :=
  let unary :=
    negb (protobuf.StreamDeploymentsRequest_StreamUpdates req
          || protobuf.StreamDeploymentsRequest_StreamCreates req) in
  match listDeployments req with
  | inl err => ([], Done (Some err))
  | inr deployments =>
      let page := protobuf.mkStreamDeploymentsResponse deployments in
      if unary then ([page], Done None)
      else
        match subscribeErr with
        | Some err => ([page], Done (Some err))
        | None =>
            let '(sent, r) := StreamDeployments_loop req 0 received in
            (page :: sent,
             match r with
             | Done _ => Done sub_Err
             | Panics m => Panics m
             | Blocked => Blocked
             end)
        end
  end.

End StreamDeployments.

(** ** CreateDeployment (controller.go, lines 1124-1191) *)

(** What CreateDeployment does that is seen outside it. *)
Inductive DeploymentEffect : Type :=
| CallCreateScale (req : protobuf.CreateScaleRequest)
| SendEvent (ev : protobuf.DeploymentEvent).

Section CreateDeployment.
Context `{C : Collaborators}.

(** The loop of lines 1141-1187, at its [n]-th receive.  [scale] is the
    call [s.createScale]: the outcome of running it on a request. *)
Fixpoint CreateDeployment_loop (scale : protobuf.CreateScaleRequest -> Run ScaleResult)
    (req : protobuf.CreateDeploymentRequest) (n : nat) (received : list Recv)
    : list DeploymentEffect * Run LoopExit :=
  match received with
  | [] => ([], Blocked)
  | RecvClosed :: _ => ([], Done BreakOuter)
  | RecvEvent ctEvent :: rest =>
      if negb (String.eqb (ct.Event_ObjectType ctEvent) "deployment")
      then CreateDeployment_loop scale req (S n) rest
      else
        match Unmarshal_DeploymentEvent (ct.Event_Data ctEvent) with
        | inl _ => CreateDeployment_loop scale req (S n) rest
        | inr de =>
            match deploymentRepo_Get n (ct.Event_ObjectID ctEvent) with
            | inl _ => CreateDeployment_loop scale req (S n) rest
            | inr d =>
                let complete := String.eqb (ct.Deployment_Status d) "complete" in
                let scaleReq :=
                  match protobuf.CreateDeploymentRequest_ScaleRequest req with
                  | Some sr =>
                      if complete then
                        Some (protobuf.mkCreateScaleRequest
                                ("apps/" +:+ ct.Deployment_AppID d +:+
                                 "/releases/" +:+ ct.Deployment_NewReleaseID d)
                                (protobuf.CreateScaleRequest_Processes sr)
                                (protobuf.CreateScaleRequest_Tags sr))
                      else None
                  | None => None
                  end in
                (* lines 1172-1186; line 1174 reads [de.JobType], line 1182
                   is [fmt.Errorf(de.Error)]: the error text is the format *)
                let send (effects : list DeploymentEffect) :=
                  match de with
                  | None => (effects, Panics nilDereference)
                  | Some de =>
                      let effects :=
                        effects ++
                        [SendEvent
                           (protobuf.mkDeploymentEvent
                              (ConvertDeployment d)
                              (ct.DeploymentEvent_JobType de)
                              (ConvertDeploymentEventJobState
                                 (ct.DeploymentEvent_JobState de))
                              (ct.DeploymentEvent_Error de)
                              (TimestampProto (ct.Event_CreatedAt ctEvent)))] in
                      if String.eqb (ct.Deployment_Status d) "failed"
                      then (effects,
                            Done (Return
                                    (PlainError
                                       (fmt_Sprintf (ct.DeploymentEvent_Error de)))))
                      else if complete then (effects, Done BreakOuter)
                      else
                        let '(later, r) :=
                          CreateDeployment_loop scale req (S n) rest in
                        (effects ++ later, r)
                  end in
                match scaleReq with
                | Some sreq =>
                    (* the results of the call are dropped; a call that
                       does not return keeps the handler from going on *)
                    match scale sreq with
                    | Done _ => send [CallCreateScale sreq]
                    | Panics m => ([CallCreateScale sreq], Panics m)
                    | Blocked => ([CallCreateScale sreq], Blocked)
                    end
                | None => send []
                end
            end
        end
  end.

Definition CreateDeployment (scale : protobuf.CreateScaleRequest -> Run ScaleResult)
    (req : protobuf.CreateDeploymentRequest)
    (subscribeErr : option error) (received : list Recv)
    (sub_Err : option error) : list DeploymentEffect * Run (option error) :=
  let appID := ParseIDFromName (protobuf.CreateDeploymentRequest_Parent req) "apps" in
  match deploymentRepo_Add appID
          (ParseIDFromName (protobuf.CreateDeploymentRequest_Release req) "releases") with
  | inl err => ([], Done (Some err))
  | inr d =>
      match subscribeErr with
      | Some err => ([], Done (Some err))
      | None =>
          let '(effects, r) := CreateDeployment_loop scale req 0 received in
          (effects,
           match r with
           | Done (Return err) => Done (Some err)
           | Done BreakOuter => Done sub_Err
           | Panics m => Panics m
           | Blocked => Blocked
           end)
      end
  end.

End CreateDeployment.

(** ** UpdateApp (controller.go, lines 445-479) *)

(** The values of the map [data]: the labels, the strategy or the deploy
    timeout of the app. *)
Inductive UpdateValue : Type :=
| VLabels (labels : gmap string string)
| VString (s : string)
| VInt32 (n : Z).

(** The request.  [UpdateAppRequest_App] is [req.App] ([None] is the nil
    pointer); the fields [Strategy] and [DeployTimeout] of the app message
    are carried beside it.  [UpdateAppRequest_UpdateMask] is the list of
    paths of the mask ([None] is the nil mask). *)
Record UpdateAppRequest : Type := mkUpdateAppRequest {
  UpdateAppRequest_App : option protobuf.App;
  UpdateAppRequest_Strategy : string;
  UpdateAppRequest_DeployTimeout : Z;
  UpdateAppRequest_UpdateMask : option (list string)
}.

(** Lines 447-457: the map before the mask is applied. *)
Definition UpdateApp_data (app : protobuf.App) (strategy : string)
    (deployTimeout : Z) : gmap string UpdateValue :=
  let data : gmap string UpdateValue :=
    {[ "meta" := VLabels (protobuf.App_Labels app) ]} in
  let data :=
    if negb (String.eqb strategy "")
    then <[ "strategy" := VString strategy ]> data else data in
  if 0 <? deployTimeout
  then <[ "deploy_timeout" := VInt32 deployTimeout ]> data else data.

(** One iteration of the loop over [paths] (lines 462-469). *)
Definition UpdateApp_maskPath (data maskedData : gmap string UpdateValue)
    (path : string) : gmap string UpdateValue :=
  let path := if String.eqb path "labels" then "meta" else path in
  match data !! path with
  | Some v => <[ path := v ]> maskedData
  | None => maskedData
  end.

(** Lines 459-472: the map after the mask is applied. *)
Definition UpdateApp_masked (data : gmap string UpdateValue)
    (mask : option (list string)) : gmap string UpdateValue :=
  match mask with
  | Some paths =>
      if (0 <? length paths)%nat
      then fold_left (UpdateApp_maskPath data) paths ∅
      else data
  | None => data
  end.

(** [UpdateApp]; [appRepo_Update] is the store's [Update(id, data)]. *)
Definition UpdateApp `{C : Collaborators}
    (appRepo_Update : string -> gmap string UpdateValue -> error + ct.App)
    (req : UpdateAppRequest) : Run (option protobuf.App * option error) :=
  match UpdateAppRequest_App req with
  | None => Panics "invalid memory address or nil pointer dereference"
  | Some app =>
      let data :=
        UpdateApp_masked
          (UpdateApp_data app (UpdateAppRequest_Strategy req)
             (UpdateAppRequest_DeployTimeout req))
          (UpdateAppRequest_UpdateMask req) in
      match appRepo_Update (ParseIDFromName (protobuf.App_Name app) "apps") data with
      | inl err => Done (None, Some (ConvertError err (error_msg err)))
      | inr ctApp => Done (Some (ConvertApp ctApp), None)
      end
  end.

(** ** A small instance of the collaborators

    A store with three apps on two pages and decoders for a handful of
    payloads; the examples below run the handlers on it. *)

Module Fixture.

(** [strings.Split(name, sep)] for a one-character separator; [part]
    holds the characters read since the last separator. *)
Fixpoint split (sep : ascii) (name : string) (part : string) : list string :=
  match name with
  | EmptyString => [part]
  | String c rest =>
      if Ascii.eqb c sep then part :: split sep rest ""
      else split sep rest (part +:+ String c "")
  end.

(** The id that follows the segment [resource] in [parts]. *)
Fixpoint lookupID (parts : list string) (resource : string) : string :=
  match parts with
  | k :: v :: rest =>
      if String.eqb k resource then v else lookupID rest resource
  | _ => ""
  end.

Definition parse_id (name resource : string) : string :=
  lookupID (split "/"%char name "") resource.

Definition parse_ids (nameFilters : list string)
    (resource : string) : list string :=
  filter (fun id => id <> "")
         (map (fun name => parse_id name resource) nameFilters).

Definition app (id : string) : ct.App := ct.mkApp id id ∅.

(** Page tokens are written as their [BeforeID]; the token [huge] is one
    for the first page with a size of 2^62. *)
Definition parse_page_token (s : string) : error + data.PageToken :=
  if String.eqb s "" then inr (data.mkPageToken None 0)
  else if String.eqb s "!" then inl (PlainError "invalid page token")
  else if String.eqb s "huge" then inr (data.mkPageToken None (2 ^ 62))
  else inr (data.mkPageToken (Some s) 0).

Definition page_token_string (t : option data.PageToken) : string :=
  match t with
  | Some t => default "" (data.BeforeID t)
  | None => ""
  end.

(** Apps [a1], [a2] on the first page, [a3] on the page after ["a2"];
    the page after ["a3"] cannot be read. *)
Definition list_page (t : data.PageToken)
    : error + (list ct.App * option data.PageToken) :=
  match data.BeforeID t with
  | None =>
      inr ([app "a1"; app "a2"], Some (data.mkPageToken (Some "a2") (data.Size t)))
  | Some b =>
      if String.eqb b "a2"
      then inr ([app "a3"], Some (data.mkPageToken (Some "a3") (data.Size t)))
      else inl (PlainError "store: connection lost")
  end.

Definition scaleRequest (id : string) (state : ct.ScaleRequestState)
    : ct.ScaleRequest :=
  ct.mkScaleRequest id "app1" "r1" state None None.

(** Payloads are the text [id:state]. *)
Definition decode_scale_request (data : string) : error + ct.ScaleRequest :=
  match split ":"%char data "" with
  | [id; state] =>
      if String.eqb state "pending"
      then inr (scaleRequest id ct.ScaleRequestStatePending)
      else if String.eqb state "cancelled"
      then inr (scaleRequest id ct.ScaleRequestStateCancelled)
      else if String.eqb state "complete"
      then inr (scaleRequest id ct.ScaleRequestStateComplete)
      else inl (PlainError "json: unknown state")
  | _ => inl (PlainError "json: cannot unmarshal")
  end.

Definition decode_release (data : string) : error + ct.Release :=
  match split ":"%char data "" with
  | [id; appID] => inr (ct.mkRelease id appID ∅)
  | _ => inl (PlainError "json: cannot unmarshal")
  end.

Definition decode_app (data : string) : error + ct.App :=
  if String.eqb data "" then inl (PlainError "json: unexpected end of input")
  else inr (app data).

(** Payloads are the text [status:jobState] or [status:jobState:error];
    the text [null] is the JSON value null. *)
Definition decode_deployment_event (data : string)
    : error + option ct.DeploymentEvent :=
  if String.eqb data "null" then inr None
  else
    match split ":"%char data "" with
    | [status; jobState] =>
        inr (Some (ct.mkDeploymentEvent status "web" jobState ""))
    | [status; jobState; err] =>
        inr (Some (ct.mkDeploymentEvent status "web" jobState err))
    | _ => inl (PlainError "json: cannot unmarshal")
    end.

(** Where [fmt] is in a format: in plain text, or after a percent sign in
    the flags, the width or the precision of a verb. *)
Inductive Directive : Type := InText | InFlags | InWidth | InPrecision.

Definition isFlag (c : ascii) : bool :=
  existsb (Ascii.eqb c) ["#"; "0"; "+"; "-"; " "]%char.

Definition isDigit (c : ascii) : bool :=
  existsb (Ascii.eqb c) ["0"; "1"; "2"; "3"; "4"; "5"; "6"; "7"; "8"; "9"]%char.

(** What [fmt] writes for a verb that finds no operand. *)
Definition missing (verb : ascii) : string :=
  if Ascii.eqb verb "%" then "%" else "%!" +:+ String verb "(MISSING)".

(** [fmt.Sprintf(format)] without operands, for the formats of the
    examples: text is copied, [%%] is a percent sign, a verb with its
    flags, width and precision is reported as missing its operand, and a
    format that ends inside a verb ends in [%!(NOVERB)]. *)
Fixpoint sprintf (part : Directive) (format : string) : string :=
  match format with
  | EmptyString =>
      match part with InText => "" | _ => "%!(NOVERB)" end
  | String c rest =>
      match part with
      | InText =>
          if Ascii.eqb c "%" then sprintf InFlags rest
          else String c (sprintf InText rest)
      | InFlags =>
          if isFlag c then sprintf InFlags rest
          else if isDigit c then sprintf InWidth rest
          else if Ascii.eqb c "." then sprintf InPrecision rest
          else missing c +:+ sprintf InText rest
      | InWidth =>
          if isDigit c then sprintf InWidth rest
          else if Ascii.eqb c "." then sprintf InPrecision rest
          else missing c +:+ sprintf InText rest
      | InPrecision =>
          if isDigit c then sprintf InPrecision rest
          else missing c +:+ sprintf InText rest
      end
  end.

(** The deployment [d1] of app [app1] to release [r2]; the store reports
    it complete from the second event on. *)
Definition get_deployment (n : nat) (id : string) : error + ct.Deployment :=
  if String.eqb id "d1"
  then inr (ct.mkDeployment "d1" "app1" "r1" "r2"
              (if (n <? 1)%nat then "running" else "complete"))
  else inl (PlainError "deployment not found").

Definition pbApp (id : string) : protobuf.App :=
  protobuf.mkApp ("apps/" +:+ id) id ∅.

Definition pbRelease (appID id : string) : protobuf.Release :=
  protobuf.mkRelease ("apps/" +:+ appID +:+ "/releases/" +:+ id) ∅.

Definition event (id : Z) (objectType objectID data : string) : ct.Event :=
  ct.mkEvent id "app1" objectType objectID ct.EventOpCreate data 0.

Definition scaleEvent (id : Z) (data : string) : ct.Event :=
  event id ct.EventTypeScaleRequest "sr" data.

Definition releaseEvent (id : Z) (data : string) : ct.Event :=
  event id ct.EventTypeRelease "r" data.

(** The event log: one scale request, three releases, newest first; a
    positive [count] limits the rows. *)
Definition list_events (objectTypes : list string) (count : Z) : list ct.Event :=
  let rows :=
    if bool_decide (objectTypes = [ct.EventTypeScaleRequest])
    then [scaleEvent 5 "sr1:pending"]
    else if bool_decide (objectTypes = [ct.EventTypeRelease])
    then [releaseEvent 9 "r3:app1"; releaseEvent 8 "r2:app1";
          releaseEvent 7 "r1:app1"]
    else [] in
  if 0 <? count then take (Z.to_nat count) rows else rows.

Definition collaborators : Collaborators := {|
  ParsePageToken := parse_page_token;
  PageToken_String := page_token_string;
  BeforeIDInt64 := fun _ => None;
  appRepo_ListPage := list_page;
  formationRepo_AddScaleRequest := fun _ => inr "sr1";
  deploymentRepo_Add := fun appID releaseID =>
    inr (ct.mkDeployment "d1" appID "r1" releaseID "pending");
  eventRepo_ListEvents := fun _ objectTypes _ _ _ count =>
    inr (list_events objectTypes count);
  deploymentRepo_Get := get_deployment;
  deploymentRepo_GetExpanded := fun _ id =>
    inr (ct.mkExpandedDeployment id "app1" "code" "pending");
  formationRepo_Get := fun _ appID releaseID =>
    if String.eqb appID "" then inl (PlainError "formation not found")
    else inr (ct.mkFormation appID releaseID ∅ ∅);
  formationRepo_GetExpanded := fun _ _ _ => inr (ct.mkExpandedFormation None);
  scaleRequestID_QueryRow := fun _ _ _ => inr "sr1";
  appRepo_GetRelease := fun appID => inr (ct.mkRelease "r1" appID ∅);
  deploymentRepo_ListExpanded := fun _ _ _ => inr [];
  ParseIDFromName := parse_id;
  ParseAppIDsFromNameFilters := fun l => parse_ids l "apps";
  ParseReleaseIDsFromNameFilters := fun l => parse_ids l "releases";
  ConvertApp := fun a =>
    protobuf.mkApp ("apps/" +:+ ct.App_ID a) (ct.App_Name a) (ct.App_Meta a);
  ConvertRelease := fun r =>
    protobuf.mkRelease
      ("apps/" +:+ ct.Release_AppID r +:+ "/releases/" +:+ ct.Release_ID r)
      (ct.Release_Meta r);
  ConvertError := fun err msg => StatusError Unknown msg;
  ParseIDsFromNameFilters := parse_ids;
  ConvertFormation := fun f =>
    protobuf.mkFormation
      ("apps/" +:+ ct.Formation_AppID f +:+ "/releases/" +:+ ct.Formation_ReleaseID f)
      protobuf.SCALE_COMPLETE "" (ct.Formation_Processes f) (ct.Formation_Tags f);
  ConvertDeployment := fun d =>
    protobuf.mkDeployment
      ("apps/" +:+ ct.Deployment_AppID d +:+ "/deployments/" +:+ ct.Deployment_ID d)
      (ct.Deployment_Status d);
  ConvertExpandedDeployment := fun d =>
    protobuf.mkExpandedDeployment
      ("apps/" +:+ ct.ExpandedDeployment_AppID d +:+ "/deployments/"
       +:+ ct.ExpandedDeployment_ID d)
      (ct.ExpandedDeployment_Type d) (ct.ExpandedDeployment_Status d);
  ConvertDeploymentEventJobState := fun st => st;
  TimestampProto := fun t => t;
  MatchLabelFilters := fun _ _ => true;
  ReleaseTypeMatcher_Match := fun _ _ => true;
  Unmarshal_App := decode_app;
  Unmarshal_ScaleRequest := decode_scale_request;
  Unmarshal_Release := decode_release;
  Unmarshal_DeploymentEvent := decode_deployment_event;
  fmt_Sprintf := sprintf InText;
  DefaultScaleTimeout_seconds := 30
|}.

End Fixture.

(** ** A second store *)

Module Fixture2.

(** [Fixture.collaborators] with an event log that holds one release
    event, a formation for every pair of ids, and a failed deployment
    [d2]. *)
Definition collaborators : Collaborators :=
  let F := Fixture.collaborators in {|
  ParsePageToken := @ParsePageToken F;
  PageToken_String := @PageToken_String F;
  BeforeIDInt64 := @BeforeIDInt64 F;
  appRepo_ListPage := @appRepo_ListPage F;
  formationRepo_AddScaleRequest := @formationRepo_AddScaleRequest F;
  deploymentRepo_Add := @deploymentRepo_Add F;
  eventRepo_ListEvents := fun _ _ _ _ _ _ =>
    inr [Fixture.releaseEvent 7 "r1:app1"];
  deploymentRepo_Get := fun n id =>
    if String.eqb id "d2"
    then inr (ct.mkDeployment "d2" "app1" "r1" "r2" "failed")
    else @deploymentRepo_Get F n id;
  deploymentRepo_GetExpanded := @deploymentRepo_GetExpanded F;
  formationRepo_Get := fun _ appID releaseID =>
    inr (ct.mkFormation appID releaseID ∅ ∅);
  formationRepo_GetExpanded := @formationRepo_GetExpanded F;
  scaleRequestID_QueryRow := @scaleRequestID_QueryRow F;
  appRepo_GetRelease := @appRepo_GetRelease F;
  deploymentRepo_ListExpanded := @deploymentRepo_ListExpanded F;
  ParseIDFromName := @ParseIDFromName F;
  ParseAppIDsFromNameFilters := @ParseAppIDsFromNameFilters F;
  ParseReleaseIDsFromNameFilters := @ParseReleaseIDsFromNameFilters F;
  ConvertApp := @ConvertApp F;
  ConvertRelease := @ConvertRelease F;
  ConvertError := @ConvertError F;
  ParseIDsFromNameFilters := @ParseIDsFromNameFilters F;
  ConvertFormation := @ConvertFormation F;
  ConvertDeployment := @ConvertDeployment F;
  ConvertExpandedDeployment := @ConvertExpandedDeployment F;
  ConvertDeploymentEventJobState := @ConvertDeploymentEventJobState F;
  TimestampProto := @TimestampProto F;
  MatchLabelFilters := @MatchLabelFilters F;
  ReleaseTypeMatcher_Match := @ReleaseTypeMatcher_Match F;
  Unmarshal_App := @Unmarshal_App F;
  Unmarshal_ScaleRequest := @Unmarshal_ScaleRequest F;
  Unmarshal_Release := @Unmarshal_Release F;
  Unmarshal_DeploymentEvent := @Unmarshal_DeploymentEvent F;
  fmt_Sprintf := @fmt_Sprintf F;
  DefaultScaleTimeout_seconds := @DefaultScaleTimeout_seconds F
|}.

End Fixture2.

(** ** Properties *)

(** [new] is [old] with [x] prepended and de-duplicated by name: [x] is at
    index 0, no other index holds an element named like [x], and the
    elements with other names are those of [old], in the same order. *)
Definition prepended {A : Type} (name : A -> string) (x : A) (old new : list A)
    : Prop :=
  new !! 0%nat = Some x
  /\ (forall (i : nat) (y : A), new !! i = Some y -> name y = name x -> i = 0%nat)
  /\ filter (fun y => name y <> name x) new
     = filter (fun y => name y <> name x) old.

(** The store lists events newest first ("list is in DESC order"). *)
Definition Descending (rows : list ct.Event) : Prop :=
  StronglySorted (fun a b => ct.Event_ID b <= ct.Event_ID a) rows.

(** The state of the StreamScales loop after the ticks [ticks]. *)
Definition StreamScales_after `{C : Collaborators} (st : ScalesState)
    (ticks : list Tick) : ScalesState :=
  fold_left (fun st t => fst (StreamScales_tick st t)) ticks st.

(** [currID] of the StreamReleases loop after the receives [received]. *)
Definition StreamReleases_after `{C : Collaborators}
    (req : protobuf.StreamReleasesRequest) (currID : Z) (received : list Recv) : Z :=
  fold_left
    (fun currID r =>
       match r with
       | RecvEvent event => fst (StreamReleases_event req currID event)
       | RecvClosed => currID
       end)
    received currID.

(** A refresh call that is handed two empty ids. *)
Definition refreshedEmpty (eff : FormationsEffect) : Prop :=
  match eff with
  | CallRefreshFormation appID releaseID => appID = "" /\ releaseID = ""
  | SendFormations _ => True
  end.

(** The effect is a call of [refreshFormation]. *)
Definition isCallRefreshFormation (eff : FormationsEffect) : bool :=
  match eff with CallRefreshFormation _ _ => true | SendFormations _ => false end.

(** The calls of [refreshFormation] among the effects, in order. *)
Definition refreshCalls (effects : list FormationsEffect) : list FormationsEffect :=
  filter (fun eff => isCallRefreshFormation eff = true) effects.

(** The call returns. *)
Definition returns {A : Type} (r : Run A) : Prop := exists a, r = Done a.

(** The tests of lines 302-317 of listApps: the app is named by the name
    filters, if there are any, and its labels match the label filters. *)
Definition appSelected `{C : Collaborators} (req : protobuf.StreamAppsRequest)
    (a : ct.App) : bool :=
  let appIDs :=
    ParseAppIDsFromNameFilters (protobuf.StreamAppsRequest_NameFilters req) in
  ((length appIDs =? 0)%nat || appFound appIDs a)
  && MatchLabelFilters (ct.App_Meta a) (protobuf.StreamAppsRequest_LabelFilters req).

(** The effect is a call of [createScale]. *)
Definition isCallCreateScale (eff : DeploymentEffect) : bool :=
  match eff with CallCreateScale _ => true | SendEvent _ => false end.

(** The events that sit between the data listener and the handler on the
    way through subscriber [i]: the one its forwarder holds, then the ones
    queued in its channel. *)
Definition inFlight (i : nat) (e : Fabric.EventListener) : list ct.Event :=
  match Fabric.forwarders e !! i with
  | Some (Fabric.AtSend ev) => [ev]
  | _ => []
  end
  ++ match Fabric.subs e !! i with
     | Some sub => Fabric.queue (Fabric.sub_Events sub)
     | None => []
     end.

(** The event the action puts into the channel of subscriber [i]. *)
Definition accepted (i : nat) (a : Fabric.Action) (e : Fabric.EventListener)
    : list ct.Event :=
  match a with
  | Fabric.Publish j ev =>
      if bool_decide (j = i) then
        match Fabric.subs e !! i with
        | Some sub => if Fabric.closed (Fabric.sub_Events sub) then [] else [ev]
        | None => []
        end
      else []
  | _ => []
  end.

(** The event the action hands from forwarder [i] to the handler. *)
Definition handed (i : nat) (a : Fabric.Action) (e : Fabric.EventListener)
    : list ct.Event :=
  match a with
  | Fabric.Receive j =>
      if bool_decide (j = i) then
        match Fabric.forwarders e !! i with
        | Some (Fabric.AtSend ev) => if Fabric.closed (Fabric.Events e) then [] else [ev]
        | _ => []
        end
      else []
  | _ => []
  end.

(** The events published to subscriber [i], and those the handler received
    from forwarder [i], along a schedule. *)
Fixpoint published (i : nat) (acts : list Fabric.Action) (e : Fabric.EventListener)
    : list ct.Event :=
  match acts with
  | [] => []
  | a :: rest => accepted i a e ++ published i rest (Fabric.step a e)
  end.

Fixpoint delivered (i : nat) (acts : list Fabric.Action) (e : Fabric.EventListener)
    : list ct.Event :=
  match acts with
  | [] => []
  | a :: rest => handed i a e ++ delivered i rest (Fabric.step a e)
  end.

(** * Theorems *)

(** ** Prepending with de-duplication *)

Section Prepend.
Context {A : Type} (name : A -> string).

(** The range loop of [prependScaleRequest] and [maybePrependRelease]
    appends the elements with another name, in order. *)
Lemma fold_left_skip_name (N : string) (l acc : list A) :
  fold_left (fun acc sr => if String.eqb (name sr) N then acc else acc ++ [sr]) l acc
  = acc ++ filter (fun sr => name sr <> N) l.
Proof.
  revert acc. induction l as [|sr l IH]; intros acc; cbn [fold_left].
  - by rewrite filter_nil, app_nil_r.
  - rewrite IH, filter_cons.
    destruct (String.eqb_spec (name sr) N) as [Heq|Hne]; case_decide; try done.
    by rewrite <- app_assoc.
Qed.

Lemma prepended_cons_filter (x : A) (old : list A) :
  prepended name x old (x :: filter (fun sr => name sr <> name x) old).
Proof.
  repeat split.
  - intros [|i] y Hy Hname; [done|]. cbn [lookup list_lookup] in Hy.
    apply list_elem_of_lookup_2, list_elem_of_filter in Hy as [Hne _].
    by destruct Hne.
  - rewrite filter_cons. case_decide; [done|].
    apply list_filter_filter_l. done.
Qed.

End Prepend.

Section PrependClaims.
Context `{C : Collaborators}.

(** C5.  When [prependScaleRequest] (StreamScales) decodes its event to
    the scale request [sr], and when [maybePrependRelease]
    (StreamReleases) accepts the release [r], the new list has that item
    at index 0, holds no other element with the item's name, and keeps
    the elements with other names in their order. *)
Theorem prepend_dedup_by_name
    (req : protobuf.StreamReleasesRequest) (event1 event2 : ct.Event)
    (scaleRequests : list protobuf.ScaleRequest)
    (releases : list protobuf.Release)
    (sr : protobuf.ScaleRequest) (r : protobuf.Release) :
  unmarshalScaleRequest event1 = inr sr ->
  maybeAcceptRelease req event2 = (Some r, true, None) ->
  prepended protobuf.ScaleRequest_Name sr scaleRequests
    (fst (prependScaleRequest event1 scaleRequests))
  /\ prepended protobuf.Release_Name r releases
       (fst (maybePrependRelease req event2 releases)).
Proof.
  intros Hsr Hr. unfold prependScaleRequest, maybePrependRelease.
  rewrite Hsr, Hr. simpl.
  rewrite (fold_left_skip_name protobuf.ScaleRequest_Name).
  rewrite (fold_left_skip_name protobuf.Release_Name).
  split; apply prepended_cons_filter.
Qed.

End PrependClaims.

Lemma prepend_dedup_by_name_witness :
  let C := Fixture.collaborators in
  let req := protobuf.mkStreamReleasesRequest 0 "" [] [] true true in
  let event1 := Fixture.event 7 ct.EventTypeScaleRequest "sr1" "sr1:complete" in
  let event2 := Fixture.event 8 ct.EventTypeRelease "r2" "r2:app1" in
  let sr := utils.ConvertScaleRequest
              (Fixture.scaleRequest "sr1" ct.ScaleRequestStateComplete) in
  let r := Fixture.pbRelease "app1" "r2" in
  let scaleRequests :=
    [utils.ConvertScaleRequest (Fixture.scaleRequest "sr2" ct.ScaleRequestStatePending);
     utils.ConvertScaleRequest (Fixture.scaleRequest "sr1" ct.ScaleRequestStatePending)] in
  let releases :=
    [Fixture.pbRelease "app1" "r2"; Fixture.pbRelease "app1" "r1"] in
  unmarshalScaleRequest event1 = inr sr
  /\ maybeAcceptRelease req event2 = (Some r, true, None)
  /\ prepended protobuf.ScaleRequest_Name sr scaleRequests
       (fst (prependScaleRequest event1 scaleRequests))
  /\ prepended protobuf.Release_Name r releases
       (fst (maybePrependRelease req event2 releases)).
Proof.
  intros C req event1 event2 sr r scaleRequests releases.
  split; [vm_compute; reflexivity|].
  split; [vm_compute; reflexivity|].
  apply (prepend_dedup_by_name req event1 event2 scaleRequests releases sr r);
    vm_compute; reflexivity.
Defined.

(** ** listApps: filling the page *)

Section ListAppsClaims.
Context `{C : Collaborators}.

(** One unfolding of the recursion. *)
Lemma listApps_S (fuel : nat) (req : protobuf.StreamAppsRequest) :
  listApps (S fuel) req
  = match listApps_page req with
    | Panics m => Panics m
    | Blocked => Blocked
    | Done (inl err) => Done ([], None, Some err)
    | Done (inr p) =>
        if (page_n p <? page_pageSize p)
           && bool_decide (page_nextPageToken p <> None)
        then
          match listApps fuel (nextRequest req (page_nextPageToken p)) with
          | Panics m => Panics m
          | Blocked => Blocked
          | Done (_, _, Some _) => Done (page_apps p, page_nextPageToken p, None)
          | Done (nextApps, npt, None) => Done (nextApps ++ page_apps p, npt, None)
          end
        else Done (page_apps p, page_nextPageToken p, None)
    end.
Proof. reflexivity. Qed.

(** More fuel does not change what a call that returned has returned. *)
Lemma listApps_fuel_mono (fuel : nat) (req : protobuf.StreamAppsRequest)
    (res : AppsResult) :
  listApps fuel req = Done res -> listApps (S fuel) req = Done res.
Proof.
  revert req res. induction fuel as [|fuel IH]; intros req res; [done|].
  rewrite (listApps_S fuel req), (listApps_S (S fuel) req).
  destruct (listApps_page req) as [[err|p]| |]; try done.
  destruct (_ && _); [|done].
  destruct (listApps fuel (nextRequest req (page_nextPageToken p)))
    as [next| |] eqn:Hnext; try done.
  by rewrite (IH _ _ Hnext).
Qed.

(** C9.  When the filtered page [p] of a call holds fewer than the page
    size and the store returned a next-page token [npt], [listApps] calls
    itself on the request for [npt]; from a recursive call that returns
    [(nextApps, npt', nil)] it returns [nextApps] followed by its own
    apps, with [npt']; from a recursive call that returns an error it
    returns its own apps and [npt] with a nil error. *)
Theorem listApps_fills_page (fuel : nat) (req : protobuf.StreamAppsRequest)
    (p : Page) (npt : data.PageToken) :
  listApps_page req = Done (inr p) ->
  page_n p < page_pageSize p ->
  page_nextPageToken p = Some npt ->
  (forall nextApps npt',
      listApps fuel (nextRequest req (Some npt)) = Done (nextApps, npt', None) ->
      listApps (S fuel) req = Done (nextApps ++ page_apps p, npt', None))
  /\ (forall nextApps npt' err,
        listApps fuel (nextRequest req (Some npt))
        = Done (nextApps, npt', Some err) ->
        listApps (S fuel) req = Done (page_apps p, Some npt, None)).
Proof.
  intros Hpage Hn Hnpt.
  assert (Hcond : (page_n p <? page_pageSize p)
                  && bool_decide (page_nextPageToken p <> None) = true).
  { apply andb_true_intro. split; [by apply Z.ltb_lt|].
    apply bool_decide_eq_true. by rewrite Hnpt. }
  split; intros; rewrite listApps_S, Hpage, Hcond, Hnpt;
    match goal with H : listApps _ _ = _ |- _ => rewrite H end; reflexivity.
Qed.

End ListAppsClaims.

Lemma listApps_fills_page_witness :
  let C := Fixture.collaborators in
  let req := protobuf.mkStreamAppsRequest 3 "" [] [] false false in
  let req2 := protobuf.mkStreamAppsRequest 3 "a2" [] [] false false in
  let a := Fixture.pbApp in
  listApps 3 req
  = Done ([a "a3"; a "a1"; a "a2"], Some (data.mkPageToken (Some "a3") 3), None)
  /\ listApps 2 req2
     = Done ([a "a3"], Some (data.mkPageToken (Some "a3") 3), None).
Proof.
  intros C req req2 a. split.
  - pose (p := mkPage [a "a1"; a "a2"] 2 3 (Some (data.mkPageToken (Some "a2") 3))).
    assert (Hpage : listApps_page req = Done (inr p)) by (vm_compute; reflexivity).
    assert (Hn : page_n p < page_pageSize p) by (vm_compute; reflexivity).
    apply (proj1 (listApps_fills_page 2 req p _ Hpage Hn eq_refl)
                 [a "a3"] (Some (data.mkPageToken (Some "a3") 3))).
    vm_compute; reflexivity.
  - pose (p := mkPage [a "a3"] 1 3 (Some (data.mkPageToken (Some "a3") 3))).
    assert (Hpage : listApps_page req2 = Done (inr p)) by (vm_compute; reflexivity).
    assert (Hn : page_n p < page_pageSize p) by (vm_compute; reflexivity).
    apply (proj2 (listApps_fills_page 1 req2 p _ Hpage Hn eq_refl)
                 [] None (PlainError "store: connection lost")).
    vm_compute; reflexivity.
Defined.

(** ** StreamReleases: the page window *)

Lemma int_add_small (a b : Z) :
  - 2 ^ 63 <= a + b < 2 ^ 63 -> int_add a b = a + b.
Proof.
  intros H. unfold int_add, wrap64.
  rewrite Z.mod_small by lia. lia.
Qed.

Lemma take_pred_cons (A : Type) (x y : A) (l : list A) :
  take (length (x :: y :: l) - 1) (x :: y :: l) = x :: take (length l) (y :: l).
Proof. cbn [length]. by rewrite Nat.sub_succ, Nat.sub_0_r. Qed.

Section ReleasesWindow.
Context `{C : Collaborators}.

(** C6, as amended.  For a page size between 1 and the largest [int]
    less one, StreamReleases asks the store for [pageSize + 1] rows;
    when [pageSize + 1] rows come back it keeps all but the last and
    sets the next-page token to the id of the first kept row with size
    [pageSize]; for any other number of rows it keeps them all and
    leaves the token nil. *)
Theorem releases_window_next_page (pageSize : Z) (rows : list ct.Event) :
  0 < pageSize < 2 ^ 63 - 1 ->
  releases_count pageSize = pageSize + 1
  /\ (Z.of_nat (length rows) = pageSize + 1 ->
      exists event kept,
        take (length rows - 1) rows = event :: kept
        /\ releases_window pageSize rows
           = Done (event :: kept,
                   Some (data.mkPageToken (Some (pretty (ct.Event_ID event)))
                           pageSize)))
  /\ (Z.of_nat (length rows) <> pageSize + 1 ->
      releases_window pageSize rows = Done (rows, None)).
Proof.
  intros Hp.
  assert (Hadd : int_add pageSize 1 = pageSize + 1)
    by (apply int_add_small; lia).
  unfold releases_count, releases_window. rewrite Hadd.
  replace (0 <? pageSize) with true by (symmetry; apply Z.ltb_lt; lia).
  replace (pageSize =? 0) with false by (symmetry; apply Z.eqb_neq; lia).
  split; [done|]. split; intros Hlen.
  - replace (Z.of_nat (length rows) =? pageSize + 1) with true
      by (symmetry; by apply Z.eqb_eq).
    destruct rows as [|event [|y rows]]; cbn [length] in Hlen; try lia.
    rewrite take_pred_cons. exists event, (take (length rows) (y :: rows)).
    split; [done|]. reflexivity.
  - replace (Z.of_nat (length rows) =? pageSize + 1) with false
      by (symmetry; by apply Z.eqb_neq).
    reflexivity.
Qed.

End ReleasesWindow.

Lemma releases_window_next_page_witness :
  let C := Fixture.collaborators in
  let ev := fun id => Fixture.event id ct.EventTypeRelease "r" "r:app1" in
  releases_count 2 = 3
  /\ releases_window 2 [ev 9; ev 8; ev 7]
     = Done ([ev 9; ev 8], Some (data.mkPageToken (Some "9") 2))
  /\ releases_window 2 [ev 9; ev 8] = Done ([ev 9; ev 8], None).
Proof.
  intros C ev.
  assert (Hp : 0 < 2 < 2 ^ 63 - 1) by (vm_compute; split; reflexivity).
  destruct (releases_window_next_page 2 [ev 9; ev 8; ev 7] Hp) as (Hc & Hfull & _).
  destruct (releases_window_next_page 2 [ev 9; ev 8] Hp) as (_ & _ & Hshort).
  split; [exact Hc|]. split.
  - vm_compute; reflexivity.
  - apply Hshort. vm_compute. discriminate.
Defined.

(** C6, as stated, fails for a page size of zero: the query asks for zero
    rows, not one, and two returned rows (not [0 + 1]) are still cut to
    one, with a next-page token. *)
Lemma releases_window_zero_counterexample :
  releases_count 0 <> 0 + 1
  /\ Z.of_nat (length [Fixture.event 9 ct.EventTypeRelease "r" "r:app1";
                       Fixture.event 8 ct.EventTypeRelease "r" "r:app1"])
     <> 0 + 1
  /\ releases_window 0 [Fixture.event 9 ct.EventTypeRelease "r" "r:app1";
                        Fixture.event 8 ct.EventTypeRelease "r" "r:app1"]
     = Done ([Fixture.event 9 ct.EventTypeRelease "r" "r:app1"],
             Some (data.mkPageToken (Some "9") 0)).
Proof. repeat split; vm_compute; congruence. Qed.

(** ** The seam between snapshot and live tail *)

Section Seam.
Context `{C : Collaborators}.

(** The loops go on from the state [StreamScales_after] and
    [StreamReleases_after] describe. *)
Lemma StreamScales_loop_app (st : ScalesState) (ticks rest : list Tick) :
  TickClosed ∉ ticks ->
  exists sent,
    StreamScales_loop st (ticks ++ rest)
    = (sent ++ fst (StreamScales_loop (StreamScales_after st ticks) rest),
       snd (StreamScales_loop (StreamScales_after st ticks) rest)).
Proof.
  revert st. induction ticks as [|t ticks IH]; intros st Hno.
  - exists []. cbn. by destruct (StreamScales_loop st rest).
  - assert (Ht : t <> TickClosed) by (intros ->; apply Hno; left).
    assert (Hno' : TickClosed ∉ ticks) by (intros H; apply Hno; by right).
    destruct (IH (fst (StreamScales_tick st t)) Hno') as [sent Hsent].
    exists (snd (StreamScales_tick st t) ++ sent).
    change (StreamScales_after st (t :: ticks))
      with (StreamScales_after (fst (StreamScales_tick st t)) ticks).
    destruct t; [| done |]; cbn [app StreamScales_loop];
      destruct (StreamScales_tick st _) as [st' out]; cbn [fst snd] in *;
      rewrite Hsent; cbn [fst snd]; by rewrite app_assoc.
Qed.

Lemma StreamReleases_loop_app (req : protobuf.StreamReleasesRequest)
    (currID : Z) (received rest : list Recv) :
  RecvClosed ∉ received ->
  exists sent,
    StreamReleases_loop req currID (received ++ rest)
    = (sent ++ fst (StreamReleases_loop req
                      (StreamReleases_after req currID received) rest),
       snd (StreamReleases_loop req
              (StreamReleases_after req currID received) rest)).
Proof.
  revert currID. induction received as [|r received IH]; intros currID Hno.
  - exists []. cbn. by destruct (StreamReleases_loop req currID rest).
  - assert (Hno' : RecvClosed ∉ received) by (intros H; apply Hno; by right).
    destruct r as [event|]; [|exfalso; apply Hno; left].
    destruct (IH (fst (StreamReleases_event req currID event)) Hno')
      as [sent Hsent].
    exists (snd (StreamReleases_event req currID event) ++ sent).
    change (StreamReleases_after req currID (RecvEvent event :: received))
      with (StreamReleases_after req
              (fst (StreamReleases_event req currID event)) received).
    cbn [app StreamReleases_loop].
    destruct (StreamReleases_event req currID event) as [currID' out].
    cbn [fst snd] in *. rewrite Hsent. cbn [fst snd]. by rewrite app_assoc.
Qed.

(** [currID] never decreases in the live tail. *)
Lemma StreamScales_event_currID (st : ScalesState) (event : ct.Event) :
  scales_currID st <= scales_currID (StreamScales_event st event).
Proof.
  unfold StreamScales_event.
  destruct (Z.leb_spec (ct.Event_ID event) (scales_currID st)); cbn; lia.
Qed.

Lemma StreamScales_after_currID (st : ScalesState) (ticks : list Tick) :
  scales_currID st <= scales_currID (StreamScales_after st ticks).
Proof.
  revert st. induction ticks as [|t ticks IH]; intros st; [cbn; lia|].
  change (StreamScales_after st (t :: ticks))
    with (StreamScales_after (fst (StreamScales_tick st t)) ticks).
  etrans; [|apply IH].
  destruct t; cbn; [apply StreamScales_event_currID| lia |].
  destruct (timer st); cbn; lia.
Qed.

Lemma StreamReleases_event_currID (req : protobuf.StreamReleasesRequest)
    (currID : Z) (event : ct.Event) :
  currID <= fst (StreamReleases_event req currID event).
Proof.
  unfold StreamReleases_event.
  destruct (Z.leb_spec (ct.Event_ID event) currID); [cbn; lia|].
  destruct (maybeAcceptRelease req event) as [[[r|] [|]] [err|]]; cbn; lia.
Qed.

Lemma StreamReleases_after_currID (req : protobuf.StreamReleasesRequest)
    (currID : Z) (received : list Recv) :
  currID <= StreamReleases_after req currID received.
Proof.
  revert currID. induction received as [|r received IH]; intros currID;
    [cbn; lia|].
  destruct r as [event|]; cbn [StreamReleases_after fold_left].
  - etrans; [apply (StreamReleases_event_currID req currID event)|apply IH].
  - apply IH.
Qed.

(** After the snapshot loops, [currID] is the id of the first row. *)
Lemma StreamScales_snapshot_currID (event : ct.Event) (rows : list ct.Event) :
  scales_currID (StreamScales_snapshot (event :: rows)) = ct.Event_ID event.
Proof.
  unfold StreamScales_snapshot. cbn [rev]. by rewrite fold_left_app.
Qed.

Lemma StreamReleases_listed_currID (req : protobuf.StreamReleasesRequest)
    (st : ReleasesState) (event : ct.Event) (rows : list ct.Event) :
  releases_currID
    (fold_left (StreamReleases_listed req) (rows ++ [event]) st)
  = ct.Event_ID event.
Proof. by rewrite fold_left_app. Qed.

Lemma Descending_head (event s : ct.Event) (rows : list ct.Event) :
  Descending (event :: rows) -> s ∈ event :: rows ->
  ct.Event_ID s <= ct.Event_ID event.
Proof.
  intros Hd Hs. apply StronglySorted_inv in Hd as [_ Hall].
  apply elem_of_cons in Hs as [->|Hs]; [lia|].
  rewrite Forall_forall in Hall. by apply Hall.
Qed.

Lemma StreamScales_snapshot_bound (rows : list ct.Event) (s : ct.Event) :
  Descending rows -> s ∈ rows ->
  ct.Event_ID s <= scales_currID (StreamScales_snapshot rows).
Proof.
  intros Hd Hs. destruct rows as [|event rows]; [by apply elem_of_nil in Hs|].
  rewrite StreamScales_snapshot_currID. by eapply Descending_head.
Qed.

Lemma StreamReleases_snapshot_bound (req : protobuf.StreamReleasesRequest)
    (pageToken : data.PageToken) (rows : list ct.Event)
    (st : ReleasesState) (tok : option data.PageToken) (s : ct.Event) :
  Descending rows -> s ∈ rows ->
  StreamReleases_snapshot req pageToken rows = Done (st, tok) ->
  ct.Event_ID s <= releases_currID st.
Proof.
  intros Hd Hs. unfold StreamReleases_snapshot, releases_window.
  destruct rows as [|event rows]; [by apply elem_of_nil in Hs|].
  pose proof (Descending_head _ _ _ Hd Hs) as Hle.
  destruct (_ && _).
  - destruct rows as [|y rows]; [discriminate|].
    rewrite take_pred_cons. intros [= <- _]. cbn [rev].
    by rewrite StreamReleases_listed_currID.
  - intros [= <- _]. cbn [rev]. by rewrite StreamReleases_listed_currID.
Qed.

(** C1, as amended.  With the rows of the store listed newest first, in
    StreamScales and in StreamReleases an event whose id is at most the
    id of a row read in the snapshot phase, received at any point of the
    live tail, changes neither the list nor [currID], and StreamReleases
    sends nothing for it. *)
Theorem no_overlap_after_snapshot
    (reqR : protobuf.StreamReleasesRequest) (pageToken : data.PageToken)
    (rowsS rowsR : list ct.Event)
    (stR : ReleasesState) (tok : option data.PageToken) :
  Descending rowsS ->
  Descending rowsR ->
  StreamReleases_snapshot reqR pageToken rowsR = Done (stR, tok) ->
  (forall (ticks : list Tick) (s event : ct.Event),
      s ∈ rowsS -> ct.Event_ID event <= ct.Event_ID s ->
      let st :=
        StreamScales_after
          (sendResponseWithDelay (StreamScales_snapshot rowsS)) ticks in
      StreamScales_event st event = st)
  /\ (forall (received : list Recv) (s event : ct.Event),
        s ∈ rowsR -> ct.Event_ID event <= ct.Event_ID s ->
        let currID := StreamReleases_after reqR (releases_currID stR) received in
        StreamReleases_event reqR currID event = (currID, [])).
Proof.
  intros HdS HdR Hsnap. split.
  - intros ticks s event Hs Hle st.
    pose proof (StreamScales_snapshot_bound rowsS s HdS Hs) as Hb.
    pose proof (StreamScales_after_currID
                  (sendResponseWithDelay (StreamScales_snapshot rowsS)) ticks) as Hm.
    fold st in Hm. cbn [sendResponseWithDelay scales_currID] in Hm.
    unfold StreamScales_event.
    replace (ct.Event_ID event <=? scales_currID st) with true; [done|].
    symmetry. apply Z.leb_le. lia.
  - intros received s event Hs Hle currID.
    pose proof (StreamReleases_snapshot_bound _ _ _ _ _ s HdR Hs Hsnap) as Hb.
    pose proof (StreamReleases_after_currID reqR (releases_currID stR) received)
      as Hm.
    fold currID in Hm. unfold StreamReleases_event.
    replace (ct.Event_ID event <=? currID) with true; [done|].
    symmetry. apply Z.leb_le. lia.
Qed.

End Seam.

Lemma no_overlap_after_snapshot_witness :
  let C := Fixture.collaborators in
  let reqR := protobuf.mkStreamReleasesRequest 2 "" [] [] true true in
  let rowsS := Fixture.list_events [ct.EventTypeScaleRequest] 0 in
  let rowsR := Fixture.list_events [ct.EventTypeRelease] 3 in
  let stS :=
    StreamScales_after (sendResponseWithDelay (StreamScales_snapshot rowsS))
      [TickEvent (Fixture.scaleEvent 12 "sr2:pending"); TickTimer] in
  let currID := StreamReleases_after reqR 9 [RecvEvent (Fixture.releaseEvent 12 "r4:app1")] in
  Descending rowsS
  /\ Descending rowsR
  /\ StreamScales_event stS (Fixture.scaleEvent 5 "sr1:complete") = stS
  /\ StreamReleases_event reqR currID (Fixture.releaseEvent 8 "r2:app1")
     = (currID, []).
Proof.
  intros C reqR rowsS rowsR stS currID.
  assert (HdS : Descending rowsS)
    by (repeat constructor).
  assert (HdR : Descending rowsR)
    by (repeat constructor; vm_compute; discriminate).
  pose (stR := mkReleasesState
                 [Fixture.pbRelease "app1" "r3"; Fixture.pbRelease "app1" "r2"] 9).
  assert (Hsnap : StreamReleases_snapshot reqR (data.mkPageToken None 0) rowsR
                  = Done (stR, Some (data.mkPageToken (Some "9") 2)))
    by (vm_compute; reflexivity).
  destruct (no_overlap_after_snapshot reqR _ rowsS rowsR stR _ HdS HdR Hsnap)
    as [HS HR].
  split; [exact HdS|]. split; [exact HdR|]. split.
  - apply (HS _ (Fixture.scaleEvent 5 "sr1:pending")).
    + vm_compute. left.
    + vm_compute. discriminate.
  - apply (HR [RecvEvent (Fixture.releaseEvent 12 "r4:app1")]
              (Fixture.releaseEvent 8 "r2:app1")).
    + vm_compute. right. left.
    + vm_compute. discriminate.
Defined.

(** StreamApps never looks at [event.ID]. *)
Lemma StreamApps_event_ignores_ID `{C : Collaborators}
    (req : protobuf.StreamAppsRequest) (event : ct.Event) (id : Z) :
  StreamApps_event req
    (ct.mkEvent id (ct.Event_AppID event) (ct.Event_ObjectType event)
       (ct.Event_ObjectID event) (ct.Event_Op event) (ct.Event_Data event)
       (ct.Event_CreatedAt event))
  = StreamApps_event req event.
Proof. reflexivity. Qed.

(** C1, as stated, fails.  StreamApps reads no event in its snapshot phase
    and has no [currID]; the create event of app [a1], with id 0, is sent
    again after the page that lists [a1].  In StreamScales the event with
    id 5, already listed in the snapshot, restarts the debounce timer and
    so causes one more response than the same run without it. *)
Lemma overlap_accepted_counterexample :
  ct.Event_ID (Fixture.event 0 ct.EventTypeApp "a1" "a1") <= 0
  /\ fst (StreamApps (C := Fixture.collaborators) 3
            (protobuf.mkStreamAppsRequest 2 "" [] [] true true) None
            [RecvEvent (Fixture.event 0 ct.EventTypeApp "a1" "a1"); RecvClosed] None)
     = [protobuf.mkStreamAppsResponse [Fixture.pbApp "a1"; Fixture.pbApp "a2"] "a2" true;
        protobuf.mkStreamAppsResponse [Fixture.pbApp "a1"] "" false]
  /\ Fixture.scaleEvent 5 "sr1:pending"
     ∈ Fixture.list_events [ct.EventTypeScaleRequest] 0
  /\ length (fst (StreamScales (C := Fixture.collaborators)
                    (protobuf.mkStreamScalesRequest []) None
                    [TickTimer; TickEvent (Fixture.scaleEvent 5 "sr1:pending");
                     TickTimer; TickClosed] None)) = 3%nat
  /\ length (fst (StreamScales (C := Fixture.collaborators)
                    (protobuf.mkStreamScalesRequest []) None
                    [TickTimer; TickTimer; TickClosed] None)) = 2%nat.
Proof.
  split; [vm_compute; discriminate|].
  split; [vm_compute; reflexivity|].
  split; [vm_compute; left|].
  split; vm_compute; reflexivity.
Qed.

(** ** Events whose payload does not decode *)

Section Malformed.
Context `{C : Collaborators}.

(** C7, as amended.  An event whose payload fails to unmarshal is
    skipped by StreamApps, StreamScales, StreamReleases and
    StreamDeployments: the handler itself sends nothing for it, its list
    is left as it was, and the loop goes on with the events that follow.
    (StreamScales still restarts its debounce timer, as it does for every
    event it receives.) *)
Theorem malformed_event_skipped
    (reqA : protobuf.StreamAppsRequest) (reqR : protobuf.StreamReleasesRequest)
    (reqD : protobuf.StreamDeploymentsRequest)
    (eA eS eR eD : ct.Event) (errA errS errR errD : error) :
  Unmarshal_App (ct.Event_Data eA) = inl errA ->
  Unmarshal_ScaleRequest (ct.Event_Data eS) = inl errS ->
  Unmarshal_Release (ct.Event_Data eR) = inl errR ->
  Unmarshal_DeploymentEvent (ct.Event_Data eD) = inl errD ->
  (StreamApps_event reqA eA = []
   /\ forall rest,
       StreamApps_loop reqA (RecvEvent eA :: rest) = StreamApps_loop reqA rest)
  /\ (forall st,
        snd (StreamScales_tick st (TickEvent eS)) = []
        /\ scaleRequests (fst (StreamScales_tick st (TickEvent eS)))
           = scaleRequests st
        /\ scaleRequests (StreamScales_listed st eS) = scaleRequests st
        /\ forall rest,
            StreamScales_loop st (TickEvent eS :: rest)
            = StreamScales_loop (fst (StreamScales_tick st (TickEvent eS))) rest)
  /\ (forall currID,
        snd (StreamReleases_event reqR currID eR) = []
        /\ (forall releases,
               fst (maybePrependRelease reqR eR releases) = releases)
        /\ forall rest,
            StreamReleases_loop reqR currID (RecvEvent eR :: rest)
            = StreamReleases_loop reqR
                (fst (StreamReleases_event reqR currID eR)) rest)
  /\ (forall n,
        StreamDeployments_event reqD n eD = []
        /\ forall rest,
            StreamDeployments_loop reqD n (RecvEvent eD :: rest)
            = StreamDeployments_loop reqD (S n) rest).
Proof.
  intros HA HS HR HD.
  assert (HeA : StreamApps_event reqA eA = []).
  { unfold StreamApps_event. rewrite HA. by destruct (String.eqb _ _). }
  assert (HeS : forall l, prependScaleRequest eS l = (l, Some errS)).
  { intros l. unfold prependScaleRequest, unmarshalScaleRequest. by rewrite HS. }
  assert (HeR : fst (fst (maybeAcceptRelease reqR eR)) = None
                /\ snd (fst (maybeAcceptRelease reqR eR)) = false).
  { unfold maybeAcceptRelease, unmarshalRelease. rewrite HR.
    by destruct (_ && _). }
  assert (HeD : forall n, StreamDeployments_event reqD n eD = []).
  { intros n. unfold StreamDeployments_event. by rewrite HD. }
  repeat split.
  - exact HeA.
  - intros rest. cbn [StreamApps_loop]. rewrite HeA.
    by destruct (StreamApps_loop reqA rest).
  - cbn. unfold StreamScales_event.
    destruct (_ <=? _); cbn; [done|]. by rewrite HeS.
  - unfold StreamScales_listed. cbn. by rewrite HeS.
  - intros rest. cbn [StreamScales_loop StreamScales_tick fst].
    by destruct (StreamScales_loop _ rest).
  - unfold StreamReleases_event. destruct (_ <=? _); [done|].
    destruct HeR as [H1 H2].
    by destruct (maybeAcceptRelease reqR eR) as [[[r|] [|]] [err|]].
  - intros releases. unfold maybePrependRelease. destruct HeR as [H1 H2].
    by destruct (maybeAcceptRelease reqR eR) as [[[r|] [|]] [err|]].
  - intros rest. cbn [StreamReleases_loop].
    assert (Hout : snd (StreamReleases_event reqR currID eR) = []).
    { unfold StreamReleases_event. destruct (_ <=? _); [done|].
      destruct HeR as [H1 H2].
      by destruct (maybeAcceptRelease reqR eR) as [[[r|] [|]] [err|]]. }
    destruct (StreamReleases_event reqR currID eR) as [currID' out].
    cbn [fst snd] in *. subst out.
    by destruct (StreamReleases_loop reqR currID' rest).
  - apply HeD.
  - intros rest. cbn [StreamDeployments_loop].
    unfold StreamDeployments_panics. rewrite HD, HeD.
    by destruct (StreamDeployments_loop reqD (S n) rest).
Qed.

End Malformed.

Lemma malformed_event_skipped_witness :
  let C := Fixture.collaborators in
  let reqA := protobuf.mkStreamAppsRequest 2 "" [] [] true true in
  let reqR := protobuf.mkStreamReleasesRequest 2 "" [] [] true true in
  let reqD := protobuf.mkStreamDeploymentsRequest 0 "" [] [] true true in
  let eA := Fixture.event 11 ct.EventTypeApp "a1" "" in
  let eS := Fixture.scaleEvent 12 "garbage" in
  let eR := Fixture.releaseEvent 13 "garbage" in
  let eD := Fixture.event 14 ct.EventTypeDeployment "d1" "garbage" in
  let later := Fixture.event 15 ct.EventTypeApp "a3" "a3" in
  Unmarshal_App (ct.Event_Data eA) = inl (PlainError "json: unexpected end of input")
  /\ Unmarshal_ScaleRequest (ct.Event_Data eS) = inl (PlainError "json: cannot unmarshal")
  /\ Unmarshal_Release (ct.Event_Data eR) = inl (PlainError "json: cannot unmarshal")
  /\ Unmarshal_DeploymentEvent (ct.Event_Data eD)
     = inl (PlainError "json: cannot unmarshal")
  /\ StreamApps_loop reqA [RecvEvent eA; RecvEvent later; RecvClosed]
     = ([protobuf.mkStreamAppsResponse [Fixture.pbApp "a3"] "" false], Done tt)
  /\ scaleRequests (fst (StreamScales_tick (mkScalesState [] 5 false) (TickEvent eS)))
     = []
  /\ snd (StreamReleases_event reqR 9 eR) = []
  /\ StreamDeployments_event reqD 0 eD = [].
Proof.
  intros C reqA reqR reqD eA eS eR eD later.
  assert (HA : Unmarshal_App (ct.Event_Data eA)
               = inl (PlainError "json: unexpected end of input")) by reflexivity.
  assert (HS : Unmarshal_ScaleRequest (ct.Event_Data eS)
               = inl (PlainError "json: cannot unmarshal")) by reflexivity.
  assert (HR : Unmarshal_Release (ct.Event_Data eR)
               = inl (PlainError "json: cannot unmarshal")) by reflexivity.
  assert (HD : Unmarshal_DeploymentEvent (ct.Event_Data eD)
               = inl (PlainError "json: cannot unmarshal")) by reflexivity.
  destruct (malformed_event_skipped reqA reqR reqD eA eS eR eD _ _ _ _ HA HS HR HD)
    as ((_ & HloopA) & HscaleS & HrelR & HdepD).
  repeat (split; [assumption|]).
  split; [rewrite HloopA; vm_compute; reflexivity|].
  split; [apply (HscaleS (mkScalesState [] 5 false))|].
  split; [apply (HrelR 9)|apply (HdepD 0%nat)].
Defined.

(** C7, as stated, fails in StreamScales: the event with id 6 and a payload
    that does not decode restarts the debounce timer, so the run with it
    sends three responses and the same run without it sends two. *)
Lemma malformed_event_response_counterexample :
  Unmarshal_ScaleRequest (Collaborators := Fixture.collaborators)
    (ct.Event_Data (Fixture.scaleEvent 6 "garbage"))
  = inl (PlainError "json: cannot unmarshal")
  /\ length (fst (StreamScales (C := Fixture.collaborators)
                    (protobuf.mkStreamScalesRequest []) None
                    [TickTimer; TickEvent (Fixture.scaleEvent 6 "garbage");
                     TickTimer; TickClosed] None)) = 3%nat
  /\ length (fst (StreamScales (C := Fixture.collaborators)
                    (protobuf.mkStreamScalesRequest []) None
                    [TickTimer; TickTimer; TickClosed] None)) = 2%nat.
Proof. repeat split; vm_compute; reflexivity. Qed.

(** ** StreamFormations: the arguments of refreshFormation *)

Section Formations.
Context `{C : Collaborators}.

Lemma refreshCalls_sendResponse (formations : gmap string protobuf.Formation) :
  refreshCalls (formations_sendResponse formations) = [].
Proof.
  unfold formations_sendResponse. by destruct (_ <? _)%nat.
Qed.

(** The calls of the loop when every refresh that precedes a receive
    succeeds: one before the first receive and one more after each event
    received. *)
Lemma StreamFormations_loop_refreshCalls (events : list ct.Event)
    (tail : list Recv) (n : nat) (releaseIDs : gmap string string)
    (formations : gmap string protobuf.Formation) :
  (tail = []
   \/ (exists rest, tail = RecvClosed :: rest)
   \/ (forall fs, exists err,
         refreshFormation (n + length events) "" "" fs = inl err)) ->
  (forall (i : nat) (fs : gmap string protobuf.Formation),
      (i < length events)%nat ->
      exists fs', refreshFormation (n + i) "" "" fs = inr fs') ->
  refreshCalls
    (fst (StreamFormations_loop n releaseIDs formations
            (map RecvEvent events ++ tail)))
  = replicate (S (length events)) (CallRefreshFormation "" "").
Proof.
  revert n releaseIDs formations.
  induction events as [|event events IH]; intros n releaseIDs formations Htail Hok.
  - cbn [map app length replicate]. cbn [length] in Htail.
    rewrite Nat.add_0_r in Htail.
    destruct tail as [|r rest]; cbn [StreamFormations_loop];
      destruct (refreshFormation n "" "" formations) as [err|fs'] eqn:Hr;
      cbn [fst]; try done.
    + unfold refreshCalls. rewrite filter_cons. cbn.
      fold (refreshCalls (formations_sendResponse fs')).
      by rewrite refreshCalls_sendResponse.
    + destruct Htail as [?|[[rest' [= -> ->]]|Hfail]]; [done| |].
      * cbn [fst]. unfold refreshCalls. rewrite filter_cons. cbn.
        fold (refreshCalls (formations_sendResponse fs')).
        by rewrite refreshCalls_sendResponse.
      * destruct (Hfail formations) as [err Herr]. congruence.
  - cbn [map app length]. cbn [StreamFormations_loop].
    destruct (Hok 0%nat formations ltac:(cbn; lia)) as [fs' Hfs].
    rewrite Nat.add_0_r in Hfs. rewrite Hfs.
    match goal with
    | |- context [StreamFormations_loop (S n) ?rs fs' _] =>
        specialize (IH (S n) rs fs');
        destruct (StreamFormations_loop (S n) rs fs' (map RecvEvent events ++ tail))
          as [later r]
    end.
    cbn [fst app] in *. unfold refreshCalls in *. rewrite filter_cons. cbn.
    rewrite filter_app.
    fold (refreshCalls (formations_sendResponse fs')).
    rewrite refreshCalls_sendResponse. cbn [app].
    rewrite IH; [done| |].
    + cbn [length] in Htail.
      replace (S n + length events)%nat with (n + S (length events))%nat by lia.
      exact Htail.
    + intros i fs Hi. replace (S n + i)%nat with (n + S i)%nat by lia.
      apply Hok. cbn. lia.
Qed.

(** C8.  Every iteration of the goroutine of StreamFormations calls
    [refreshFormation], and always on two empty strings: [appID] and
    [releaseID] are declared anew in each iteration, so the ids taken from
    an event never reach the next call.  Whatever is received, the first
    effect is such a call and every call in the trace is on two empty
    strings.  And the calls are counted: when [events] are received, each
    after a refresh that succeeded, and then the channel is closed, or
    nothing more arrives, or the next refresh fails, the calls are exactly
    one more than the events received, one before the first receive and
    one after each event. *)
Theorem StreamFormations_refreshes_empty_ids (n : nat)
    (releaseIDs : gmap string string)
    (formations : gmap string protobuf.Formation) (received : list Recv) :
  fst (StreamFormations_loop n releaseIDs formations received) !! 0%nat
  = Some (CallRefreshFormation "" "")
  /\ Forall refreshedEmpty
       (fst (StreamFormations_loop n releaseIDs formations received))
  /\ forall (events : list ct.Event) (tail : list Recv),
      received = map RecvEvent events ++ tail ->
      (tail = []
       \/ (exists rest, tail = RecvClosed :: rest)
       \/ (forall fs, exists err,
             refreshFormation (n + length events) "" "" fs = inl err)) ->
      (forall (i : nat) (fs : gmap string protobuf.Formation),
          (i < length events)%nat ->
          exists fs', refreshFormation (n + i) "" "" fs = inr fs') ->
      refreshCalls (fst (StreamFormations_loop n releaseIDs formations received))
      = replicate (S (length events)) (CallRefreshFormation "" "").
Proof.
  apply and_assoc. split.
  2: { intros events tail -> Htail Hok.
       by apply StreamFormations_loop_refreshCalls. }
  revert n releaseIDs formations.
  induction received as [|r rest IH]; intros n releaseIDs formations;
    cbn [StreamFormations_loop];
    destruct (refreshFormation n "" "" formations) as [err|formations'];
    cbn [fst]; try (split; [done|]; repeat constructor; done).
  - split; [done|]. constructor; [done|].
    unfold formations_sendResponse. destruct (_ <? _)%nat; repeat constructor.
  - destruct r as [event|]; cbn [fst].
    + match goal with
      | |- context [StreamFormations_loop (S n) ?rs formations' rest] =>
          destruct (IH (S n) rs formations') as [_ Hall];
          destruct (StreamFormations_loop (S n) rs formations' rest)
            as [later r]
      end.
      cbn [fst] in *. split; [done|].
      constructor; [done|]. apply Forall_app. split; [|exact Hall].
      unfold formations_sendResponse. destruct (_ <? _)%nat; repeat constructor.
    + split; [done|]. constructor; [done|].
      unfold formations_sendResponse. destruct (_ <? _)%nat; repeat constructor.
Qed.

End Formations.

Lemma StreamFormations_refreshes_empty_ids_witness :
  let C := Fixture2.collaborators in
  let e1 := Fixture.event 50 ct.EventTypeAppRelease "r2" "" in
  let e2 := Fixture.event 51 ct.EventTypeApp "app1" "app1" in
  let received := [RecvEvent e1; RecvEvent e2; RecvClosed] in
  let resp :=
    protobuf.mkStreamFormationsResponse
      [protobuf.mkFormation "apps//releases/" protobuf.SCALE_COMPLETE
         "apps//releases//scale/sr1" ∅ ∅] in
  StreamFormations_loop 0 {[ "app1" := "r1" ]} ∅ received
  = ([CallRefreshFormation "" ""; SendFormations resp;
      CallRefreshFormation "" ""; SendFormations resp;
      CallRefreshFormation "" ""; SendFormations resp], Done None)
  /\ refreshCalls (fst (StreamFormations_loop 0 {[ "app1" := "r1" ]} ∅ received))
     = replicate 3 (CallRefreshFormation "" "").
Proof.
  intros C e1 e2 received resp.
  split; [vm_compute; reflexivity|].
  apply (proj2 (proj2 (StreamFormations_refreshes_empty_ids
                         0 {[ "app1" := "r1" ]} ∅ received))
           [e1; e2] [RecvClosed]).
  - reflexivity.
  - right. left. by exists [].
  - intros i fs _. eexists. reflexivity.
Defined.

(** ** CreateDeployment: the internal scale *)

Section Deployment.
Context `{C : Collaborators}.

Lemma CreateDeployment_loop_scale
    (scale scale' : protobuf.CreateScaleRequest -> Run ScaleResult)
    (req : protobuf.CreateDeploymentRequest) (n : nat) (received : list Recv) :
  (forall r, returns (scale r)) -> (forall r, returns (scale' r)) ->
  CreateDeployment_loop scale req n received
  = CreateDeployment_loop scale' req n received.
Proof.
  intros Hs Hs'. revert n.
  induction received as [|r rest IH]; intros n; [done|].
  destruct r as [ctEvent|]; [|done]. cbn [CreateDeployment_loop].
  destruct (negb _); [apply IH|].
  destruct (Unmarshal_DeploymentEvent _) as [err|de]; [apply IH|].
  destruct (deploymentRepo_Get n _) as [err|d]; [apply IH|].
  rewrite (IH (S n)).
  destruct (protobuf.CreateDeploymentRequest_ScaleRequest req) as [sr|]; [|done].
  destruct (String.eqb (ct.Deployment_Status d) "complete"); [|done].
  match goal with
  | |- context [scale ?r] =>
      destruct (Hs r) as [a ->]; destruct (Hs' r) as [a' ->]
  end.
  done.
Qed.

(** C10.  For a deployment event whose record the store reports
    complete, and a request that carries a scale request, the loop calls
    [createScale] for the new release, then sends the deployment event,
    then leaves; and however the call ends, provided it returns, the
    whole of CreateDeployment does and returns the same. *)
Theorem CreateDeployment_scale_discarded
    (scale scale' : protobuf.CreateScaleRequest -> Run ScaleResult)
    (req : protobuf.CreateDeploymentRequest) (n : nat)
    (ctEvent : ct.Event) (rest : list Recv)
    (de : ct.DeploymentEvent) (d : ct.Deployment)
    (sr : protobuf.CreateScaleRequest) :
  (forall r, returns (scale r)) ->
  (forall r, returns (scale' r)) ->
  ct.Event_ObjectType ctEvent = "deployment" ->
  Unmarshal_DeploymentEvent (ct.Event_Data ctEvent) = inr (Some de) ->
  deploymentRepo_Get n (ct.Event_ObjectID ctEvent) = inr d ->
  ct.Deployment_Status d = "complete" ->
  protobuf.CreateDeploymentRequest_ScaleRequest req = Some sr ->
  CreateDeployment_loop scale req n (RecvEvent ctEvent :: rest)
  = ([CallCreateScale
        (protobuf.mkCreateScaleRequest
           ("apps/" +:+ ct.Deployment_AppID d +:+
            "/releases/" +:+ ct.Deployment_NewReleaseID d)
           (protobuf.CreateScaleRequest_Processes sr)
           (protobuf.CreateScaleRequest_Tags sr));
      SendEvent
        (protobuf.mkDeploymentEvent (ConvertDeployment d)
           (ct.DeploymentEvent_JobType de)
           (ConvertDeploymentEventJobState (ct.DeploymentEvent_JobState de))
           (ct.DeploymentEvent_Error de)
           (TimestampProto (ct.Event_CreatedAt ctEvent)))],
     Done BreakOuter)
  /\ forall subscribeErr received sub_Err,
      CreateDeployment scale req subscribeErr received sub_Err
      = CreateDeployment scale' req subscribeErr received sub_Err.
Proof.
  intros Hs Hs' Htype Hde Hd Hstatus Hsr. split.
  - cbn [CreateDeployment_loop]. rewrite Htype, Hde, Hd, Hstatus, Hsr.
    cbn [String.eqb Ascii.eqb Bool.eqb negb].
    match goal with |- context [scale ?r] => destruct (Hs r) as [a ->] end.
    reflexivity.
  - intros subscribeErr received sub_Err. unfold CreateDeployment.
    by rewrite (CreateDeployment_loop_scale scale scale').
Qed.

End Deployment.

Lemma CreateDeployment_scale_discarded_witness :
  let C := Fixture.collaborators in
  let failing := fun r => createScale r None [SelectTimeout] None in
  let succeeding :=
    fun r => createScale r None [SelectEvent (Fixture.scaleEvent 23 "sr1:complete")] None in
  let sr := protobuf.mkCreateScaleRequest "" {[ "web" := 2 ]} ∅ in
  let req := protobuf.mkCreateDeploymentRequest "apps/app1" "apps/app1/releases/r2" (Some sr) in
  let running := Fixture.event 21 "deployment" "d1" "running:up" in
  let complete := Fixture.event 22 "deployment" "d1" "complete:up" in
  CreateDeployment_loop failing req 1 [RecvEvent complete; RecvClosed]
  = ([CallCreateScale
        (protobuf.mkCreateScaleRequest "apps/app1/releases/r2" {[ "web" := 2 ]} ∅);
      SendEvent
        (protobuf.mkDeploymentEvent
           (protobuf.mkDeployment "apps/app1/deployments/d1" "complete")
           "web" "up" "" 0)],
     Done BreakOuter)
  /\ CreateDeployment failing req None [RecvEvent running; RecvEvent complete] None
     = CreateDeployment succeeding req None [RecvEvent running; RecvEvent complete] None.
Proof.
  intros C failing succeeding sr req running complete.
  assert (Hf : forall r, returns (failing r)) by (intros r; eexists; reflexivity).
  assert (Hs : forall r, returns (succeeding r)) by (intros r; eexists; reflexivity).
  pose (de := ct.mkDeploymentEvent "complete" "web" "up" "").
  pose (d := ct.mkDeployment "d1" "app1" "r1" "r2" "complete").
  assert (Hde : Unmarshal_DeploymentEvent (ct.Event_Data complete) = inr (Some de))
    by (vm_compute; reflexivity).
  assert (Hd : deploymentRepo_Get 1 (ct.Event_ObjectID complete) = inr d)
    by (vm_compute; reflexivity).
  destruct (CreateDeployment_scale_discarded failing succeeding req 1 complete
              [RecvClosed] de d sr Hf Hs eq_refl Hde Hd eq_refl eq_refl)
    as [Hloop Hsame].
  split; [exact Hloop|apply Hsame].
Defined.

(** ** createScale *)

Section Scale.
Context `{C : Collaborators}.

(** Events the loop passes over do not change where it ends. *)
Lemma createScale_loop_app (scaleReq : ct.ScaleRequest)
    (skipped rest : list Select) :
  createScale_loop scaleReq skipped = Blocked ->
  createScale_loop scaleReq (skipped ++ rest) = createScale_loop scaleReq rest.
Proof.
  induction skipped as [|sel skipped IH]; [done|].
  destruct sel as [event| |]; cbn [createScale_loop app]; [|done|done].
  destruct (String.eqb _ _); [|exact IH].
  destruct (Unmarshal_ScaleRequest _) as [err|req]; [exact IH|].
  destruct (negb _); [exact IH|].
  by destruct (ct.ScaleRequest_State req).
Qed.

(** An error the loop returns is one of the two plain errors. *)
Lemma createScale_loop_Return (scaleReq : ct.ScaleRequest)
    (selected : list Select) (err : error) :
  createScale_loop scaleReq selected = Done (Return err) ->
  err = PlainError "scale request cancelled" \/ err = timeoutError.
Proof.
  induction selected as [|sel selected IH]; [done|].
  destruct sel as [event| |]; cbn [createScale_loop];
    [|done|intros [= <-]; by right].
  destruct (String.eqb _ _); [|exact IH].
  destruct (Unmarshal_ScaleRequest _) as [e|req]; [exact IH|].
  destruct (negb _); [exact IH|].
  destruct (ct.ScaleRequest_State req); [exact IH| |done].
  intros [= <-]. by left.
Qed.

(** C3, as amended.  When the first event that createScale does not pass
    over is a scale-request event that decodes to a request with the id
    of the inserted one and state complete, and the error cell is nil,
    createScale returns the request it inserted, with the id the store
    assigned; its state is the one it was inserted with, pending. *)
Theorem createScale_returns_inserted_request
    (req : protobuf.CreateScaleRequest) (id : string)
    (skipped rest : list Select) (event : ct.Event) (ctReq : ct.ScaleRequest) :
  formationRepo_AddScaleRequest (newScaleReq req) = inr id ->
  createScale_loop (withID (newScaleReq req) id) skipped = Blocked ->
  ct.Event_ObjectType event = ct.EventTypeScaleRequest ->
  Unmarshal_ScaleRequest (ct.Event_Data event) = inr ctReq ->
  ct.ScaleRequest_ID ctReq = id ->
  ct.ScaleRequest_State ctReq = ct.ScaleRequestStateComplete ->
  createScale req None (skipped ++ SelectEvent event :: rest) None
  = Done (Some (utils.ConvertScaleRequest (withID (newScaleReq req) id)), None)
  /\ ct.ScaleRequest_ID (withID (newScaleReq req) id) = id
  /\ ct.ScaleRequest_State (withID (newScaleReq req) id)
     = ct.ScaleRequestStatePending
  /\ protobuf.ScaleRequest_State
       (utils.ConvertScaleRequest (withID (newScaleReq req) id))
     = protobuf.SCALE_PENDING.
Proof.
  intros Hadd Hskip Htype Hdec Hid Hstate. split; [|done].
  unfold createScale. rewrite Hadd, (createScale_loop_app _ _ _ Hskip).
  cbn [createScale_loop]. rewrite Htype, Hdec, Hid, Hstate.
  cbn [withID ct.ScaleRequest_ID]. rewrite (String.eqb_refl id).
  reflexivity.
Qed.

(** C4, on the code.  Whenever the loop of createScale ends by returning
    an error (the matching request was cancelled, or the timeout fired),
    createScale returns that error as it is: a plain error with one of
    the two messages, which carries no status code. *)
Theorem createScale_errors_are_plain
    (req : protobuf.CreateScaleRequest) (id : string)
    (selected : list Select) (sub_Err : option error) (err : error) :
  formationRepo_AddScaleRequest (newScaleReq req) = inr id ->
  createScale_loop (withID (newScaleReq req) id) selected = Done (Return err) ->
  createScale req None selected sub_Err = Done (None, Some err)
  /\ (err = PlainError "scale request cancelled" \/ err = timeoutError)
  /\ error_code err = None.
Proof.
  intros Hadd Hloop. split; [|split].
  - unfold createScale. by rewrite Hadd, Hloop.
  - by eapply createScale_loop_Return.
  - by destruct (createScale_loop_Return _ _ _ Hloop) as [-> | ->].
Qed.

End Scale.

Lemma createScale_returns_inserted_request_witness :
  let C := Fixture.collaborators in
  let req :=
    protobuf.mkCreateScaleRequest "apps/app1/releases/r1" {[ "web" := 3 ]} ∅ in
  let other := Fixture.scaleEvent 30 "sr0:complete" in
  let pending := Fixture.scaleEvent 31 "sr1:pending" in
  let complete := Fixture.scaleEvent 32 "sr1:complete" in
  createScale req None [SelectEvent other; SelectEvent pending; SelectEvent complete]
    None
  = Done (Some (protobuf.mkScaleRequest "apps/app1/releases/r1"
                  "apps/app1/releases/r1/scale/sr1" protobuf.SCALE_PENDING
                  {[ "web" := 3 ]} ∅),
          None).
Proof.
  intros C req other pending complete.
  assert (Hskip : createScale_loop (withID (newScaleReq req) "sr1")
                    [SelectEvent other; SelectEvent pending] = Blocked)
    by (vm_compute; reflexivity).
  assert (Hdec : Unmarshal_ScaleRequest (ct.Event_Data complete)
                 = inr (Fixture.scaleRequest "sr1" ct.ScaleRequestStateComplete))
    by (vm_compute; reflexivity).
  assert (Hadd : formationRepo_AddScaleRequest (newScaleReq req) = inr "sr1")
    by (vm_compute; reflexivity).
  destruct (createScale_returns_inserted_request req "sr1"
              [SelectEvent other; SelectEvent pending] [] complete _
              Hadd Hskip eq_refl Hdec eq_refl eq_refl) as [Hret _].
  etrans; [exact Hret|]. vm_compute; reflexivity.
Defined.

(** C3, as stated, fails: the worker publishes complete for the inserted
    request [sr1], and the request createScale returns is in state
    pending, not complete. *)
Lemma createScale_state_counterexample :
  Unmarshal_ScaleRequest (Collaborators := Fixture.collaborators)
    (ct.Event_Data (Fixture.scaleEvent 32 "sr1:complete"))
  = inr (Fixture.scaleRequest "sr1" ct.ScaleRequestStateComplete)
  /\ createScale (C := Fixture.collaborators)
       (protobuf.mkCreateScaleRequest "apps/app1/releases/r1" {[ "web" := 3 ]} ∅)
       None [SelectEvent (Fixture.scaleEvent 32 "sr1:complete")] None
     = Done (Some (protobuf.mkScaleRequest "apps/app1/releases/r1"
                     "apps/app1/releases/r1/scale/sr1" protobuf.SCALE_PENDING
                     {[ "web" := 3 ]} ∅),
             None)
  /\ protobuf.SCALE_PENDING <> protobuf.SCALE_COMPLETE.
Proof. repeat split; [vm_compute; reflexivity..|discriminate]. Qed.

Lemma createScale_errors_are_plain_witness :
  let C := Fixture.collaborators in
  let req :=
    protobuf.mkCreateScaleRequest "apps/app1/releases/r1" {[ "web" := 3 ]} ∅ in
  let cancelled := Fixture.scaleEvent 33 "sr1:cancelled" in
  (createScale req None [SelectEvent cancelled] None
   = Done (None, Some (PlainError "scale request cancelled"))
   /\ error_code (PlainError "scale request cancelled") <> Some FailedPrecondition)
  /\ (createScale req None [SelectTimeout] None
      = Done (None,
              Some (PlainError
                      "timed out waiting for scale to complete (waited 30 seconds)"))
      /\ error_code
           (PlainError "timed out waiting for scale to complete (waited 30 seconds)")
         <> Some DeadlineExceeded).
Proof.
  intros C req cancelled.
  assert (Hc : createScale_loop (withID (newScaleReq req) "sr1")
                 [SelectEvent cancelled]
               = Done (Return (PlainError "scale request cancelled")))
    by (vm_compute; reflexivity).
  assert (Ht : createScale_loop (withID (newScaleReq req) "sr1") [SelectTimeout]
               = Done (Return (PlainError
                   "timed out waiting for scale to complete (waited 30 seconds)")))
    by (vm_compute; reflexivity).
  assert (Hadd : formationRepo_AddScaleRequest (newScaleReq req) = inr "sr1")
    by (vm_compute; reflexivity).
  destruct (createScale_errors_are_plain req "sr1" _ None _ Hadd Hc)
    as (Hrc & _ & Hcc).
  destruct (createScale_errors_are_plain req "sr1" _ None _ Hadd Ht)
    as (Hrt & _ & Hct).
  split; (split; [assumption|]).
  - rewrite Hcc. discriminate.
  - rewrite Hct. discriminate.
Defined.

(** ** The subscription fabric: closing *)

Section FabricClaims.
Import Fabric.

Lemma Close_Events (e : EventListener) : Events (Close e) = Events e.
Proof. unfold Close. by destruct (fold_left _ _ _). Qed.

Lemma Close_subs (e : EventListener) :
  subs (Close e) = map EventSubscriber_Close (subs e).
Proof. unfold Close. by destruct (fold_left _ _ _). Qed.

(** No action of the program touches the merged channel's closed flag:
    [close] is only ever applied to the subscribers' channels. *)
Lemma step_Events (a : Action) (e : EventListener) :
  closed (Events (step a e)) = closed (Events e).
Proof.
  destruct a as [i ev|i err|i|i|]; cbn [step].
  - destruct (subs e !! i) as [sub|]; [|done].
    by destruct (closed (sub_Events sub)).
  - by destruct (subs e !! i).
  - destruct (subs e !! i) as [sub|], (forwarders e !! i) as [f|]; try done.
    by destruct (forward sub f).
  - destruct (forwarders e !! i) as [[| |]|]; try done.
    by destruct (closed (Events e)) eqn:Hc; cbn; rewrite ?Hc.
  - by rewrite Close_Events.
Qed.

Lemma run_Events (acts : list Action) (e : EventListener) :
  closed (Events (run acts e)) = closed (Events e).
Proof.
  revert e. induction acts as [|a acts IH]; intros e; [done|].
  cbn [run fold_left]. fold (run acts (step a e)).
  by rewrite IH, step_Events.
Qed.

(** C2, on the code.  After any schedule [acts] that ends with the
    handler calling Close, every subscriber's channel is closed; but in
    no later state, whatever the schedule [acts'], is the merged channel
    closed, and a handler receiving on it never observes its closure. *)
Theorem merged_channel_never_closed
    (appIDs : list string) (acts acts' : list Action) :
  Forall (fun sub => closed (sub_Events sub) = true)
         (subs (run (acts ++ [DoClose]) (subscribeEvents appIDs)))
  /\ closed (Events (run acts' (run (acts ++ [DoClose]) (subscribeEvents appIDs))))
     = false
  /\ observe (run acts' (run (acts ++ [DoClose]) (subscribeEvents appIDs)))
     <> ObservedClosed.
Proof.
  assert (Hopen : forall l,
             closed (Events (run l (subscribeEvents appIDs))) = false).
  { intros l. by rewrite run_Events. }
  split; [|split].
  - unfold run. rewrite fold_left_app. cbn [fold_left step].
    rewrite Close_subs. apply Forall_forall. intros sub Hin.
    apply list_elem_of_fmap in Hin as (sub' & -> & _). reflexivity.
  - by rewrite run_Events, Hopen.
  - unfold observe. rewrite run_Events, Hopen.
    by destruct (firstSend _).
Qed.

(** The run behind C2: one app, the handler closes the subscription, the
    forwarder sees its source closed and returns; the merged channel is
    still open and the handler's receive blocks. *)
Example close_then_forward :
  let e := run [DoClose; Forward 0] (subscribeEvents ["app1"]) in
  forwarders e = [Returned]
  /\ closed (Events e) = false
  /\ observe e = ObservedNothing.
Proof. repeat split. Qed.

(** A forwarder that holds an event when the handler stops receiving
    stays at its send, also after Close. *)
Example close_with_pending_send :
  let ev := Fixture.scaleEvent 40 "sr1:pending" in
  let e := run [Publish 0 ev; Forward 0; DoClose; Forward 0]
             (subscribeEvents ["app1"]) in
  forwarders e = [AtSend ev].
Proof. reflexivity. Qed.

End FabricClaims.

(** ** UpdateApp: the map handed to the store *)

(** The loop over the paths of the mask copies the entries of [data] whose
    key is a path, with [labels] read as [meta]. *)
Lemma UpdateApp_maskPath_fold (data maskedData : gmap string UpdateValue)
    (paths : list string) (k : string) :
  fold_left (UpdateApp_maskPath data) paths maskedData !! k
  = if decide (k ∈ map (fun path => if String.eqb path "labels" then "meta" else path)
                       paths)
    then match data !! k with Some v => Some v | None => maskedData !! k end
    else maskedData !! k.
Proof.
  revert maskedData. induction paths as [|path paths IH]; intros maskedData.
  - cbn. case_decide as Hin; [by apply elem_of_nil in Hin|done].
  - cbn [fold_left map]. rewrite IH. unfold UpdateApp_maskPath.
    set (key := if String.eqb path "labels" then "meta" else path).
    destruct (decide (k = key)) as [->|Hne].
    + rewrite (decide_True (P := key ∈ key :: _)) by left.
      destruct (data !! key) as [v|] eqn:Hv.
      * rewrite lookup_insert_eq. by case_decide.
      * by case_decide.
    + assert (Hm : (match data !! key with
                    | Some v => <[key:=v]> maskedData
                    | None => maskedData
                    end) !! k = maskedData !! k).
      { destruct (data !! key); [by rewrite lookup_insert_ne|done]. }
      rewrite Hm. repeat case_decide; try done.
      * exfalso. match goal with H : ¬ _ |- _ => apply H end. by right.
      * exfalso. match goal with H : k ∈ key :: _ |- _ =>
          apply elem_of_cons in H as [?|?] end; done.
Qed.

(** The masked map, key by key. *)
Lemma UpdateApp_masked_lookup (data : gmap string UpdateValue)
    (paths : list string) (k : string) :
  paths <> [] ->
  UpdateApp_masked data (Some paths) !! k
  = if decide (k ∈ map (fun path => if String.eqb path "labels" then "meta" else path)
                       paths)
    then data !! k else None.
Proof.
  intros Hne. unfold UpdateApp_masked. destruct paths as [|p ps]; [done|].
  cbn [length Nat.ltb Nat.leb]. rewrite UpdateApp_maskPath_fold, lookup_empty.
  case_decide; [|done]. by destruct (data !! k).
Qed.

(** X1.  With a mask that names at least one path, the map UpdateApp hands
    to the store is a part of the unmasked map: it holds exactly the
    entries of the unmasked map whose key is one of the paths, the path
    [labels] standing for the key [meta]. *)
Theorem UpdateApp_mask_selects (data : gmap string UpdateValue)
    (paths : list string) (k : string) :
  paths <> [] ->
  UpdateApp_masked data (Some paths) ⊆ data
  /\ (is_Some (UpdateApp_masked data (Some paths) !! k)
      <-> is_Some (data !! k)
          /\ exists path, path ∈ paths
                          /\ k = if String.eqb path "labels" then "meta" else path).
Proof.
  intros Hne.
  assert (Hlook := fun k' => UpdateApp_masked_lookup data paths k' Hne).
  split.
  - apply map_subseteq_spec. intros k' v. rewrite Hlook. by case_decide.
  - rewrite Hlook. case_decide as Hin.
    + split; [|by intros [? _]]. intros Hk. split; [done|].
      apply list_elem_of_fmap in Hin as (path & -> & Hpath). by exists path.
    + split; [by intros [? ?]|]. intros [_ (path & Hpath & ->)].
      exfalso. apply Hin. apply list_elem_of_fmap. by exists path.
Qed.

Lemma UpdateApp_mask_selects_witness :
  let data := UpdateApp_data (Fixture.pbApp "a1") "one-by-one" 30 in
  UpdateApp_masked data (Some ["labels"; "unknown"]) ⊆ data
  /\ (is_Some (UpdateApp_masked data (Some ["labels"; "unknown"]) !! "meta")
      <-> is_Some (data !! "meta")
          /\ exists path, path ∈ ["labels"; "unknown"]
                          /\ "meta" = if String.eqb path "labels" then "meta" else path).
Proof.
  intros data.
  apply (UpdateApp_mask_selects data ["labels"; "unknown"] "meta").
  discriminate.
Defined.

(** X2.  Whatever the mask, the map UpdateApp hands to the store has no
    other keys than [meta], [strategy] and [deploy_timeout]; [meta] is
    bound to the labels of the request, [strategy] to its non-empty
    strategy and [deploy_timeout] to its positive timeout.  So the
    strategy cannot be cleared and the timeout cannot be set to zero. *)
Theorem UpdateApp_data_entries (app : protobuf.App) (strategy : string)
    (deployTimeout : Z) (mask : option (list string)) (k : string)
    (v : UpdateValue) :
  UpdateApp_masked (UpdateApp_data app strategy deployTimeout) mask !! k = Some v ->
  (k = "meta" /\ v = VLabels (protobuf.App_Labels app))
  \/ (k = "strategy" /\ v = VString strategy /\ strategy <> "")
  \/ (k = "deploy_timeout" /\ v = VInt32 deployTimeout /\ 0 < deployTimeout).
Proof.
  intros Hk.
  assert (Hdata : UpdateApp_data app strategy deployTimeout !! k = Some v).
  { destruct mask as [paths|]; [|done].
    destruct paths as [|p ps]; [done|].
    rewrite UpdateApp_masked_lookup in Hk by done. by case_decide. }
  clear Hk. unfold UpdateApp_data in Hdata.
  destruct (String.eqb_spec strategy "") as [Hs|Hs];
    destruct (Z.ltb_spec 0 deployTimeout) as [Ht|Ht]; cbn [negb] in Hdata;
    repeat match type of Hdata with
    | <[ ?j := _ ]> _ !! k = Some _ =>
        destruct (decide (j = k)) as [<-|?];
        [rewrite lookup_insert_eq in Hdata; injection Hdata as <-; by auto
        |rewrite lookup_insert_ne in Hdata by done]
    end;
    apply lookup_singleton_Some in Hdata as [<- <-]; by left.
Qed.

Lemma UpdateApp_data_entries_witness :
  let app := Fixture.pbApp "a1" in
  UpdateApp_masked (UpdateApp_data app "" 30) (Some ["deploy_timeout"; "strategy"])
    !! "deploy_timeout" = Some (VInt32 30)
  /\ (("deploy_timeout" = "meta" /\ VInt32 30 = VLabels (protobuf.App_Labels app))
      \/ ("deploy_timeout" = "strategy" /\ VInt32 30 = VString "" /\ "" <> "")
      \/ ("deploy_timeout" = "deploy_timeout" /\ VInt32 30 = VInt32 30 /\ 0 < 30)).
Proof.
  intros app.
  assert (H : UpdateApp_masked (UpdateApp_data app "" 30)
                (Some ["deploy_timeout"; "strategy"]) !! "deploy_timeout"
              = Some (VInt32 30)) by (vm_compute; reflexivity).
  split; [exact H|].
  exact (UpdateApp_data_entries app "" 30 _ _ _ H).
Defined.

(** ** listApps: the page of one call *)

Section ListAppsPage.
Context `{C : Collaborators}.

(** The loop collects the selected apps, converted, in order, until the
    page is full. *)
Lemma collectApps_take (appIDs : option (list string))
    (labelFilters : list protobuf.LabelFilter) (pageSize : Z)
    (ctApps : list ct.App) (apps : list protobuf.App) (n : Z) :
  0 <= n < pageSize ->
  let sel := fun a =>
    negb (match appIDs with Some ids => negb (appFound ids a) | None => false end)
    && MatchLabelFilters (ct.App_Meta a) labelFilters in
  let more :=
    take (Z.to_nat (pageSize - n))
         (map ConvertApp (filter (fun a => sel a = true) ctApps)) in
  collectApps appIDs labelFilters pageSize ctApps apps n
  = (apps ++ more, n + Z.of_nat (length more)).
Proof.
  intros Hn sel. revert apps n Hn.
  induction ctApps as [|a rest IH]; intros apps n Hn more.
  - subst more. rewrite filter_nil. cbn. rewrite take_nil, app_nil_r. cbn.
    f_equal. lia.
  - subst more. cbn [collectApps]. rewrite filter_cons.
    destruct (match appIDs with Some ids => negb (appFound ids a) | None => false end)
      eqn:Hskip.
    { rewrite decide_False by (unfold sel; by rewrite Hskip). by apply IH. }
    destruct (MatchLabelFilters (ct.App_Meta a) labelFilters) eqn:Hlab; cbn [negb].
    2: { rewrite decide_False by (unfold sel; by rewrite Hskip, Hlab). by apply IH. }
    rewrite decide_True by (unfold sel; by rewrite Hskip, Hlab). cbn [map].
    replace (Z.to_nat (pageSize - n)) with (S (Z.to_nat (pageSize - (n + 1))))
      by lia.
    cbn [take length]. destruct (Z.eqb_spec (n + 1) pageSize) as [Heq|Hneq].
    + replace (Z.to_nat (pageSize - (n + 1))) with 0%nat by lia.
      rewrite take_0. cbn [length]. f_equal.
    + rewrite IH by lia. cbn zeta. rewrite <- app_assoc. cbn [app].
      f_equal. lia.
Qed.

(** X3.  The page a call of listApps has built before it looks at the
    next page token consists of the first [pageSize] of the apps of the
    store's page that the name filters and the label filters select,
    converted, in the store's order; [n] is their number. *)
Theorem listApps_page_selected (req : protobuf.StreamAppsRequest) (p : Page) :
  listApps_page req = Done (inr p) ->
  exists (pageToken : data.PageToken) (ctApps : list ct.App),
    appRepo_ListPage pageToken = inr (ctApps, page_nextPageToken p)
    /\ page_apps p
       = take (Z.to_nat (page_pageSize p))
              (map ConvertApp (filter (fun a => appSelected req a = true) ctApps))
    /\ page_n p = Z.of_nat (length (page_apps p))
    /\ page_n p <= page_pageSize p.
Proof.
  unfold listApps_page.
  destruct (ParsePageToken _) as [err|pageToken]; [done|].
  set (pageToken' := if 0 <? _ then _ else pageToken).
  destruct (appRepo_ListPage pageToken') as [err|[ctApps npt]] eqn:Hlist; [done|].
  set (ps := if (if 0 <? _ then _ else _) =? 0 then _ else _).
  unfold makeslice_panics.
  destruct (Z.ltb_spec ps 0) as [Hneg|Hpos]; [done|].
  destruct (maxAlloc <? 8 * ps); [done|]. cbn [orb].
  set (appIDs := if (length _ =? 0)%nat then None else Some _).
  assert (Hsel : forall a,
             negb (match appIDs with
                   | Some ids => negb (appFound ids a)
                   | None => false
                   end)
             && MatchLabelFilters (ct.App_Meta a)
                  (protobuf.StreamAppsRequest_LabelFilters req)
             = appSelected req a).
  { intros a. unfold appSelected, appIDs.
    destruct (length _ =? 0)%nat; cbn; [done|]. by rewrite negb_involutive. }
  destruct (Z.eq_dec ps 0) as [H0|H0].
  - assert (HctApps : ctApps = []).
    { subst ps. destruct (Z.eqb_spec (if 0 <? protobuf.StreamAppsRequest_PageSize req
                                       then protobuf.StreamAppsRequest_PageSize req
                                       else data.Size pageToken) 0) as [E|E];
        [|done].
      destruct ctApps; [done|]. cbn [length] in H0. lia. }
    subst ctApps. rewrite H0. cbn. intros [= <-]. cbn.
    exists pageToken', []. by rewrite filter_nil.
  - pose proof (collectApps_take appIDs (protobuf.StreamAppsRequest_LabelFilters req)
                  ps ctApps [] 0 ltac:(lia)) as Hc.
    cbn zeta in Hc. rewrite Hc. clear Hc. intros [= <-]. cbn [page_apps page_n
      page_pageSize page_nextPageToken].
    exists pageToken', ctApps. rewrite Z.sub_0_r. cbn [app].
    rewrite (list_filter_iff _ (fun a => appSelected req a = true))
      by (intros a; by rewrite Hsel).
    repeat split; try done. rewrite length_take, length_map. lia.
Qed.

(** X4.  A unary request (neither creates nor updates are streamed) is
    answered by StreamApps and by StreamDeployments without a
    subscription: what they send and return does not depend on whether a
    subscription could be opened nor on any event.  StreamReleases opens
    its subscription before it lists, also for a unary request, and
    returns the error of a subscription that fails without sending a
    page. *)
Theorem unary_requests_and_the_subscription (fuel : nat)
    (reqA : protobuf.StreamAppsRequest) (reqD : protobuf.StreamDeploymentsRequest)
    (reqR : protobuf.StreamReleasesRequest) (pageToken : data.PageToken)
    (subscribeErr sub_Err : option error) (received : list Recv) (err : error) :
  protobuf.StreamAppsRequest_StreamUpdates reqA = false ->
  protobuf.StreamAppsRequest_StreamCreates reqA = false ->
  protobuf.StreamDeploymentsRequest_StreamUpdates reqD = false ->
  protobuf.StreamDeploymentsRequest_StreamCreates reqD = false ->
  ParsePageToken (protobuf.StreamReleasesRequest_PageToken reqR) = inr pageToken ->
  StreamApps fuel reqA subscribeErr received sub_Err = StreamApps fuel reqA None [] None
  /\ (length (fst (StreamApps fuel reqA subscribeErr received sub_Err)) <= 1)%nat
  /\ StreamDeployments reqD subscribeErr received sub_Err
     = StreamDeployments reqD None [] None
  /\ (length (fst (StreamDeployments reqD subscribeErr received sub_Err)) <= 1)%nat
  /\ StreamReleases reqR (Some err) received sub_Err = ([], Done (Some err)).
Proof.
  intros HAu HAc HDu HDc Htok.
  unfold StreamApps, StreamDeployments, StreamReleases.
  rewrite HAu, HAc, HDu, HDc, Htok. cbn [orb negb].
  repeat split.
  - destruct (listApps fuel reqA) as [[[apps npt] [e|]]| |]; cbn; lia.
  - destruct (listDeployments reqD); cbn; lia.
Qed.

(** X5.  Every response StreamApps sends in its live tail carries one
    app: the conversion of the decoded payload of a received event of
    type [app], whose operation is one the request asked to stream and
    whose labels match the label filters.  Events of the types
    [app_deletion] and [app_release] never cause a response. *)
Theorem StreamApps_live_responses (req : protobuf.StreamAppsRequest)
    (received : list Recv) (resp : protobuf.StreamAppsResponse) :
  resp ∈ fst (StreamApps_loop req received) ->
  exists (event : ct.Event) (ctApp : ct.App),
    RecvEvent event ∈ received
    /\ ct.Event_ObjectType event = ct.EventTypeApp
    /\ Unmarshal_App (ct.Event_Data event) = inr ctApp
    /\ resp = protobuf.mkStreamAppsResponse [ConvertApp ctApp] "" false
    /\ MatchLabelFilters (protobuf.App_Labels (ConvertApp ctApp))
         (protobuf.StreamAppsRequest_LabelFilters req) = true
    /\ ((protobuf.StreamAppsRequest_StreamCreates req = true
         /\ ct.Event_Op event = ct.EventOpCreate)
        \/ (protobuf.StreamAppsRequest_StreamUpdates req = true
            /\ ct.Event_Op event = ct.EventOpUpdate)).
Proof.
  induction received as [|r rest IH]; [by intros ?%elem_of_nil|].
  destruct r as [event|]; cbn [StreamApps_loop]; [|by intros ?%elem_of_nil].
  destruct (StreamApps_loop req rest) as [sent r]. cbn [fst] in *.
  intros [Hin|Hin]%elem_of_app.
  - clear IH. unfold StreamApps_event in Hin.
    destruct (String.eqb_spec (ct.Event_ObjectType event) ct.EventTypeApp)
      as [Htype|_]; [|by apply elem_of_nil in Hin].
    destruct (Unmarshal_App (ct.Event_Data event)) as [e|ctApp] eqn:Hdec;
      [by apply elem_of_nil in Hin|].
    destruct (MatchLabelFilters _ _) eqn:Hlab; cbn [negb] in Hin;
      [|by apply elem_of_nil in Hin].
    destruct (_ || _) eqn:Hop; [|by apply elem_of_nil in Hin].
    apply list_elem_of_singleton in Hin as ->.
    exists event, ctApp. repeat split; try done; [left|].
    apply orb_true_iff in Hop as [[H1 H2%String.eqb_eq]%andb_true_iff
                                 |[H1 H2%String.eqb_eq]%andb_true_iff]; auto.
  - destruct (IH Hin) as (ev & ctApp & Hev & H). exists ev, ctApp.
    split; [by right|exact H].
Qed.

End ListAppsPage.

Lemma listApps_page_selected_witness :
  let C := Fixture.collaborators in
  let req := protobuf.mkStreamAppsRequest 1 "" ["apps/a2"; "apps/a3"] [] false false in
  let p := mkPage [Fixture.pbApp "a2"] 1 1 (Some (data.mkPageToken (Some "a2") 1)) in
  listApps_page req = Done (inr p)
  /\ exists (pageToken : data.PageToken) (ctApps : list ct.App),
      appRepo_ListPage pageToken = inr (ctApps, page_nextPageToken p)
      /\ page_apps p
         = take (Z.to_nat (page_pageSize p))
                (map ConvertApp (filter (fun a => appSelected req a = true) ctApps))
      /\ page_n p = Z.of_nat (length (page_apps p))
      /\ page_n p <= page_pageSize p.
Proof.
  intros C req p.
  assert (H : listApps_page req = Done (inr p)) by (vm_compute; reflexivity).
  split; [exact H|exact (listApps_page_selected req p H)].
Defined.

Lemma unary_requests_and_the_subscription_witness :
  let C := Fixture.collaborators in
  let reqA := protobuf.mkStreamAppsRequest 2 "" [] [] false false in
  let reqD := protobuf.mkStreamDeploymentsRequest 0 "" [] [] false false in
  let reqR := protobuf.mkStreamReleasesRequest 2 "" [] [] false false in
  let received := [RecvEvent (Fixture.event 3 ct.EventTypeApp "a1" "a1")] in
  let err := PlainError "listener closed" in
  StreamApps 3 reqA (Some err) received None = StreamApps 3 reqA None [] None
  /\ (length (fst (StreamApps 3 reqA (Some err) received None)) <= 1)%nat
  /\ StreamDeployments reqD (Some err) received None
     = StreamDeployments reqD None [] None
  /\ (length (fst (StreamDeployments reqD (Some err) received None)) <= 1)%nat
  /\ StreamReleases reqR (Some err) received None = ([], Done (Some err)).
Proof.
  intros C reqA reqD reqR received err.
  assert (Htok : ParsePageToken (protobuf.StreamReleasesRequest_PageToken reqR)
                 = inr (data.mkPageToken None 0)) by (vm_compute; reflexivity).
  exact (unary_requests_and_the_subscription 3 reqA reqD reqR _ (Some err) None
           received err eq_refl eq_refl eq_refl eq_refl Htok).
Defined.

Lemma StreamApps_live_responses_witness :
  let C := Fixture.collaborators in
  let req := protobuf.mkStreamAppsRequest 2 "" [] [] false true in
  let deletion := Fixture.event 3 ct.EventTypeAppDeletion "a1" "a1" in
  let creation := Fixture.event 4 ct.EventTypeApp "a4" "a4" in
  let received := [RecvEvent deletion; RecvEvent creation] in
  let resp := protobuf.mkStreamAppsResponse [Fixture.pbApp "a4"] "" false in
  fst (StreamApps_loop req received) = [resp]
  /\ exists (event : ct.Event) (ctApp : ct.App),
      RecvEvent event ∈ received
      /\ ct.Event_ObjectType event = ct.EventTypeApp
      /\ Unmarshal_App (ct.Event_Data event) = inr ctApp
      /\ resp = protobuf.mkStreamAppsResponse [ConvertApp ctApp] "" false
      /\ MatchLabelFilters (protobuf.App_Labels (ConvertApp ctApp))
           (protobuf.StreamAppsRequest_LabelFilters req) = true
      /\ ((protobuf.StreamAppsRequest_StreamCreates req = true
           /\ ct.Event_Op event = ct.EventOpCreate)
          \/ (protobuf.StreamAppsRequest_StreamUpdates req = true
              /\ ct.Event_Op event = ct.EventOpUpdate)).
Proof.
  intros C req deletion creation received resp.
  assert (H : fst (StreamApps_loop req received) = [resp])
    by (vm_compute; reflexivity).
  split; [exact H|].
  apply (StreamApps_live_responses req received resp).
  rewrite H. left.
Defined.

(** ** createScale: what it returns and which events count *)

Section ScaleMore.
Context `{C : Collaborators}.

(** X6.  Whenever createScale returns, it returns either a scale request
    and a nil error, or no scale request and an error: never both, never
    neither. *)
Theorem createScale_value_xor_error (req : protobuf.CreateScaleRequest)
    (subscribeErr sub_Err : option error) (selected : list Select)
    (v : option protobuf.ScaleRequest) (e : option error) :
  createScale req subscribeErr selected sub_Err = Done (v, e) ->
  (is_Some v /\ e = None) \/ (v = None /\ is_Some e).
Proof.
  unfold createScale, convertedErr.
  destruct subscribeErr as [err|]; [intros [= <- <-]; right; eauto|].
  destruct (formationRepo_AddScaleRequest _) as [err|id];
    [intros [= <- <-]; right; eauto|].
  destruct (createScale_loop _ selected) as [[|err]| |]; try done.
  - destruct sub_Err as [err|]; intros [= <- <-]; [right|left]; eauto.
  - intros [= <- <-]; right; eauto.
Qed.

(** An event the loop passes over can be left out. *)
Lemma createScale_loop_skip (scaleReq : ct.ScaleRequest) (event : ct.Event)
    (pre post : list Select) :
  createScale_loop scaleReq [SelectEvent event] = Blocked ->
  createScale_loop scaleReq (pre ++ SelectEvent event :: post)
  = createScale_loop scaleReq (pre ++ post).
Proof.
  intros Hskip.
  assert (Hone : createScale_loop scaleReq (SelectEvent event :: post)
                 = createScale_loop scaleReq post)
    by (apply (createScale_loop_app scaleReq [SelectEvent event] post Hskip)).
  induction pre as [|sel pre IH]; [exact Hone|].
  destruct sel as [ev| |]; cbn [createScale_loop app]; [|done|done].
  destruct (String.eqb _ _); [|exact IH].
  destruct (Unmarshal_ScaleRequest _) as [err|r]; [exact IH|].
  destruct (negb _); [exact IH|].
  by destruct (ct.ScaleRequest_State r).
Qed.

(** X7.  While it waits, createScale takes no notice of an event that is
    not of type [scale_request], or whose payload does not decode, or that
    decodes to a request with another id than the inserted one, or to the
    inserted request in state pending: with such an event received at any
    point, createScale ends as it does without it. *)
Theorem createScale_ignores_other_events (req : protobuf.CreateScaleRequest)
    (id : string) (event : ct.Event) (pre post : list Select)
    (subscribeErr sub_Err : option error) :
  formationRepo_AddScaleRequest (newScaleReq req) = inr id ->
  (ct.Event_ObjectType event <> ct.EventTypeScaleRequest
   \/ (exists err, Unmarshal_ScaleRequest (ct.Event_Data event) = inl err)
   \/ (exists ctReq,
         Unmarshal_ScaleRequest (ct.Event_Data event) = inr ctReq
         /\ (ct.ScaleRequest_ID ctReq <> id
             \/ ct.ScaleRequest_State ctReq = ct.ScaleRequestStatePending))) ->
  createScale req subscribeErr (pre ++ SelectEvent event :: post) sub_Err
  = createScale req subscribeErr (pre ++ post) sub_Err.
Proof.
  intros Hadd Hev. unfold createScale. rewrite Hadd.
  destruct subscribeErr; [done|].
  rewrite createScale_loop_skip; [done|].
  cbn [createScale_loop]. destruct Hev as [Htype|[[err Hdec]|(r & Hdec & Hr)]].
  - by destruct (String.eqb_spec (ct.Event_ObjectType event) ct.EventTypeScaleRequest).
  - rewrite Hdec. by destruct (String.eqb _ _).
  - rewrite Hdec. destruct (String.eqb _ _); [|done].
    destruct Hr as [Hid|Hst].
    + cbn [withID ct.ScaleRequest_ID].
      by destruct (String.eqb_spec (ct.ScaleRequest_ID r) id).
    + rewrite Hst. by destruct (negb _).
Qed.

(** A wait that ends with [break outer] on a channel that was not closed
    has met a complete event of the inserted request. *)
Lemma createScale_loop_BreakOuter (scaleReq : ct.ScaleRequest)
    (selected : list Select) :
  SelectClosed ∉ selected ->
  createScale_loop scaleReq selected = Done BreakOuter ->
  exists (skipped : list Select) (event : ct.Event) (rest : list Select)
         (ctReq : ct.ScaleRequest),
    selected = skipped ++ SelectEvent event :: rest
    /\ createScale_loop scaleReq skipped = Blocked
    /\ ct.Event_ObjectType event = ct.EventTypeScaleRequest
    /\ Unmarshal_ScaleRequest (ct.Event_Data event) = inr ctReq
    /\ ct.ScaleRequest_ID ctReq = ct.ScaleRequest_ID scaleReq
    /\ ct.ScaleRequest_State ctReq = ct.ScaleRequestStateComplete.
Proof.
  induction selected as [|sel selected IH]; [done|].
  intros Hopen%not_elem_of_cons. destruct Hopen as [Hsel Hopen].
  destruct sel as [event| |]; [|done|done].
  assert (Hpass : createScale_loop scaleReq [SelectEvent event] = Blocked ->
                  createScale_loop scaleReq selected = Done BreakOuter ->
                  exists skipped event0 rest ctReq,
                    SelectEvent event :: selected
                    = skipped ++ SelectEvent event0 :: rest
                    /\ createScale_loop scaleReq skipped = Blocked
                    /\ ct.Event_ObjectType event0 = ct.EventTypeScaleRequest
                    /\ Unmarshal_ScaleRequest (ct.Event_Data event0) = inr ctReq
                    /\ ct.ScaleRequest_ID ctReq = ct.ScaleRequest_ID scaleReq
                    /\ ct.ScaleRequest_State ctReq = ct.ScaleRequestStateComplete).
  { intros Hone Hloop.
    destruct (IH Hopen Hloop) as (skipped & event0 & rest & ctReq & -> & Hsk & H).
    exists (SelectEvent event :: skipped), event0, rest, ctReq.
    split; [done|]. split; [|exact H].
    change (SelectEvent event :: skipped) with ([SelectEvent event] ++ skipped).
    by rewrite (createScale_loop_app scaleReq [SelectEvent event] skipped Hone). }
  revert Hpass. cbn [createScale_loop].
  destruct (String.eqb_spec (ct.Event_ObjectType event) ct.EventTypeScaleRequest)
    as [Htype|Htype]; [|by intros Hpass; apply Hpass].
  destruct (Unmarshal_ScaleRequest (ct.Event_Data event)) as [err|ctReq] eqn:Hdec;
    [by intros Hpass; apply Hpass|].
  destruct (String.eqb_spec (ct.ScaleRequest_ID ctReq) (ct.ScaleRequest_ID scaleReq))
    as [Hid|Hid]; cbn [negb]; [|by intros Hpass; apply Hpass].
  destruct (ct.ScaleRequest_State ctReq) eqn:Hstate;
    [by intros Hpass; apply Hpass|done|].
  intros _ _. by exists [], event, selected, ctReq.
Qed.

(** X8.  While the merged channel stays open (nothing closes it before
    createScale returns), createScale reports success only after a
    complete event of the request it inserted: if it returns a scale
    request and no error, then the subscription was opened, the store
    assigned an id, the error cell is nil, and among the events received
    there is a scale-request event that decodes to a request with that id
    in state complete, every event before it being one the loop passes
    over; what is returned is the inserted request. *)
Theorem createScale_success_needs_complete_event
    (req : protobuf.CreateScaleRequest) (subscribeErr sub_Err : option error)
    (selected : list Select) (v : protobuf.ScaleRequest) :
  SelectClosed ∉ selected ->
  createScale req subscribeErr selected sub_Err = Done (Some v, None) ->
  exists (id : string) (skipped : list Select) (event : ct.Event)
         (rest : list Select) (ctReq : ct.ScaleRequest),
    subscribeErr = None /\ sub_Err = None
    /\ formationRepo_AddScaleRequest (newScaleReq req) = inr id
    /\ selected = skipped ++ SelectEvent event :: rest
    /\ createScale_loop (withID (newScaleReq req) id) skipped = Blocked
    /\ ct.Event_ObjectType event = ct.EventTypeScaleRequest
    /\ Unmarshal_ScaleRequest (ct.Event_Data event) = inr ctReq
    /\ ct.ScaleRequest_ID ctReq = id
    /\ ct.ScaleRequest_State ctReq = ct.ScaleRequestStateComplete
    /\ v = utils.ConvertScaleRequest (withID (newScaleReq req) id).
Proof.
  intros Hopen. unfold createScale.
  destruct subscribeErr as [err|]; [done|].
  destruct (formationRepo_AddScaleRequest _) as [err|id] eqn:Hadd; [done|].
  destruct (createScale_loop _ selected) as [[|err]| |] eqn:Hloop; try done.
  destruct sub_Err as [err|]; [done|]. intros [= <-].
  destruct (createScale_loop_BreakOuter _ _ Hopen Hloop)
    as (skipped & event & rest & ctReq & Hsel & Hsk & Htype & Hdec & Hid & Hst).
  by exists id, skipped, event, rest, ctReq.
Qed.

End ScaleMore.

Lemma createScale_value_xor_error_witness :
  let C := Fixture.collaborators in
  let req :=
    protobuf.mkCreateScaleRequest "apps/app1/releases/r1" {[ "web" := 3 ]} ∅ in
  let err := PlainError "listener closed" in
  createScale req (Some err) [] None = Done (None, Some err)
  /\ ((is_Some (@None protobuf.ScaleRequest) /\ Some err = None)
      \/ (@None protobuf.ScaleRequest = None /\ is_Some (Some err))).
Proof.
  intros C req err.
  assert (H : createScale req (Some err) [] None = Done (None, Some err))
    by reflexivity.
  split; [exact H|exact (createScale_value_xor_error req _ _ _ _ _ H)].
Defined.

Lemma createScale_ignores_other_events_witness :
  let C := Fixture.collaborators in
  let req :=
    protobuf.mkCreateScaleRequest "apps/app1/releases/r1" {[ "web" := 3 ]} ∅ in
  let other := Fixture.scaleEvent 41 "sr0:cancelled" in
  let cancelled := Fixture.scaleEvent 42 "sr1:cancelled" in
  createScale req None ([] ++ SelectEvent other :: [SelectEvent cancelled]) None
  = createScale req None ([] ++ [SelectEvent cancelled]) None.
Proof.
  intros C req other cancelled.
  assert (Hadd : formationRepo_AddScaleRequest (newScaleReq req) = inr "sr1")
    by (vm_compute; reflexivity).
  apply (createScale_ignores_other_events req "sr1" other [] [SelectEvent cancelled]
           None None Hadd).
  right. right. exists (Fixture.scaleRequest "sr0" ct.ScaleRequestStateCancelled).
  split; [vm_compute; reflexivity|left; discriminate].
Defined.

Lemma createScale_success_needs_complete_event_witness :
  let C := Fixture.collaborators in
  let req :=
    protobuf.mkCreateScaleRequest "apps/app1/releases/r1" {[ "web" := 3 ]} ∅ in
  let pending := Fixture.scaleEvent 43 "sr1:pending" in
  let complete := Fixture.scaleEvent 44 "sr1:complete" in
  let selected := [SelectEvent pending; SelectEvent complete] in
  let v := utils.ConvertScaleRequest (withID (newScaleReq req) "sr1") in
  createScale req None selected None = Done (Some v, None)
  /\ exists id skipped event rest ctReq,
      @None error = None /\ @None error = None
      /\ formationRepo_AddScaleRequest (newScaleReq req) = inr id
      /\ selected = skipped ++ SelectEvent event :: rest
      /\ createScale_loop (withID (newScaleReq req) id) skipped = Blocked
      /\ ct.Event_ObjectType event = ct.EventTypeScaleRequest
      /\ Unmarshal_ScaleRequest (ct.Event_Data event) = inr ctReq
      /\ ct.ScaleRequest_ID ctReq = id
      /\ ct.ScaleRequest_State ctReq = ct.ScaleRequestStateComplete
      /\ v = utils.ConvertScaleRequest (withID (newScaleReq req) id).
Proof.
  intros C req pending complete selected v.
  assert (Hopen : SelectClosed ∉ selected).
  { intros H. repeat (apply elem_of_cons in H as [H|H]; [discriminate|]).
    by apply elem_of_nil in H. }
  assert (Hret : createScale req None selected None = Done (Some v, None))
    by (vm_compute; reflexivity).
  split; [exact Hret|].
  exact (createScale_success_needs_complete_event req None None selected v
           Hopen Hret).
Defined.

(** ** StreamScales and StreamReleases: the lists they send *)

Section Lists.
Context `{C : Collaborators}.

Lemma prependScaleRequest_fst (event : ct.Event)
    (l : list protobuf.ScaleRequest) :
  fst (prependScaleRequest event l)
  = match unmarshalScaleRequest event with
    | inl _ => l
    | inr sr =>
        sr :: filter (fun y => protobuf.ScaleRequest_Name y
                               <> protobuf.ScaleRequest_Name sr) l
    end.
Proof.
  unfold prependScaleRequest. destruct (unmarshalScaleRequest event); [done|].
  cbn [fst]. by rewrite (fold_left_skip_name protobuf.ScaleRequest_Name).
Qed.

Lemma maybePrependRelease_fst (req : protobuf.StreamReleasesRequest)
    (event : ct.Event) (l : list protobuf.Release) :
  fst (maybePrependRelease req event l) = l
  \/ exists r,
      fst (maybePrependRelease req event l)
      = r :: filter (fun y => protobuf.Release_Name y <> protobuf.Release_Name r) l.
Proof.
  unfold maybePrependRelease.
  destruct (maybeAcceptRelease req event) as [[[r|] [|]] [err|]]; auto.
  right. exists r. cbn [fst].
  by rewrite (fold_left_skip_name protobuf.Release_Name).
Qed.

(** Prepending keeps the names distinct. *)
Lemma NoDup_names_cons_filter {A : Type} (name : A -> string) (x : A) (l : list A) :
  NoDup (map name l) ->
  NoDup (map name (x :: filter (fun y => name y <> name x) l)).
Proof.
  intros Hnd. cbn [map]. apply NoDup_cons. split.
  - intros (y & Hy & Hin)%list_elem_of_fmap.
    apply list_elem_of_filter in Hin as [Hne _]. by apply Hne.
  - induction l as [|y l IH]; [constructor|].
    cbn [map] in Hnd. apply NoDup_cons in Hnd as [Hy Hnd].
    rewrite filter_cons. case_decide; [|by apply IH].
    cbn [map]. apply NoDup_cons. split; [|by apply IH].
    intros (z & Hz & Hin)%list_elem_of_fmap.
    apply list_elem_of_filter in Hin as [_ Hin].
    apply Hy. apply list_elem_of_fmap. by exists z.
Qed.

Lemma StreamScales_snapshot_cons (event : ct.Event) (rows : list ct.Event) :
  scaleRequests (StreamScales_snapshot (event :: rows))
  = fst (prependScaleRequest event (scaleRequests (StreamScales_snapshot rows))).
Proof.
  unfold StreamScales_snapshot. cbn [rev]. by rewrite fold_left_app.
Qed.

Lemma StreamScales_event_NoDup (st : ScalesState) (event : ct.Event) :
  NoDup (map protobuf.ScaleRequest_Name (scaleRequests st)) ->
  NoDup (map protobuf.ScaleRequest_Name (scaleRequests (StreamScales_event st event))).
Proof.
  intros Hnd. unfold StreamScales_event. destruct (_ <=? _); [done|].
  cbn [scaleRequests]. rewrite prependScaleRequest_fst.
  destruct (unmarshalScaleRequest event); [done|].
  by apply NoDup_names_cons_filter.
Qed.

Lemma StreamScales_snapshot_NoDup (rows : list ct.Event) :
  NoDup (map protobuf.ScaleRequest_Name (scaleRequests (StreamScales_snapshot rows))).
Proof.
  induction rows as [|event rows IH]; [constructor|].
  rewrite StreamScales_snapshot_cons, prependScaleRequest_fst.
  destruct (unmarshalScaleRequest event); [done|].
  by apply NoDup_names_cons_filter.
Qed.

Lemma StreamScales_loop_NoDup (st : ScalesState) (ticks : list Tick)
    (resp : protobuf.StreamScalesResponse) :
  NoDup (map protobuf.ScaleRequest_Name (scaleRequests st)) ->
  resp ∈ fst (StreamScales_loop st ticks) ->
  NoDup (map protobuf.ScaleRequest_Name
             (protobuf.StreamScalesResponse_ScaleRequests resp)).
Proof.
  revert st. induction ticks as [|t ticks IH]; intros st Hnd;
    [by intros ?%elem_of_nil|].
  destruct t as [event| |]; cbn [StreamScales_loop StreamScales_tick];
    [| by intros ?%elem_of_nil |].
  - destruct (StreamScales_loop _ ticks) as [sent r] eqn:Hloop. cbn [fst app].
    intros Hin. apply (IH (sendResponseWithDelay (StreamScales_event st event))).
    + cbn [sendResponseWithDelay scaleRequests]. by apply StreamScales_event_NoDup.
    + by rewrite Hloop.
  - destruct (timer st).
    + destruct (StreamScales_loop _ ticks) as [sent r] eqn:Hloop. cbn [fst app].
      intros [->|Hin]%elem_of_cons; [done|].
      apply (IH (mkScalesState (scaleRequests st) (scales_currID st) false));
        [done|]. by rewrite Hloop.
    + destruct (StreamScales_loop st ticks) as [sent r] eqn:Hloop. cbn [fst app].
      intros Hin. apply (IH st Hnd). by rewrite Hloop.
Qed.

Lemma StreamReleases_listed_NoDup (req : protobuf.StreamReleasesRequest)
    (rows : list ct.Event) (st : ReleasesState) :
  NoDup (map protobuf.Release_Name (releases st)) ->
  NoDup (map protobuf.Release_Name
             (releases (fold_left (StreamReleases_listed req) rows st))).
Proof.
  revert st. induction rows as [|event rows IH]; intros st Hnd; [done|].
  cbn [fold_left]. apply IH. unfold StreamReleases_listed. cbn [releases].
  destruct (maybePrependRelease_fst req event (releases st)) as [->|[r ->]];
    [done|]. by apply NoDup_names_cons_filter.
Qed.

Lemma StreamReleases_loop_single (req : protobuf.StreamReleasesRequest)
    (currID : Z) (received : list Recv) (resp : protobuf.StreamReleasesResponse) :
  resp ∈ fst (StreamReleases_loop req currID received) ->
  exists release, protobuf.StreamReleasesResponse_Releases resp = [release].
Proof.
  revert currID. induction received as [|r rest IH]; intros currID;
    [by intros ?%elem_of_nil|].
  destruct r as [event|]; cbn [StreamReleases_loop]; [|by intros ?%elem_of_nil].
  destruct (StreamReleases_event req currID event) as [currID' out] eqn:Hev.
  destruct (StreamReleases_loop req currID' rest) as [sent r] eqn:Hloop.
  cbn [fst]. intros [Hin|Hin]%elem_of_app.
  - unfold StreamReleases_event in Hev. destruct (_ <=? _).
    { injection Hev as <- <-. by apply elem_of_nil in Hin. }
    destruct (maybeAcceptRelease req event) as [[[rel|] [|]] [err|]];
      injection Hev as <- <-; try by apply elem_of_nil in Hin.
    apply list_elem_of_singleton in Hin as ->. by exists rel.
  - apply (IH currID'). by rewrite Hloop.
Qed.

(** X9.  No response of StreamScales and no response of StreamReleases
    lists two items with the same resource name: this holds for the
    snapshot, for every debounced list of StreamScales and for every
    single-release response of the live tail of StreamReleases. *)
Theorem responses_list_each_name_once
    (reqS : protobuf.StreamScalesRequest) (reqR : protobuf.StreamReleasesRequest)
    (subscribeErr sub_Err : option error) (ticks : list Tick)
    (received : list Recv) :
  (forall resp, resp ∈ fst (StreamScales reqS subscribeErr ticks sub_Err) ->
                NoDup (map protobuf.ScaleRequest_Name
                           (protobuf.StreamScalesResponse_ScaleRequests resp)))
  /\ (forall resp, resp ∈ fst (StreamReleases reqR subscribeErr received sub_Err) ->
                   NoDup (map protobuf.Release_Name
                              (protobuf.StreamReleasesResponse_Releases resp))).
Proof.
  split; intros resp.
  - unfold StreamScales. destruct subscribeErr; [by intros ?%elem_of_nil|].
    destruct (eventRepo_ListEvents _ _ _ _ _ _) as [err|rows];
      [by intros ?%elem_of_nil|].
    destruct (StreamScales_loop _ ticks) as [sent r] eqn:Hloop. cbn [fst].
    intros [->|Hin]%elem_of_cons; [apply StreamScales_snapshot_NoDup|].
    apply (StreamScales_loop_NoDup
             (sendResponseWithDelay (StreamScales_snapshot rows)) ticks);
      [apply StreamScales_snapshot_NoDup|by rewrite Hloop].
  - unfold StreamReleases.
    destruct (ParsePageToken _) as [err|pageToken]; [by intros ?%elem_of_nil|].
    destruct subscribeErr; [by intros ?%elem_of_nil|].
    destruct (eventRepo_ListEvents _ _ _ _ _ _) as [err|rows];
      [by intros ?%elem_of_nil|].
    destruct (StreamReleases_snapshot reqR pageToken rows) as [[st tok]| |] eqn:Hsnap;
      [|by intros ?%elem_of_nil|by intros ?%elem_of_nil].
    assert (Hst : NoDup (map protobuf.Release_Name (releases st))).
    { unfold StreamReleases_snapshot in Hsnap.
      destruct (releases_window _ rows) as [[kept tok']| |]; try done.
      injection Hsnap as <- _. apply StreamReleases_listed_NoDup. constructor. }
    destruct (negb _); cbn [fst].
    + by intros ->%list_elem_of_singleton.
    + destruct (StreamReleases_loop reqR _ received) as [sent r] eqn:Hloop.
      cbn [fst]. intros [->|Hin]%elem_of_cons; [done|].
      destruct (StreamReleases_loop_single reqR (releases_currID st) received resp)
        as [rel ->]; [by rewrite Hloop|].
      cbn. apply NoDup_singleton.
Qed.

(** X10.  The list StreamScales has built when the snapshot is read holds
    exactly the newest decodable version of each scale request: a request
    is in it if and only if some listed row decodes to it and no row
    listed before that one (a newer one) decodes to a request of the same
    name; and the request of a decodable first row is at its head. *)
Theorem StreamScales_snapshot_newest (rows : list ct.Event)
    (sr : protobuf.ScaleRequest) :
  (sr ∈ scaleRequests (StreamScales_snapshot rows)
   <-> exists (i : nat) (event : ct.Event),
        rows !! i = Some event
        /\ unmarshalScaleRequest event = inr sr
        /\ forall (j : nat) (event' : ct.Event) (sr' : protobuf.ScaleRequest),
            (j < i)%nat -> rows !! j = Some event' ->
            unmarshalScaleRequest event' = inr sr' ->
            protobuf.ScaleRequest_Name sr' <> protobuf.ScaleRequest_Name sr)
  /\ (forall event rest,
         rows = event :: rest -> unmarshalScaleRequest event = inr sr ->
         scaleRequests (StreamScales_snapshot rows) !! 0%nat = Some sr).
Proof.
  split.
  - induction rows as [|e0 rows IH].
    + split; [by intros ?%elem_of_nil|]. by intros (i & e & ? & _).
    + rewrite StreamScales_snapshot_cons, prependScaleRequest_fst.
      destruct (unmarshalScaleRequest e0) as [err|s0] eqn:Hd0.
      * rewrite IH. split.
        -- intros (i & e & Hi & Hd & Hnew). exists (S i), e.
           repeat split; try done. intros [|j] e' sr' Hj Hl Hd'.
           ++ cbn in Hl. injection Hl as <-. congruence.
           ++ apply (Hnew j e' sr'); [lia|done|done].
        -- intros ([|i] & e & Hi & Hd & Hnew).
           ++ cbn in Hi. injection Hi as <-. congruence.
           ++ exists i, e. repeat split; try done. intros j e' sr' Hj Hl Hd'.
              apply (Hnew (S j) e' sr'); [lia|done|done].
      * rewrite elem_of_cons, list_elem_of_filter, IH. split.
        -- intros [->|[Hne (i & e & Hi & Hd & Hnew)]].
           ++ exists 0%nat, e0. repeat split; try done. intros j ? ? Hj. lia.
           ++ exists (S i), e. repeat split; try done. intros [|j] e' sr' Hj Hl Hd'.
              ** cbn in Hl. injection Hl as <-. rewrite Hd0 in Hd'.
                 injection Hd' as <-. done.
              ** apply (Hnew j e' sr'); [lia|done|done].
        -- intros ([|i] & e & Hi & Hd & Hnew).
           ++ cbn in Hi. injection Hi as <-. left. congruence.
           ++ right. split.
              ** intros Heq. apply (Hnew 0%nat e0 s0); [lia|done|done|done].
              ** exists i, e. repeat split; try done. intros j e' sr' Hj Hl Hd'.
                 apply (Hnew (S j) e' sr'); [lia|done|done].
  - intros event rest -> Hd.
    by rewrite StreamScales_snapshot_cons, prependScaleRequest_fst, Hd.
Qed.

End Lists.

Lemma responses_list_each_name_once_witness :
  let C := Fixture.collaborators in
  let reqS := protobuf.mkStreamScalesRequest [] in
  let reqR := protobuf.mkStreamReleasesRequest 2 "" [] [] true true in
  let ticks := [TickEvent (Fixture.scaleEvent 6 "sr1:complete"); TickTimer] in
  let received := [RecvEvent (Fixture.releaseEvent 10 "r3:app1")] in
  let respS :=
    protobuf.mkStreamScalesResponse
      [utils.ConvertScaleRequest
         (Fixture.scaleRequest "sr1" ct.ScaleRequestStateComplete)] in
  let respR :=
    protobuf.mkStreamReleasesResponse
      [Fixture.pbRelease "app1" "r3"; Fixture.pbRelease "app1" "r2"] "9" true in
  (respS ∈ fst (StreamScales reqS None ticks None)
   /\ NoDup (map protobuf.ScaleRequest_Name
                 (protobuf.StreamScalesResponse_ScaleRequests respS)))
  /\ (respR ∈ fst (StreamReleases reqR None received None)
      /\ NoDup (map protobuf.Release_Name
                    (protobuf.StreamReleasesResponse_Releases respR))).
Proof.
  intros C reqS reqR ticks received respS respR.
  assert (HS : respS ∈ fst (StreamScales reqS None ticks None))
    by (vm_compute; right; left).
  assert (HR : respR ∈ fst (StreamReleases reqR None received None))
    by (vm_compute; left).
  destruct (responses_list_each_name_once reqS reqR None None ticks received)
    as [HallS HallR].
  split; (split; [assumption|]); [exact (HallS _ HS)|exact (HallR _ HR)].
Defined.

Lemma StreamScales_snapshot_newest_witness :
  let C := Fixture.collaborators in
  let rows := [Fixture.scaleEvent 9 "sr1:complete"; Fixture.scaleEvent 8 "garbage";
               Fixture.scaleEvent 7 "sr1:pending"] in
  let sr := utils.ConvertScaleRequest
              (Fixture.scaleRequest "sr1" ct.ScaleRequestStateComplete) in
  sr ∈ scaleRequests (StreamScales_snapshot rows)
  /\ scaleRequests (StreamScales_snapshot rows) !! 0%nat = Some sr.
Proof.
  intros C rows sr.
  assert (Hd : unmarshalScaleRequest (Fixture.scaleEvent 9 "sr1:complete") = inr sr)
    by (vm_compute; reflexivity).
  destruct (StreamScales_snapshot_newest rows sr) as [Hiff Hhead].
  split.
  - apply Hiff. exists 0%nat, (Fixture.scaleEvent 9 "sr1:complete").
    split; [reflexivity|]. split; [exact Hd|]. intros j ? ? Hj. lia.
  - exact (Hhead _ _ eq_refl Hd).
Defined.

(** ** The live tail: order of events and the debounce timer *)

Section LiveTail.
Context `{C : Collaborators}.

Lemma StreamScales_event_seen (st : ScalesState) (event : ct.Event) :
  ct.Event_ID event <= scales_currID (StreamScales_event st event).
Proof.
  unfold StreamScales_event.
  destruct (Z.leb_spec (ct.Event_ID event) (scales_currID st)); cbn; lia.
Qed.

Lemma StreamReleases_event_seen (req : protobuf.StreamReleasesRequest)
    (currID : Z) (event : ct.Event) :
  fst (StreamReleases_event req currID event) = Z.max currID (ct.Event_ID event).
Proof.
  unfold StreamReleases_event.
  destruct (Z.leb_spec (ct.Event_ID event) currID); [cbn; lia|].
  destruct (maybeAcceptRelease req event) as [[[r|] [|]] [err|]]; cbn; lia.
Qed.

Lemma StreamScales_event_max (st : ScalesState) (event : ct.Event) :
  scales_currID (StreamScales_event st event)
  = Z.max (scales_currID st) (ct.Event_ID event).
Proof.
  unfold StreamScales_event.
  destruct (Z.leb_spec (ct.Event_ID event) (scales_currID st)); cbn; lia.
Qed.

(** X11.  Once StreamScales or StreamReleases has received an event, an
    event with the same or a smaller id that is received after it is
    dropped, whether it was seen before or not: a redelivered event
    changes nothing, and an event that reaches the merged channel out of
    id order is lost. *)
Theorem later_event_with_older_id_dropped (st : ScalesState)
    (req : protobuf.StreamReleasesRequest) (currID : Z) (first second : ct.Event) :
  ct.Event_ID second <= ct.Event_ID first ->
  StreamScales_event (StreamScales_event st first) second
  = StreamScales_event st first
  /\ StreamReleases_event req (fst (StreamReleases_event req currID first)) second
     = (fst (StreamReleases_event req currID first), []).
Proof.
  intros Hle. split.
  - pose proof (StreamScales_event_seen st first) as Hseen.
    unfold StreamScales_event at 1.
    replace (_ <=? _) with true; [done|]. symmetry. apply Z.leb_le. lia.
  - rewrite StreamReleases_event_seen. unfold StreamReleases_event.
    replace (_ <=? _) with true; [done|]. symmetry. apply Z.leb_le. lia.
Qed.

(** X12.  [currID] is the largest id received so far, or its first value
    if that is larger: every received event counts, also one whose
    payload does not decode or that the filters of the request reject. *)
Theorem currID_is_largest_seen (st : ScalesState) (ticks : list Tick)
    (req : protobuf.StreamReleasesRequest) (currID : Z) (received : list Recv) :
  scales_currID (StreamScales_after st ticks)
  = fold_left (fun m t => match t with
                          | TickEvent event => Z.max m (ct.Event_ID event)
                          | _ => m
                          end) ticks (scales_currID st)
  /\ StreamReleases_after req currID received
     = fold_left (fun m r => match r with
                             | RecvEvent event => Z.max m (ct.Event_ID event)
                             | RecvClosed => m
                             end) received currID.
Proof.
  split.
  - revert st. induction ticks as [|t ticks IH]; intros st; [done|].
    change (StreamScales_after st (t :: ticks))
      with (StreamScales_after (fst (StreamScales_tick st t)) ticks).
    rewrite IH. cbn [fold_left]. f_equal.
    destruct t; cbn; [apply StreamScales_event_max|done|].
    by destruct (timer st).
  - revert currID. induction received as [|r received IH]; intros currID; [done|].
    cbn [StreamReleases_after fold_left]. destruct r as [event|].
    + rewrite <- (StreamReleases_event_seen req). apply IH.
    + apply IH.
Qed.

(** A burst of events sends nothing and leaves the timer running. *)
Lemma StreamScales_loop_burst (st : ScalesState) (events : list ct.Event)
    (rest : list Tick) :
  StreamScales_loop st (map TickEvent events ++ rest)
  = StreamScales_loop (StreamScales_after st (map TickEvent events)) rest.
Proof.
  revert st. induction events as [|event events IH]; intros st; [done|].
  cbn [map app StreamScales_loop StreamScales_tick].
  rewrite IH. by destruct (StreamScales_loop _ rest).
Qed.

Lemma StreamScales_after_burst_timer (st : ScalesState) (events : list ct.Event) :
  events <> [] -> timer (StreamScales_after st (map TickEvent events)) = true.
Proof.
  intros Hne. destruct events as [|event events]; [done|]. clear Hne.
  revert st event. induction events as [|e events IH]; intros st event; [done|].
  change (StreamScales_after st (map TickEvent (event :: e :: events)))
    with (StreamScales_after (fst (StreamScales_tick st (TickEvent event)))
            (map TickEvent (e :: events))).
  apply IH.
Qed.

(** X13.  The debounce coalesces: events received with no firing of the
    timer between them cause no response by themselves; the first firing
    after them sends one response, with the list as it is after all of
    them, and a second firing sends nothing. *)
Theorem StreamScales_burst_one_response (st : ScalesState)
    (events : list ct.Event) :
  events <> [] ->
  StreamScales_loop st (map TickEvent events ++ [TickTimer; TickTimer])
  = ([protobuf.mkStreamScalesResponse
        (scaleRequests (StreamScales_after st (map TickEvent events)))],
     Blocked).
Proof.
  intros Hne. rewrite StreamScales_loop_burst.
  cbn [StreamScales_loop StreamScales_tick].
  by rewrite (StreamScales_after_burst_timer st events Hne).
Qed.

Lemma filter_all {A : Type} (P : A -> Prop) `{!forall x, Decision (P x)}
    (l : list A) :
  (forall y, y ∈ l -> P y) -> filter P l = l.
Proof.
  induction l as [|x l IH]; intros Hall; [done|].
  rewrite filter_cons, decide_True by (apply Hall; left).
  f_equal. apply IH. intros y Hy. apply Hall. by right.
Qed.

(** X14.  Events that arrive in increasing id order above [currID], each
    decoding to a scale request with a name of its own that the list does
    not hold yet, are put in front of the list in reverse order of
    arrival. *)
Theorem StreamScales_burst_reverse_order (st : ScalesState)
    (events : list ct.Event) (srs : list protobuf.ScaleRequest) :
  Forall2 (fun event sr => unmarshalScaleRequest event = inr sr) events srs ->
  StronglySorted Z.lt (scales_currID st :: map ct.Event_ID events) ->
  NoDup (map protobuf.ScaleRequest_Name (srs ++ scaleRequests st)) ->
  scaleRequests (StreamScales_after st (map TickEvent events))
  = rev srs ++ scaleRequests st.
Proof.
  intros Hdec. revert st. induction Hdec as [|event sr events srs Hd Hdec IH];
    intros st Hsorted Hnd; [done|].
  change (StreamScales_after st (map TickEvent (event :: events)))
    with (StreamScales_after
            (sendResponseWithDelay (StreamScales_event st event))
            (map TickEvent events)).
  cbn [map] in Hsorted. apply StronglySorted_inv in Hsorted as [Hsorted Hall].
  apply Forall_cons in Hall as [Hlt Hall].
  assert (Hev : StreamScales_event st event
                = mkScalesState (sr :: scaleRequests st) (ct.Event_ID event) (timer st)).
  { unfold StreamScales_event.
    replace (_ <=? _) with false by (symmetry; apply Z.leb_gt; lia).
    rewrite prependScaleRequest_fst, Hd. f_equal. f_equal.
    apply filter_all. intros y Hy Heq.
    cbn [app map] in Hnd. apply NoDup_cons in Hnd as [Hnotin _].
    apply Hnotin. rewrite <- Heq. apply list_elem_of_fmap. exists y.
    split; [done|]. apply elem_of_app. by right. }
  rewrite IH; rewrite Hev; cbn [sendResponseWithDelay scaleRequests scales_currID].
  - cbn [rev]. by rewrite <- app_assoc.
  - exact Hsorted.
  - cbn [app map] in Hnd. rewrite !map_app in *. cbn [map].
    apply NoDup_app. apply NoDup_cons in Hnd as [Hnotin Hnd].
    apply NoDup_app in Hnd as (H1 & H2 & H3).
    split; [done|]. split.
    + intros x Hx [->|Hin]%elem_of_cons.
      * apply Hnotin. apply elem_of_app. by left.
      * by apply (H2 x).
    + apply NoDup_cons. split; [|done].
      intros Hin. apply Hnotin. apply elem_of_app. by right.
Qed.

End LiveTail.

Lemma later_event_with_older_id_dropped_witness :
  let C := Fixture.collaborators in
  let st := StreamScales_snapshot (Fixture.list_events [ct.EventTypeScaleRequest] 0) in
  let req := protobuf.mkStreamReleasesRequest 2 "" [] [] true true in
  let first := Fixture.scaleEvent 9 "sr2:pending" in
  let second := Fixture.scaleEvent 8 "sr3:pending" in
  let firstR := Fixture.releaseEvent 12 "r5:app1" in
  let secondR := Fixture.releaseEvent 11 "r4:app1" in
  StreamScales_event (StreamScales_event st first) second = StreamScales_event st first
  /\ StreamReleases_event req (fst (StreamReleases_event req 9 firstR)) secondR
     = (fst (StreamReleases_event req 9 firstR), []).
Proof.
  intros C st req first second firstR secondR. split.
  - apply (later_event_with_older_id_dropped st req 9 first second).
    vm_compute. discriminate.
  - apply (later_event_with_older_id_dropped st req 9 firstR secondR).
    vm_compute. discriminate.
Defined.

Lemma StreamScales_burst_one_response_witness :
  let C := Fixture.collaborators in
  let st := StreamScales_snapshot (Fixture.list_events [ct.EventTypeScaleRequest] 0) in
  let events := [Fixture.scaleEvent 6 "sr2:pending"; Fixture.scaleEvent 7 "sr3:pending";
                 Fixture.scaleEvent 8 "sr4:pending"] in
  StreamScales_loop st (map TickEvent events ++ [TickTimer; TickTimer])
  = ([protobuf.mkStreamScalesResponse
        (scaleRequests (StreamScales_after st (map TickEvent events)))],
     Blocked).
Proof.
  intros C st events.
  apply (StreamScales_burst_one_response st events). discriminate.
Defined.

Lemma StreamScales_burst_reverse_order_witness :
  let C := Fixture.collaborators in
  let st := StreamScales_snapshot (Fixture.list_events [ct.EventTypeScaleRequest] 0) in
  let events := [Fixture.scaleEvent 6 "sr2:pending"; Fixture.scaleEvent 7 "sr3:pending"] in
  let conv := fun id =>
    utils.ConvertScaleRequest (Fixture.scaleRequest id ct.ScaleRequestStatePending) in
  scaleRequests (StreamScales_after st (map TickEvent events))
  = rev [conv "sr2"; conv "sr3"] ++ scaleRequests st.
Proof.
  intros C st events conv.
  apply (StreamScales_burst_reverse_order st events [conv "sr2"; conv "sr3"]).
  - repeat constructor.
  - repeat constructor.
  - vm_compute. repeat constructor; intros H; inversion H as [|? ? ? H1]; subst;
      try inversion H1 as [|? ? ? H2]; subst; try inversion H2.
Defined.

(** ** StreamReleases: the page it sends *)

Section ReleasesPage.
Context `{C : Collaborators}.

Lemma maybePrependRelease_length (req : protobuf.StreamReleasesRequest)
    (event : ct.Event) (l : list protobuf.Release) :
  (length (fst (maybePrependRelease req event l)) <= S (length l))%nat.
Proof.
  destruct (maybePrependRelease_fst req event l) as [->|[r ->]]; [lia|].
  cbn [length]. pose proof (length_filter (fun y => protobuf.Release_Name y
                                             <> protobuf.Release_Name r) l). lia.
Qed.

Lemma StreamReleases_listed_length (req : protobuf.StreamReleasesRequest)
    (rows : list ct.Event) (st : ReleasesState) :
  (length (releases (fold_left (StreamReleases_listed req) rows st))
   <= length rows + length (releases st))%nat.
Proof.
  revert st. induction rows as [|event rows IH]; intros st; [cbn; lia|].
  cbn [fold_left length]. etrans; [apply IH|].
  unfold StreamReleases_listed. cbn [releases].
  pose proof (maybePrependRelease_length req event (releases st)). lia.
Qed.

(** X15.  With a page size between 1 and the largest [int] less one and a
    store that returns no more rows than it was asked for, StreamReleases
    does not panic in its snapshot phase, and the first response it sends
    is the page: it is marked complete and lists at most [pageSize]
    releases. *)
Theorem StreamReleases_page_bounded (req : protobuf.StreamReleasesRequest)
    (pageToken : data.PageToken) (rows : list ct.Event)
    (received : list Recv) (sub_Err : option error) :
  ParsePageToken (protobuf.StreamReleasesRequest_PageToken req) = inr pageToken ->
  0 < releases_pageSize req pageToken < 2 ^ 63 - 1 ->
  eventRepo_ListEvents (releases_eventAppIDs req) [ct.EventTypeRelease] ""
    (BeforeIDInt64 pageToken) None (releases_count (releases_pageSize req pageToken))
  = inr rows ->
  Z.of_nat (length rows) <= releases_count (releases_pageSize req pageToken) ->
  exists page rest,
    fst (StreamReleases req None received sub_Err) = page :: rest
    /\ protobuf.StreamReleasesResponse_PageComplete page = true
    /\ Z.of_nat (length (protobuf.StreamReleasesResponse_Releases page))
       <= releases_pageSize req pageToken.
Proof.
  intros Htok Hps Hlist Hlen.
  set (ps := releases_pageSize req pageToken) in *.
  assert (Hadd : int_add ps 1 = ps + 1) by (apply int_add_small; lia).
  assert (Hcount : releases_count ps = ps + 1).
  { unfold releases_count. rewrite Hadd.
    by replace (0 <? ps) with true by (symmetry; apply Z.ltb_lt; lia). }
  rewrite Hcount in Hlen.
  assert (Hsnap : exists st tok,
             StreamReleases_snapshot req pageToken rows = Done (st, tok)
             /\ Z.of_nat (length (releases st)) <= ps).
  { unfold StreamReleases_snapshot, releases_window. fold ps. rewrite Hadd.
    replace (ps =? 0) with false by (symmetry; apply Z.eqb_neq; lia).
    cbn [orb]. destruct (Z.eqb_spec (Z.of_nat (length rows)) (ps + 1)) as [Heq|Hneq].
    - destruct rows as [|event [|y rows]]; cbn [length] in Heq; try lia.
      cbn [andb Nat.ltb Nat.leb]. rewrite take_pred_cons.
      eexists _, _. split; [reflexivity|].
      pose proof (StreamReleases_listed_length req
                    (rev (event :: take (length rows) (y :: rows)))
                    (mkReleasesState [] (default 0 (BeforeIDInt64 pageToken)))) as Hl.
      rewrite length_rev in Hl. cbn [length releases] in Hl.
      rewrite length_take in Hl. cbn [length] in Hl. lia.
    - cbn [andb]. eexists _, _. split; [reflexivity|].
      pose proof (StreamReleases_listed_length req (rev rows)
                    (mkReleasesState [] (default 0 (BeforeIDInt64 pageToken)))) as Hl.
      rewrite length_rev in Hl. cbn [length releases] in Hl. lia. }
  destruct Hsnap as (st & tok & Hsnap & Hbound).
  unfold StreamReleases. rewrite Htok. fold ps. rewrite Hlist, Hsnap.
  destruct (negb _).
  - eexists _, _. by repeat split.
  - destruct (StreamReleases_loop req _ received) as [sent r].
    eexists _, _. by repeat split.
Qed.

(** X16.  With an effective page size of zero (none in the request, none
    in the page token) and a store that lists exactly one release event,
    StreamReleases panics in its snapshot phase, before it has sent
    anything: the one row is cut off as the surplus row and the first
    element of the empty window is read. *)
Theorem StreamReleases_single_row_panics (req : protobuf.StreamReleasesRequest)
    (pageToken : data.PageToken) (event : ct.Event)
    (received : list Recv) (sub_Err : option error) :
  ParsePageToken (protobuf.StreamReleasesRequest_PageToken req) = inr pageToken ->
  releases_pageSize req pageToken = 0 ->
  eventRepo_ListEvents (releases_eventAppIDs req) [ct.EventTypeRelease] ""
    (BeforeIDInt64 pageToken) None 0
  = inr [event] ->
  StreamReleases req None received sub_Err = ([], Panics "index out of range").
Proof.
  intros Htok Hps Hlist. unfold StreamReleases, StreamReleases_snapshot.
  rewrite Htok, Hps. cbn [releases_count Z.ltb Z.compare]. by rewrite Hlist.
Qed.

(** X17.  [maybeAcceptRelease] accepts an event exactly when its payload
    decodes to a release whose labels match the label filters and, if the
    name filters name releases, the event is of one of these releases or
    of one of the apps the name filters name; it then returns the decoded
    release and no error.  It returns a release only when it accepts, and
    an error only when the payload does not decode. *)
Theorem maybeAcceptRelease_accepts (req : protobuf.StreamReleasesRequest)
    (event : ct.Event) (release : option protobuf.Release) (accepted : bool)
    (err : option error) :
  maybeAcceptRelease req event = (release, accepted, err) ->
  (accepted = true
   <-> (releases_releaseIDs req = ∅
        \/ ct.Event_ObjectID event ∈ releases_releaseIDs req
        \/ ct.Event_AppID event ∈ releases_appIDs req)
       /\ exists r, unmarshalRelease event = inr r
                    /\ MatchLabelFilters (protobuf.Release_Labels r)
                         (protobuf.StreamReleasesRequest_LabelFilters req) = true
                    /\ release = Some r)
  /\ (accepted = true -> err = None)
  /\ (is_Some release -> accepted = true)
  /\ (is_Some err -> exists e, unmarshalRelease event = inl e).
Proof.
  unfold maybeAcceptRelease.
  set (rids := releases_releaseIDs req). set (aids := releases_appIDs req).
  assert (Hsize : forall (s : gset string), (0 <? size s)%nat = false <-> s = ∅).
  { intros s. rewrite Nat.ltb_ge. split.
    - intros H. apply leibniz_equiv, size_empty_iff. lia.
    - intros ->. by rewrite size_empty. }
  assert (Hnames :
    ((0 <? size rids)%nat
     && negb (bool_decide (ct.Event_ObjectID event ∈ rids))
     && (if (0 <? size aids)%nat
         then negb (bool_decide (ct.Event_AppID event ∈ aids)) else true)) = false
    <-> (rids = ∅ \/ ct.Event_ObjectID event ∈ rids \/ ct.Event_AppID event ∈ aids)).
  { destruct (0 <? size rids)%nat eqn:Hr; cbn [andb].
    - assert (rids <> ∅) by (intros E; apply Hsize in E; congruence).
      destruct (bool_decide_reflect (ct.Event_ObjectID event ∈ rids)); cbn [negb andb].
      + split; auto.
      + destruct (0 <? size aids)%nat eqn:Ha.
        * destruct (bool_decide_reflect (ct.Event_AppID event ∈ aids)); cbn [negb].
          -- split; auto.
          -- split; [done|]. intros [?|[?|?]]; done.
        * apply Hsize in Ha. rewrite Ha. split; [done|].
          intros [?|[?|?%elem_of_empty]]; done.
    - split; [|done]. intros _. left. by apply Hsize. }
  destruct (_ && _ && _) eqn:Hf.
  - intros [= <- <- <-].
    split; [split; [done|]|split; [done|split; [by intros [? ?]|by intros [? ?]]]].
    intros [Hn _]. by apply Hnames in Hn.
  - assert (Hpass := proj1 Hnames eq_refl).
    destruct (unmarshalRelease event) as [e|r] eqn:Hd.
    + intros [= <- <- <-].
      split; [split; [done|]|split; [done|split; [by intros [? ?]|]]].
      * by intros [_ (r & ? & _)].
      * intros _. by exists e.
    + destruct (MatchLabelFilters _ _) eqn:Hl; cbn [negb]; intros [= <- <- <-].
      * split; [split; [|done]|split; [done|split; [done|by intros [? ?]]]].
        intros _. split; [done|]. by exists r.
      * split; [split; [done|]|split; [done|split; [by intros [? ?]|by intros [? ?]]]].
        intros [_ (r' & [= <-] & Hl' & _)]. congruence.
Qed.

End ReleasesPage.

Lemma StreamReleases_page_bounded_witness :
  let C := Fixture.collaborators in
  let req := protobuf.mkStreamReleasesRequest 2 "" [] [] true true in
  exists page rest,
    fst (StreamReleases req None [RecvEvent (Fixture.releaseEvent 10 "r4:app1")] None)
    = page :: rest
    /\ protobuf.StreamReleasesResponse_PageComplete page = true
    /\ Z.of_nat (length (protobuf.StreamReleasesResponse_Releases page)) <= 2.
Proof.
  intros C req.
  assert (Htok : ParsePageToken (protobuf.StreamReleasesRequest_PageToken req)
                 = inr (data.mkPageToken None 0)) by (vm_compute; reflexivity).
  assert (Hps : 0 < releases_pageSize req (data.mkPageToken None 0) < 2 ^ 63 - 1)
    by (vm_compute; split; reflexivity).
  assert (Hlist : eventRepo_ListEvents (releases_eventAppIDs req)
                    [ct.EventTypeRelease] ""
                    (BeforeIDInt64 (data.mkPageToken None 0)) None
                    (releases_count (releases_pageSize req (data.mkPageToken None 0)))
                  = inr (Fixture.list_events [ct.EventTypeRelease] 3))
    by (vm_compute; reflexivity).
  assert (Hlen : Z.of_nat (length (Fixture.list_events [ct.EventTypeRelease] 3))
                 <= releases_count (releases_pageSize req (data.mkPageToken None 0)))
    by (vm_compute; discriminate).
  exact (StreamReleases_page_bounded req _ _
           [RecvEvent (Fixture.releaseEvent 10 "r4:app1")] None Htok Hps Hlist Hlen).
Defined.

Lemma StreamReleases_single_row_panics_witness :
  let C := Fixture2.collaborators in
  let req := protobuf.mkStreamReleasesRequest 0 "" [] [] false false in
  StreamReleases req None [] None = ([], Panics "index out of range").
Proof.
  intros C req.
  assert (Htok : ParsePageToken (protobuf.StreamReleasesRequest_PageToken req)
                 = inr (data.mkPageToken None 0)) by (vm_compute; reflexivity).
  assert (Hps : releases_pageSize req (data.mkPageToken None 0) = 0)
    by (vm_compute; reflexivity).
  assert (Hlist : eventRepo_ListEvents (releases_eventAppIDs req)
                    [ct.EventTypeRelease] ""
                    (BeforeIDInt64 (data.mkPageToken None 0)) None 0
                  = inr [Fixture.releaseEvent 7 "r1:app1"])
    by (vm_compute; reflexivity).
  exact (StreamReleases_single_row_panics req _ _ [] None Htok Hps Hlist).
Defined.

Lemma maybeAcceptRelease_accepts_witness :
  let C := Fixture.collaborators in
  let req := protobuf.mkStreamReleasesRequest 0 ""
               ["apps/app1/releases/r3"; "apps/app2"] [] true true in
  let event :=
    ct.mkEvent 11 "app3" ct.EventTypeRelease "r8" ct.EventOpCreate "r8:app3" 0 in
  let other :=
    ct.mkEvent 10 "app2" ct.EventTypeRelease "r9" ct.EventOpCreate "r9:app2" 0 in
  maybeAcceptRelease req event = (None, false, None)
  /\ maybeAcceptRelease req other
     = (Some (Fixture.pbRelease "app2" "r9"), true, None)
  /\ (true = true
      <-> (releases_releaseIDs req = ∅
           \/ ct.Event_ObjectID other ∈ releases_releaseIDs req
           \/ ct.Event_AppID other ∈ releases_appIDs req)
          /\ exists r, unmarshalRelease other = inr r
                       /\ MatchLabelFilters (protobuf.Release_Labels r)
                            (protobuf.StreamReleasesRequest_LabelFilters req) = true
                       /\ Some (Fixture.pbRelease "app2" "r9") = Some r).
Proof.
  intros C req event other.
  assert (H1 : maybeAcceptRelease req event = (None, false, None))
    by (vm_compute; reflexivity).
  assert (H2 : maybeAcceptRelease req other
               = (Some (Fixture.pbRelease "app2" "r9"), true, None))
    by (vm_compute; reflexivity).
  split; [exact H1|]. split; [exact H2|].
  exact (proj1 (maybeAcceptRelease_accepts req other _ _ _ H2)).
Defined.

(** ** StreamFormations: what it tracks and sends *)

Section FormationsMore.
Context `{C : Collaborators}.

Lemma refreshFormation_singleton (n : nat)
    (formations formations' : gmap string protobuf.Formation) :
  formations = ∅ \/ (exists g, formations = {[ "" := g ]}) ->
  refreshFormation n "" "" formations = inr formations' ->
  exists f scaleReqID,
    formations' = {[ "" := f ]}
    /\ protobuf.Formation_ScaleRequest f = "apps//releases//scale/" +:+ scaleReqID.
Proof.
  intros Hinit. unfold refreshFormation.
  destruct (formationRepo_Get n "" "") as [err|ctFormation]; [done|].
  destruct (formationRepo_GetExpanded n "" "") as [err|ctEFormation]; [done|].
  destruct (scaleRequestID_QueryRow n "" "") as [err|scaleReqID]; [done|].
  intros [= <-]. eexists _, scaleReqID.
  split; [destruct Hinit as [->|[g ->]];
          [by rewrite insert_empty|by rewrite insert_singleton_eq]
         |reflexivity].
Qed.

Lemma formations_sendResponse_singleton (f : protobuf.Formation) :
  formations_sendResponse {[ "" := f ]}
  = [SendFormations (protobuf.mkStreamFormationsResponse [f])].
Proof.
  unfold formations_sendResponse. by rewrite map_size_singleton, map_to_list_singleton.
Qed.

Lemma StreamFormations_loop_single (n : nat) (releaseIDs : gmap string string)
    (formations : gmap string protobuf.Formation) (received : list Recv)
    (resp : protobuf.StreamFormationsResponse) :
  formations = ∅ \/ (exists g, formations = {[ "" := g ]}) ->
  SendFormations resp ∈ fst (StreamFormations_loop n releaseIDs formations received) ->
  exists f scaleReqID,
    protobuf.StreamFormationsResponse_Formations resp = [f]
    /\ protobuf.Formation_ScaleRequest f = "apps//releases//scale/" +:+ scaleReqID.
Proof.
  revert n releaseIDs formations.
  induction received as [|r rest IH]; intros n releaseIDs formations Hinit;
    cbn [StreamFormations_loop];
    destruct (refreshFormation n "" "" formations) as [err|formations'] eqn:Href;
    cbn [fst].
  1,3: intros [Heq|Hin%elem_of_nil]%elem_of_cons; done.
  all: destruct (refreshFormation_singleton n _ _ Hinit Href) as (f & id & -> & Hf);
    rewrite formations_sendResponse_singleton.
  - cbn [fst]. intros [Heq|[Heq|Hin%elem_of_nil]%elem_of_cons]%elem_of_cons;
      try done. injection Heq as ->. by exists f, id.
  - destruct r as [event|]; cbn [fst].
    + match goal with
      | |- context [StreamFormations_loop (S n) ?rs _ rest] =>
          specialize (IH (S n) rs {[ "" := f ]});
          destruct (StreamFormations_loop (S n) rs {[ "" := f ]} rest) as [later r]
      end.
      cbn [fst] in *.
      intros [Heq|[Heq|Hin]%elem_of_cons]%elem_of_cons; try done.
      * injection Heq as ->. by exists f, id.
      * apply IH; [right; by exists f|done].
    + intros [Heq|[Heq|Hin%elem_of_nil]%elem_of_cons]%elem_of_cons; try done.
      injection Heq as ->. by exists f, id.
Qed.

(** X18.  However many apps the name filters name, every response of
    StreamFormations lists one formation only, the one refreshed for the
    empty app id and the empty release id; the resource name of its scale
    request starts with [apps//releases//scale/]. *)
Theorem StreamFormations_sends_one_formation
    (req : protobuf.StreamFormationsRequest) (subscribeErr sub_Err : option error)
    (received : list Recv) (resp : protobuf.StreamFormationsResponse) :
  SendFormations resp ∈ fst (StreamFormations req subscribeErr received sub_Err) ->
  exists f scaleReqID,
    protobuf.StreamFormationsResponse_Formations resp = [f]
    /\ protobuf.Formation_ScaleRequest f = "apps//releases//scale/" +:+ scaleReqID.
Proof.
  unfold StreamFormations.
  destruct (loadReleaseIDs _ ∅) as [err|releaseIDs]; [by intros ?%elem_of_nil|].
  destruct subscribeErr; [by intros ?%elem_of_nil|].
  destruct (StreamFormations_loop 0 releaseIDs ∅ received) as [effects r] eqn:Hloop.
  cbn [fst]. intros Hin.
  apply (StreamFormations_loop_single 0 releaseIDs ∅ received resp); [by left|].
  by rewrite Hloop.
Qed.

(** X19.  The loop that loads the current releases succeeds only if the
    store has a release for every app id; the map then binds every app id
    to the id of its release and leaves the other keys as they were.  It
    fails with the error of the store for one of the app ids, and then
    StreamFormations returns an error without any refresh or response. *)
Theorem loadReleaseIDs_binds_every_app (appIDs : list string)
    (releaseIDs : gmap string string) :
  match loadReleaseIDs appIDs releaseIDs with
  | inr loaded =>
      (forall appID, appID ∈ appIDs ->
         exists ctRelease,
           appRepo_GetRelease appID = inr ctRelease
           /\ loaded !! appID = Some (ct.Release_ID ctRelease))
      /\ (forall appID, appID ∉ appIDs -> loaded !! appID = releaseIDs !! appID)
  | inl err =>
      (exists appID, appID ∈ appIDs /\ appRepo_GetRelease appID = inl err)
      /\ forall req subscribeErr received sub_Err,
          ParseAppIDsFromNameFilters (protobuf.StreamFormationsRequest_NameFilters req)
          = appIDs ->
          releaseIDs = ∅ ->
          exists e, StreamFormations req subscribeErr received sub_Err
                    = ([], Done (Some e))
  end.
Proof.
  revert releaseIDs. induction appIDs as [|appID rest IH]; intros releaseIDs.
  - cbn. split; [by intros ? ?%elem_of_nil|done].
  - cbn [loadReleaseIDs].
    destruct (appRepo_GetRelease appID) as [err|ctRelease] eqn:Hget.
    + split; [exists appID; split; [left|done]|].
      intros req se received subErr Hids ->. unfold StreamFormations.
      rewrite Hids. cbn [loadReleaseIDs]. rewrite Hget. eauto.
    + specialize (IH (<[appID := ct.Release_ID ctRelease]> releaseIDs)).
      destruct (loadReleaseIDs rest _) as [err|loaded] eqn:Hload.
      * destruct IH as [(a & Ha & Hfail) _].
        split; [exists a; split; [by right|done]|].
        intros req se received subErr Hids ->. unfold StreamFormations.
        rewrite Hids. cbn [loadReleaseIDs]. rewrite Hget, Hload. eauto.
      * destruct IH as [Hin Hout]. split.
        -- intros a Ha. destruct (decide (a ∈ rest)) as [Hr|Hr]; [by apply Hin|].
           apply elem_of_cons in Ha as [->|Ha]; [|done].
           exists ctRelease. split; [done|].
           by rewrite (Hout appID Hr), lookup_insert_eq.
        -- intros a Ha. apply not_elem_of_cons in Ha as [Hne Hr].
           by rewrite (Hout a Hr), lookup_insert_ne.
Qed.

End FormationsMore.

(** ** CreateDeployment: the end of the stream *)

Section DeploymentMore.
Context `{C : Collaborators}.

Lemma filter_calls_sends (sends : list DeploymentEffect) :
  Forall (fun eff => isCallCreateScale eff = false) sends ->
  filter (fun eff => isCallCreateScale eff = true) sends = [].
Proof.
  induction 1 as [|eff sends Heff _ IH]; [done|].
  rewrite filter_cons, IH. case_decide; congruence.
Qed.

(** The effects of the loop are sends, then at most one call of
    [createScale], then at most one send. *)
Lemma CreateDeployment_loop_shape
    (scale : protobuf.CreateScaleRequest -> Run ScaleResult)
    (req : protobuf.CreateDeploymentRequest) (n : nat) (received : list Recv) :
  exists sends tail : list DeploymentEffect,
    fst (CreateDeployment_loop scale req n received) = sends ++ tail
    /\ Forall (fun eff => isCallCreateScale eff = false) sends
    /\ (tail = []
        \/ protobuf.CreateDeploymentRequest_ScaleRequest req <> None
           /\ exists sreq,
               tail = [CallCreateScale sreq]
               \/ exists ev, tail = [CallCreateScale sreq; SendEvent ev]).
Proof.
  revert n. induction received as [|r rest IH]; intros n.
  - exists [], []. by repeat split; [constructor|left].
  - destruct r as [ctEvent|];
      [|exists [], []; by repeat split; [constructor|left]].
    cbn [CreateDeployment_loop].
    destruct (negb _); [apply IH|].
    destruct (Unmarshal_DeploymentEvent _) as [err|de]; [apply IH|].
    destruct (deploymentRepo_Get n _) as [err|d]; [apply IH|].
    specialize (IH (S n)).
    destruct (CreateDeployment_loop scale req (S n) rest) as [later r0].
    cbn [fst] in IH. destruct IH as (sends & tail & -> & Hsends & Htail).
    assert (Hnil : exists sends0 tail0 : list DeploymentEffect,
               [] = sends0 ++ tail0
               /\ Forall (fun eff => isCallCreateScale eff = false) sends0
               /\ (tail0 = []
                   \/ protobuf.CreateDeploymentRequest_ScaleRequest req <> None
                      /\ exists sreq,
                          tail0 = [CallCreateScale sreq]
                          \/ exists ev, tail0 = [CallCreateScale sreq; SendEvent ev]))
      by (exists [], []; by repeat split; [constructor|left]).
    assert (Hsend : forall ev, exists sends0 tail0 : list DeploymentEffect,
               [SendEvent ev] = sends0 ++ tail0
               /\ Forall (fun eff => isCallCreateScale eff = false) sends0
               /\ (tail0 = []
                   \/ protobuf.CreateDeploymentRequest_ScaleRequest req <> None
                      /\ exists sreq,
                          tail0 = [CallCreateScale sreq]
                          \/ exists ev, tail0 = [CallCreateScale sreq; SendEvent ev]))
      by (intros ev; exists [SendEvent ev], [];
          by repeat split; [repeat constructor|left]).
    assert (Hmore : forall ev, exists sends0 tail0 : list DeploymentEffect,
               [SendEvent ev] ++ sends ++ tail = sends0 ++ tail0
               /\ Forall (fun eff => isCallCreateScale eff = false) sends0
               /\ (tail0 = []
                   \/ protobuf.CreateDeploymentRequest_ScaleRequest req <> None
                      /\ exists sreq,
                          tail0 = [CallCreateScale sreq]
                          \/ exists ev, tail0 = [CallCreateScale sreq; SendEvent ev]))
      by (intros ev; exists (SendEvent ev :: sends), tail;
          by repeat split; [constructor|]).
    destruct (protobuf.CreateDeploymentRequest_ScaleRequest req) as [sr|] eqn:Hsr.
    + assert (Hcall : forall sreq, exists sends0 tail0 : list DeploymentEffect,
                 [CallCreateScale sreq] = sends0 ++ tail0
                 /\ Forall (fun eff => isCallCreateScale eff = false) sends0
                 /\ (tail0 = []
                     \/ Some sr <> None
                        /\ exists sreq,
                            tail0 = [CallCreateScale sreq]
                            \/ exists ev, tail0 = [CallCreateScale sreq; SendEvent ev]))
        by (intros sreq; exists [], [CallCreateScale sreq];
            repeat split; [constructor|right; split; [done|eauto]]).
      assert (Hboth : forall sreq ev, exists sends0 tail0 : list DeploymentEffect,
                 [CallCreateScale sreq; SendEvent ev] = sends0 ++ tail0
                 /\ Forall (fun eff => isCallCreateScale eff = false) sends0
                 /\ (tail0 = []
                     \/ Some sr <> None
                        /\ exists sreq,
                            tail0 = [CallCreateScale sreq]
                            \/ exists ev, tail0 = [CallCreateScale sreq; SendEvent ev]))
        by (intros sreq ev; exists [], [CallCreateScale sreq; SendEvent ev];
            repeat split; [constructor|right; split; [done|eauto]]).
      destruct (String.eqb (ct.Deployment_Status d) "complete") eqn:Hc.
      * destruct (scale _) as [res| |]; [|apply Hcall|apply Hcall].
        destruct de as [de|]; [|apply Hcall]. cbn [app].
        destruct (String.eqb (ct.Deployment_Status d) "failed"); apply Hboth.
      * destruct de as [de|]; [|apply Hnil]. cbn [app].
        destruct (String.eqb (ct.Deployment_Status d) "failed"); [apply Hsend|].
        apply Hmore.
    + destruct de as [de|]; [|apply Hnil]. cbn [app].
      destruct (String.eqb (ct.Deployment_Status d) "failed"); [apply Hsend|].
      destruct (String.eqb (ct.Deployment_Status d) "complete"); [apply Hsend|].
      apply Hmore.
Qed.

(** X20.  CreateDeployment calls [createScale] at most once, and at the
    very end only: every effect before the call is a send, the call is
    followed by at most one effect, and that effect is a send (of the
    deployment event that made the call); a request that carries no scale
    request makes no call at all. *)
Theorem CreateDeployment_scales_last
    (scale : protobuf.CreateScaleRequest -> Run ScaleResult)
    (req : protobuf.CreateDeploymentRequest) (n : nat) (received : list Recv) :
  (length (filter (fun eff => isCallCreateScale eff = true)
             (fst (CreateDeployment_loop scale req n received))) <= 1)%nat
  /\ (forall (i : nat) (sreq : protobuf.CreateScaleRequest),
        fst (CreateDeployment_loop scale req n received) !! i
        = Some (CallCreateScale sreq) ->
        (length (fst (CreateDeployment_loop scale req n received)) <= i + 2)%nat
        /\ (forall eff,
              fst (CreateDeployment_loop scale req n received) !! S i = Some eff ->
              exists ev, eff = SendEvent ev)
        /\ (forall (j : nat) eff,
              (j < i)%nat ->
              fst (CreateDeployment_loop scale req n received) !! j = Some eff ->
              exists ev, eff = SendEvent ev))
  /\ (protobuf.CreateDeploymentRequest_ScaleRequest req = None ->
      filter (fun eff => isCallCreateScale eff = true)
             (fst (CreateDeployment_loop scale req n received)) = []).
Proof.
  destruct (CreateDeployment_loop_shape scale req n received)
    as (sends & tail & -> & Hsends & Htail).
  assert (Hsend : forall eff, isCallCreateScale eff = false -> exists ev, eff = SendEvent ev)
    by (intros [sreq|ev] ?; [done|by exists ev]).
  split; [|split].
  - rewrite filter_app, (filter_calls_sends sends Hsends). cbn [app].
    destruct Htail as [->|(_ & sreq & [->|[ev ->]])]; vm_compute; lia.
  - intros i sreq Hi.
    destruct (decide (i < length sends)%nat) as [Hlt|Hge].
    { rewrite lookup_app_l in Hi by done.
      by apply (proj1 (Forall_lookup _ _) Hsends) in Hi. }
    rewrite lookup_app_r in Hi by lia.
    assert (Hi0 : i = length sends
                  /\ exists sreq0, tail = [CallCreateScale sreq0]
                                   \/ exists ev, tail = [CallCreateScale sreq0; SendEvent ev]).
    { destruct Htail as [->|(_ & sreq0 & Hshape)]; [done|].
      split; [|by exists sreq0].
      destruct (i - length sends)%nat as [|[|k]] eqn:Hk; [lia| |];
        by destruct Hshape as [->|[ev ->]]. }
    destruct Hi0 as [-> (sreq0 & Hshape)]. rewrite length_app. split; [|split].
    + destruct Hshape as [->|[ev ->]]; cbn; lia.
    + intros eff. rewrite lookup_app_r by lia.
      replace (S (length sends) - length sends)%nat with 1%nat by lia.
      destruct Hshape as [->|[ev ->]]; [done|]. intros [= <-]. by exists ev.
    + intros j eff Hj. rewrite lookup_app_l by done. intros Hl.
      apply Hsend. by apply (proj1 (Forall_lookup _ _) Hsends) in Hl.
  - intros Hnone. destruct Htail as [->|[Hsome _]]; [|done].
    rewrite app_nil_r. by apply filter_calls_sends.
Qed.

(** X21.  A deployment event whose record the store reports failed ends
    the stream: the event is sent, no scale is made whatever the request
    carries, the events that follow are not looked at, and the loop
    returns the error that [fmt.Errorf] builds from the error field of the
    event, which it takes as a format with no operands; the event that
    was sent carries the error field as it is. *)
Theorem CreateDeployment_failed_ends_stream
    (scale : protobuf.CreateScaleRequest -> Run ScaleResult)
    (req : protobuf.CreateDeploymentRequest) (n : nat)
    (ctEvent : ct.Event) (rest : list Recv)
    (de : ct.DeploymentEvent) (d : ct.Deployment) :
  ct.Event_ObjectType ctEvent = "deployment" ->
  Unmarshal_DeploymentEvent (ct.Event_Data ctEvent) = inr (Some de) ->
  deploymentRepo_Get n (ct.Event_ObjectID ctEvent) = inr d ->
  ct.Deployment_Status d = "failed" ->
  CreateDeployment_loop scale req n (RecvEvent ctEvent :: rest)
  = ([SendEvent
        (protobuf.mkDeploymentEvent (ConvertDeployment d)
           (ct.DeploymentEvent_JobType de)
           (ConvertDeploymentEventJobState (ct.DeploymentEvent_JobState de))
           (ct.DeploymentEvent_Error de)
           (TimestampProto (ct.Event_CreatedAt ctEvent)))],
     Done (Return (PlainError (fmt_Sprintf (ct.DeploymentEvent_Error de))))).
Proof.
  intros Htype Hde Hd Hstatus. cbn [CreateDeployment_loop].
  rewrite Htype, Hde, Hd, Hstatus. cbn [String.eqb Ascii.eqb Bool.eqb negb].
  by destruct (protobuf.CreateDeploymentRequest_ScaleRequest req).
Qed.

End DeploymentMore.

(** ** The subscription fabric: delivery and the error cell *)

Section FabricMore.
Import Fabric.

Lemma step_inFlight (i : nat) (a : Action) (e : EventListener) :
  inFlight i e ++ accepted i a e = handed i a e ++ inFlight i (step a e).
Proof.
  unfold inFlight.
  destruct a as [j ev|j err|j|j|]; cbn [step accepted handed app].
  - destruct (decide (j = i)) as [->|Hne].
    + rewrite bool_decide_eq_true_2 by done.
      destruct (subs e !! i) as [sub|] eqn:Hsub; [|by rewrite Hsub, app_nil_r].
      destruct (closed (sub_Events sub)) eqn:Hc; [by rewrite Hsub, app_nil_r|].
      cbn [subs forwarders].
      rewrite list_lookup_insert_eq by (by eapply lookup_lt_Some).
      cbn. by rewrite app_assoc.
    + rewrite bool_decide_eq_false_2 by done. rewrite app_nil_r.
      destruct (subs e !! j) as [sub|]; [|done].
      destruct (closed (sub_Events sub)); [done|]. cbn [subs forwarders].
      by rewrite list_lookup_insert_ne.
  - rewrite app_nil_r. destruct (subs e !! j) as [sub|] eqn:Hsub; [|done].
    cbn [subs forwarders]. destruct (decide (j = i)) as [->|Hne].
    + rewrite list_lookup_insert_eq by (by eapply lookup_lt_Some).
      by rewrite Hsub.
    + by rewrite list_lookup_insert_ne.
  - rewrite app_nil_r.
    destruct (subs e !! j) as [sub|] eqn:Hsub; [|done].
    destruct (forwarders e !! j) as [f|] eqn:Hf; [|done].
    destruct (forward sub f) as [sub' f'] eqn:Hfw. cbn [subs forwarders].
    destruct (decide (j = i)) as [->|Hne].
    + rewrite !list_lookup_insert_eq by (by eapply lookup_lt_Some).
      rewrite Hsub, Hf. unfold forward in Hfw.
      destruct f as [|ev0|]; try (by injection Hfw as <- <-).
      destruct (queue (sub_Events sub)) as [|ev q] eqn:Hq.
      * destruct (closed (sub_Events sub)); injection Hfw as <- <-; by rewrite Hq.
      * by injection Hfw as <- <-.
    + by rewrite !list_lookup_insert_ne.
  - destruct (decide (j = i)) as [->|Hne].
    + rewrite bool_decide_eq_true_2 by done. rewrite app_nil_r.
      destruct (forwarders e !! i) as [[|ev|]|] eqn:Hf; try (by rewrite Hf).
      destruct (closed (Events e)); [by rewrite Hf|]. cbn [subs forwarders].
      by rewrite list_lookup_insert_eq by (by eapply lookup_lt_Some).
    + rewrite bool_decide_eq_false_2 by done. rewrite app_nil_r. cbn [app].
      destruct (forwarders e !! j) as [[|ev|]|]; try done.
      destruct (closed (Events e)); [done|]. cbn [subs forwarders].
      by rewrite list_lookup_insert_ne.
  - rewrite app_nil_r. unfold Close.
    destruct (fold_left _ _ _) as [err once]. cbn [subs forwarders].
    rewrite list_lookup_fmap. by destruct (subs e !! i).
Qed.

Lemma run_inFlight (i : nat) (acts : list Action) (e : EventListener) :
  inFlight i e ++ published i acts e = delivered i acts e ++ inFlight i (run acts e).
Proof.
  revert e. induction acts as [|a acts IH]; intros e.
  - cbn. by rewrite app_nil_r.
  - cbn [published delivered run fold_left]. fold (run acts (step a e)).
    rewrite app_assoc, step_inFlight, <- !app_assoc. f_equal. apply IH.
Qed.

(** X22.  On its way through one subscriber no event is lost, doubled or
    reordered: under every schedule, the events the data listener has
    published to a subscriber are the events the handler has received from
    that subscriber's forwarder, in the same order, followed by those still
    on their way (held by the forwarder or queued in the channel). *)
Theorem fabric_delivers_in_order (appIDs : list string) (i : nat)
    (acts : list Action) :
  published i acts (subscribeEvents appIDs)
  = delivered i acts (subscribeEvents appIDs)
    ++ inFlight i (run acts (subscribeEvents appIDs)).
Proof.
  rewrite <- run_inFlight.
  assert (Hinit : inFlight i (subscribeEvents appIDs) = []).
  { unfold inFlight, subscribeEvents. cbn [subs forwarders].
    rewrite !list_lookup_fmap.
    by destruct ((if (length appIDs =? 0)%nat then [""] else appIDs) !! i). }
  by rewrite Hinit.
Qed.

Lemma fold_Close_sub (l : list EventSubscriber) (err : option error) (once : bool) :
  fold_left Close_sub l (err, once)
  = if once then (err, true)
    else match head (omap sub_Err l) with
         | Some first => (Some first, true)
         | None => (err, false)
         end.
Proof.
  revert err once. induction l as [|sub l IH]; intros err once.
  - by destruct once.
  - cbn [fold_left].
    assert (Hstep : Close_sub (err, once) sub
                    = match sub_Err sub with
                      | Some e => if once then (err, once) else (Some e, true)
                      | None => (err, once)
                      end) by reflexivity.
    rewrite Hstep. cbn [omap list_omap].
    destruct (sub_Err sub) as [e|]; [|by rewrite IH].
    destruct once; by rewrite IH.
Qed.

Lemma omap_Err_Close (l : list EventSubscriber) :
  omap sub_Err (map EventSubscriber_Close l) = omap sub_Err l.
Proof.
  induction l as [|sub l IH]; [done|].
  change (omap sub_Err (map EventSubscriber_Close (sub :: l)))
    with (match sub_Err sub with
          | Some e => e :: omap sub_Err (map EventSubscriber_Close l)
          | None => omap sub_Err (map EventSubscriber_Close l)
          end).
  by rewrite IH.
Qed.

(** X23.  Close sets the error cell at most once and to the first error it
    meets: with the once-guard unused, the cell becomes the error of the
    first subscriber, in order, that has one, and stays as it is if none
    has; with the guard used it stays as it is.  Closing twice is the same
    as closing once. *)
Theorem Close_first_error_wins (e : EventListener) :
  Err (Close e)
  = (if errOnce e then Err e
     else match head (omap sub_Err (subs e)) with
          | Some first => Some first
          | None => Err e
          end)
  /\ Close (Close e) = Close e.
Proof.
  assert (Hfold := fold_Close_sub (map EventSubscriber_Close (subs e)) (Err e)
                     (errOnce e)).
  rewrite omap_Err_Close in Hfold.
  split.
  - unfold Close. rewrite Hfold.
    destruct (errOnce e); [done|]. by destruct (head _).
  - assert (Hmap : forall l, map EventSubscriber_Close (map EventSubscriber_Close l)
                             = map EventSubscriber_Close l).
    { intros l. rewrite map_map. apply map_ext. by intros [[q c] er]. }
    assert (Hclose : forall err once,
               fold_left Close_sub (map EventSubscriber_Close (subs e))
                 (Err e, errOnce e) = (err, once) ->
               fold_left Close_sub (map EventSubscriber_Close (subs e)) (err, once)
               = (err, once)).
    { intros err once. rewrite Hfold, fold_Close_sub, omap_Err_Close.
      destruct (errOnce e); [by intros [= <- <-]|].
      destruct (head (omap sub_Err (subs e))); by intros [= <- <-]. }
    unfold Close.
    destruct (fold_left Close_sub (map EventSubscriber_Close (subs e))
                (Err e, errOnce e)) as [err once] eqn:Hf.
    cbn [subs Err errOnce Events forwarders]. by rewrite Hmap, (Hclose _ _ eq_refl).
Qed.

Lemma step_Err (a : Action) (e : EventListener) :
  a <> DoClose -> Err (step a e) = Err e /\ errOnce (step a e) = errOnce e.
Proof.
  intros Hne. destruct a as [j ev|j err|j|j|]; cbn [step]; [| | | |done].
  - destruct (subs e !! j) as [sub|]; [|done]. by destruct (closed (sub_Events sub)).
  - by destruct (subs e !! j).
  - destruct (subs e !! j) as [sub|], (forwarders e !! j) as [f|]; try done.
    by destruct (forward sub f).
  - destruct (forwarders e !! j) as [[| |]|]; try done.
    by destruct (closed (Events e)).
Qed.

Lemma step_lengths (a : Action) (e : EventListener) :
  length (subs (step a e)) = length (subs e)
  /\ length (forwarders (step a e)) = length (forwarders e).
Proof.
  destruct a as [j ev|j err|j|j|]; cbn [step].
  - destruct (subs e !! j) as [sub|]; [|done].
    destruct (closed (sub_Events sub)); [done|]. cbn. by rewrite length_insert.
  - destruct (subs e !! j); [|done]. cbn. by rewrite length_insert.
  - destruct (subs e !! j) as [sub|], (forwarders e !! j) as [f|]; try done.
    destruct (forward sub f). cbn. by rewrite !length_insert.
  - destruct (forwarders e !! j) as [[| |]|]; try done.
    destruct (closed (Events e)); [done|]. cbn. by rewrite length_insert.
  - unfold Close. destruct (fold_left _ _ _). cbn. by rewrite length_map.
Qed.

(** X24.  subscribeEvents opens one subscriber and one forwarder for each
    app id, and a single pair (the wildcard) when no app id is given; no
    schedule changes their number.  And until the handler calls Close, the
    error cell of the subscription stays nil, whatever errors the
    subscribers have met. *)
Theorem subscription_shape_and_error_cell (appIDs : list string)
    (acts : list Action) :
  length (subs (run acts (subscribeEvents appIDs))) = Nat.max 1 (length appIDs)
  /\ length (forwarders (run acts (subscribeEvents appIDs)))
     = Nat.max 1 (length appIDs)
  /\ (DoClose ∉ acts -> Err (run acts (subscribeEvents appIDs)) = None).
Proof.
  assert (Hlen : forall l e,
             length (subs (run l e)) = length (subs e)
             /\ length (forwarders (run l e)) = length (forwarders e)).
  { induction l as [|a l IH]; intros e; [done|].
    cbn [run fold_left]. fold (run l (step a e)).
    destruct (IH (step a e)) as [-> ->]. apply step_lengths. }
  assert (Hinit : length (subs (subscribeEvents appIDs)) = Nat.max 1 (length appIDs)
                  /\ length (forwarders (subscribeEvents appIDs))
                     = Nat.max 1 (length appIDs)).
  { unfold subscribeEvents. cbn [subs forwarders]. rewrite !length_map.
    destruct appIDs as [|a l]; cbn; lia. }
  destruct (Hlen acts (subscribeEvents appIDs)) as [-> ->].
  split; [apply Hinit|]. split; [apply Hinit|].
  assert (Herr : forall l e, DoClose ∉ l -> Err (run l e) = Err e).
  { induction l as [|a l IH]; intros e Hno; [done|].
    cbn [run fold_left]. fold (run l (step a e)).
    rewrite IH by (intros H; apply Hno; by right).
    apply step_Err. intros ->. apply Hno. left. }
  intros Hno. by rewrite Herr.
Qed.

End FabricMore.

Lemma subscription_shape_and_error_cell_witness :
  let ev := Fixture.scaleEvent 40 "sr1:pending" in
  let acts := [Fabric.Fail 0 (PlainError "slow consumer"); Fabric.Publish 0 ev;
               Fabric.Forward 0; Fabric.Receive 0] in
  length (Fabric.subs (Fabric.run acts (Fabric.subscribeEvents []))) = 1%nat
  /\ (Fabric.DoClose ∉ acts)
  /\ Fabric.Err (Fabric.run acts (Fabric.subscribeEvents [])) = None
  /\ Fabric.Err (Fabric.run (acts ++ [Fabric.DoClose]) (Fabric.subscribeEvents []))
     = Some (PlainError "slow consumer").
Proof.
  intros ev acts.
  assert (Hno : Fabric.DoClose ∉ acts).
  { intros H. repeat (apply elem_of_cons in H as [H|H]; [discriminate|]).
    by apply elem_of_nil in H. }
  destruct (subscription_shape_and_error_cell [] acts) as (Hs & _ & Herr).
  split; [exact Hs|]. split; [exact Hno|]. split; [exact (Herr Hno)|].
  vm_compute; reflexivity.
Defined.

Lemma StreamFormations_sends_one_formation_witness :
  let C := Fixture2.collaborators in
  let req := protobuf.mkStreamFormationsRequest ["apps/app1"; "apps/app2"] in
  let event := Fixture.event 50 ct.EventTypeAppRelease "r2" "" in
  let resp :=
    protobuf.mkStreamFormationsResponse
      [protobuf.mkFormation "apps//releases/" protobuf.SCALE_COMPLETE
         "apps//releases//scale/sr1" ∅ ∅] in
  fst (StreamFormations req None [RecvEvent event] None)
  = [CallRefreshFormation "" ""; SendFormations resp;
     CallRefreshFormation "" ""; SendFormations resp]
  /\ exists f scaleReqID,
      protobuf.StreamFormationsResponse_Formations resp = [f]
      /\ protobuf.Formation_ScaleRequest f = "apps//releases//scale/" +:+ scaleReqID.
Proof.
  intros C req event resp.
  assert (H : fst (StreamFormations req None [RecvEvent event] None)
              = [CallRefreshFormation "" ""; SendFormations resp;
                 CallRefreshFormation "" ""; SendFormations resp])
    by (vm_compute; reflexivity).
  split; [exact H|].
  apply (StreamFormations_sends_one_formation req None None [RecvEvent event] resp).
  rewrite H. right. left.
Defined.

Lemma loadReleaseIDs_binds_every_app_witness :
  let C := Fixture.collaborators in
  loadReleaseIDs ["app1"; "app2"] ∅ = inr {[ "app1" := "r1"; "app2" := "r1" ]}
  /\ match loadReleaseIDs ["app1"; "app2"] ∅ with
     | inr loaded =>
         (forall appID, appID ∈ ["app1"; "app2"] ->
            exists ctRelease,
              appRepo_GetRelease appID = inr ctRelease
              /\ loaded !! appID = Some (ct.Release_ID ctRelease))
         /\ (forall appID, appID ∉ ["app1"; "app2"] ->
               loaded !! appID = (∅ : gmap string string) !! appID)
     | inl err =>
         (exists appID, appID ∈ ["app1"; "app2"] /\ appRepo_GetRelease appID = inl err)
         /\ forall req subscribeErr received sub_Err,
             ParseAppIDsFromNameFilters
               (protobuf.StreamFormationsRequest_NameFilters req)
             = ["app1"; "app2"] ->
             (∅ : gmap string string) = ∅ ->
             exists e, StreamFormations req subscribeErr received sub_Err
                       = ([], Done (Some e))
     end.
Proof.
  intros C. split; [vm_compute; reflexivity|].
  exact (loadReleaseIDs_binds_every_app ["app1"; "app2"] ∅).
Defined.

Lemma CreateDeployment_scales_last_witness :
  let C := Fixture.collaborators in
  let succeeding :=
    fun r => createScale r None [SelectEvent (Fixture.scaleEvent 23 "sr1:complete")] None in
  let sr := protobuf.mkCreateScaleRequest "" {[ "web" := 2 ]} ∅ in
  let req := protobuf.mkCreateDeploymentRequest "apps/app1" "apps/app1/releases/r2" (Some sr) in
  let received := [RecvEvent (Fixture.event 21 "deployment" "d1" "running:up");
                   RecvEvent (Fixture.event 22 "deployment" "d1" "complete:up");
                   RecvEvent (Fixture.event 23 "deployment" "d1" "complete:up")] in
  let call :=
    CallCreateScale
      (protobuf.mkCreateScaleRequest "apps/app1/releases/r2" {[ "web" := 2 ]} ∅) in
  let sent status :=
    SendEvent
      (protobuf.mkDeploymentEvent
         (protobuf.mkDeployment "apps/app1/deployments/d1" status) "web" "up" "" 0) in
  fst (CreateDeployment_loop succeeding req 0 received)
  = [sent "running"; call; sent "complete"]
  /\ (length (filter (fun eff => isCallCreateScale eff = true)
                (fst (CreateDeployment_loop succeeding req 0 received))) <= 1)%nat
  /\ (length (fst (CreateDeployment_loop succeeding req 0 received)) <= 1 + 2)%nat
  /\ (exists ev, sent "complete" = SendEvent ev)
  /\ (exists ev, sent "running" = SendEvent ev).
Proof.
  intros C succeeding sr req received call sent.
  assert (Hall : fst (CreateDeployment_loop succeeding req 0 received)
                 = [sent "running"; call; sent "complete"])
    by (vm_compute; reflexivity).
  assert (H : fst (CreateDeployment_loop succeeding req 0 received) !! 1%nat
              = Some call) by (rewrite Hall; reflexivity).
  destruct (CreateDeployment_scales_last succeeding req 0 received)
    as (Hcount & Hlast & _).
  destruct (Hlast 1%nat _ H) as (Hlen & Hnext & Hbefore).
  split; [exact Hall|]. split; [exact Hcount|]. split; [exact Hlen|]. split.
  - apply Hnext. rewrite Hall. reflexivity.
  - apply (Hbefore 0%nat); [lia|]. rewrite Hall. reflexivity.
Defined.

Lemma CreateDeployment_failed_ends_stream_witness :
  let C := Fixture2.collaborators in
  let scale := fun r => createScale r None [SelectTimeout] None in
  let sr := protobuf.mkCreateScaleRequest "" {[ "web" := 2 ]} ∅ in
  let req := protobuf.mkCreateDeploymentRequest "apps/app1" "apps/app1/releases/r2" (Some sr) in
  let failed := Fixture.event 24 "deployment" "d2" "failed:crashed:disk 100% full" in
  let later := Fixture.event 25 "deployment" "d2" "complete:up" in
  fmt_Sprintf "disk 100% full" = "disk 100%!f(MISSING)ull"
  /\ CreateDeployment_loop scale req 0 [RecvEvent failed; RecvEvent later]
     = ([SendEvent
           (protobuf.mkDeploymentEvent
              (protobuf.mkDeployment "apps/app1/deployments/d2" "failed")
              "web" "crashed" "disk 100% full" 0)],
        Done (Return (PlainError (fmt_Sprintf "disk 100% full")))).
Proof.
  intros C scale sr req failed later.
  pose (de := ct.mkDeploymentEvent "failed" "web" "crashed" "disk 100% full").
  pose (d := ct.mkDeployment "d2" "app1" "r1" "r2" "failed").
  assert (Hde : Unmarshal_DeploymentEvent (ct.Event_Data failed) = inr (Some de))
    by (vm_compute; reflexivity).
  assert (Hd : deploymentRepo_Get 0 (ct.Event_ObjectID failed) = inr d)
    by (vm_compute; reflexivity).
  split; [vm_compute; reflexivity|].
  exact (CreateDeployment_failed_ends_stream scale req 0 failed [RecvEvent later]
           de d eq_refl Hde Hd eq_refl).
Defined.

(** ** StreamDeployments: the type filters *)

Section DeploymentsMore.
Context `{C : Collaborators}.

Lemma StreamDeployments_loop_matches (req : protobuf.StreamDeploymentsRequest)
    (n : nat) (received : list Recv) (resp : protobuf.StreamDeploymentsResponse) :
  resp ∈ fst (StreamDeployments_loop req n received) ->
  exists d,
    protobuf.StreamDeploymentsResponse_Deployments resp = [d]
    /\ ReleaseTypeMatcher_Match (protobuf.StreamDeploymentsRequest_TypeFilters req)
         (protobuf.ExpandedDeployment_Type d) = true.
Proof.
  revert n. induction received as [|r rest IH]; intros n;
    [by intros ?%elem_of_nil|].
  destruct r as [ctEvent|]; cbn [StreamDeployments_loop];
    [|by intros ?%elem_of_nil].
  destruct (StreamDeployments_panics n ctEvent); [by intros ?%elem_of_nil|].
  specialize (IH (S n)).
  destruct (StreamDeployments_loop req (S n) rest) as [sent r]. cbn [fst] in *.
  intros [Hin|Hin]%elem_of_app; [|by apply IH].
  unfold StreamDeployments_event in Hin.
  destruct (Unmarshal_DeploymentEvent _) as [err|[de|]];
    [by apply elem_of_nil in Hin| |by apply elem_of_nil in Hin].
  destruct (deploymentRepo_GetExpanded n _) as [err|ctd];
    [by apply elem_of_nil in Hin|].
  destruct (ReleaseTypeMatcher_Match _ _) eqn:Hm; cbn [negb] in Hin;
    [|by apply elem_of_nil in Hin].
  apply list_elem_of_singleton in Hin as ->. eexists. by split.
Qed.

(** X25.  With type filters in the request, every deployment that
    StreamDeployments sends, in the page and in the live tail, is of a type
    the type matcher accepts; each response of the live tail carries one
    deployment. *)
Theorem StreamDeployments_sends_matching_types
    (req : protobuf.StreamDeploymentsRequest) (subscribeErr sub_Err : option error)
    (received : list Recv) (resp : protobuf.StreamDeploymentsResponse)
    (d : protobuf.ExpandedDeployment) :
  protobuf.StreamDeploymentsRequest_TypeFilters req <> [] ->
  resp ∈ fst (StreamDeployments req subscribeErr received sub_Err) ->
  d ∈ protobuf.StreamDeploymentsResponse_Deployments resp ->
  ReleaseTypeMatcher_Match (protobuf.StreamDeploymentsRequest_TypeFilters req)
    (protobuf.ExpandedDeployment_Type d) = true.
Proof.
  intros Hfilters. unfold StreamDeployments.
  destruct (listDeployments req) as [err|deployments] eqn:Hlist;
    [by intros ?%elem_of_nil|].
  assert (Hpage : forall x, x ∈ deployments ->
             ReleaseTypeMatcher_Match (protobuf.StreamDeploymentsRequest_TypeFilters req)
               (protobuf.ExpandedDeployment_Type x) = true).
  { unfold listDeployments in Hlist.
    destruct (ParsePageToken _) as [e|pageToken]; [done|].
    destruct (deploymentRepo_ListExpanded _ _ _) as [e|ctds]; [done|].
    destruct (protobuf.StreamDeploymentsRequest_TypeFilters req) as [|t ts];
      [done|].
    cbn [length Nat.eqb] in Hlist. injection Hlist as <-.
    intros x Hx. by apply list_elem_of_filter in Hx as [Hx _]. }
  destruct (negb _).
  - cbn [fst]. intros ->%list_elem_of_singleton. apply Hpage.
  - destruct subscribeErr.
    + cbn [fst]. intros ->%list_elem_of_singleton. apply Hpage.
    + destruct (StreamDeployments_loop req 0 received) as [sent r] eqn:Hloop.
      cbn [fst]. intros [->|Hin]%elem_of_cons; [apply Hpage|].
      destruct (StreamDeployments_loop_matches req 0 received resp) as (x & -> & Hx);
        [by rewrite Hloop|].
      by intros ->%list_elem_of_singleton.
Qed.

End DeploymentsMore.

Lemma StreamDeployments_sends_matching_types_witness :
  let C := Fixture.collaborators in
  let req := protobuf.mkStreamDeploymentsRequest 0 "" [] ["code"] true true in
  let received := [RecvEvent (Fixture.event 60 "deployment" "d1" "running:up")] in
  let d := protobuf.mkExpandedDeployment "apps/app1/deployments/d1" "code" "running" in
  let resp := protobuf.mkStreamDeploymentsResponse [d] in
  resp ∈ fst (StreamDeployments req None received None)
  /\ ReleaseTypeMatcher_Match (protobuf.StreamDeploymentsRequest_TypeFilters req)
       (protobuf.ExpandedDeployment_Type d) = true.
Proof.
  intros C req received d resp.
  assert (Hin : resp ∈ fst (StreamDeployments req None received None))
    by (vm_compute; right; left).
  split; [exact Hin|].
  apply (StreamDeployments_sends_matching_types req None None received resp d);
    [discriminate|exact Hin|left].
Defined.

(** ** Run-time panics: a nil deployment event, a capacity out of range *)

Section RunTimePanics.
Context `{C : Collaborators}.

(** X26.  A deployment event whose payload leaves the decoded pointer nil
    (the JSON value null: no error is reported) stops both handlers of
    deployment events with a nil-pointer panic as soon as the store has
    answered.  The goroutine of StreamDeployments panics at line 1092 and
    sends nothing for the event nor after it; when the store fails
    instead, the event is skipped.  CreateDeployment panics at line 1174,
    before it sends the event: all it has done by then is the call of
    [createScale], made when the record is complete and the request
    carries a scale request. *)
Theorem nil_deployment_event_panics
    (reqD : protobuf.StreamDeploymentsRequest)
    (scale : protobuf.CreateScaleRequest -> Run ScaleResult)
    (req : protobuf.CreateDeploymentRequest) (n : nat)
    (ctEvent : ct.Event) (rest : list Recv) :
  Unmarshal_DeploymentEvent (ct.Event_Data ctEvent) = inr None ->
  (forall ctd,
      deploymentRepo_GetExpanded n (ct.Event_ObjectID ctEvent) = inr ctd ->
      StreamDeployments_loop reqD n (RecvEvent ctEvent :: rest)
      = ([], Panics nilDereference))
  /\ (forall err,
        deploymentRepo_GetExpanded n (ct.Event_ObjectID ctEvent) = inl err ->
        StreamDeployments_loop reqD n (RecvEvent ctEvent :: rest)
        = StreamDeployments_loop reqD (S n) rest)
  /\ (forall d,
        ct.Event_ObjectType ctEvent = "deployment" ->
        deploymentRepo_Get n (ct.Event_ObjectID ctEvent) = inr d ->
        (forall r, returns (scale r)) ->
        CreateDeployment_loop scale req n (RecvEvent ctEvent :: rest)
        = (match protobuf.CreateDeploymentRequest_ScaleRequest req with
           | Some sr =>
               if String.eqb (ct.Deployment_Status d) "complete"
               then [CallCreateScale
                       (protobuf.mkCreateScaleRequest
                          ("apps/" +:+ ct.Deployment_AppID d +:+
                           "/releases/" +:+ ct.Deployment_NewReleaseID d)
                          (protobuf.CreateScaleRequest_Processes sr)
                          (protobuf.CreateScaleRequest_Tags sr))]
               else []
           | None => []
           end,
           Panics nilDereference)).
Proof.
  intros Hnil. split; [|split].
  - intros ctd Hget. cbn [StreamDeployments_loop].
    unfold StreamDeployments_panics. by rewrite Hnil, Hget.
  - intros err Hget. cbn [StreamDeployments_loop].
    unfold StreamDeployments_panics, StreamDeployments_event.
    rewrite Hnil, Hget. by destruct (StreamDeployments_loop reqD (S n) rest).
  - intros d Htype Hget Hscale. cbn [CreateDeployment_loop].
    rewrite Htype, Hnil, Hget. cbn [String.eqb Ascii.eqb Bool.eqb negb].
    destruct (protobuf.CreateDeploymentRequest_ScaleRequest req) as [sr|]; [|done].
    destruct (String.eqb (ct.Deployment_Status d) "complete"); [|done].
    match goal with |- context [scale ?r] => destruct (Hscale r) as [a ->] end.
    done.
Qed.

(** X27.  When the request gives no positive page size, the size of the
    page token is the capacity handed to [make]: with a size that is
    negative, or too large for a slice of pointers, listApps panics after
    it has read the page from the store, and converts no app. *)
Theorem listApps_capacity_out_of_range (req : protobuf.StreamAppsRequest)
    (pageToken : data.PageToken) (ctApps : list ct.App)
    (nextPageToken : option data.PageToken) :
  ParsePageToken (protobuf.StreamAppsRequest_PageToken req) = inr pageToken ->
  protobuf.StreamAppsRequest_PageSize req <= 0 ->
  appRepo_ListPage pageToken = inr (ctApps, nextPageToken) ->
  data.Size pageToken < 0 \/ maxAlloc < 8 * data.Size pageToken ->
  listApps_page req = Panics "makeslice: cap out of range"
  /\ forall fuel, listApps (S fuel) req = Panics "makeslice: cap out of range".
Proof.
  intros Htoken Hsize Hlist Hcap.
  assert (Hpage : listApps_page req = Panics "makeslice: cap out of range").
  { unfold listApps_page. rewrite Htoken.
    destruct (Z.ltb_spec 0 (protobuf.StreamAppsRequest_PageSize req)); [lia|].
    rewrite Hlist.
    destruct (Z.eqb_spec (data.Size pageToken) 0) as [H0|H0];
      [unfold maxAlloc in Hcap; lia|].
    unfold makeslice_panics.
    destruct (Z.ltb_spec (data.Size pageToken) 0); [done|].
    destruct (Z.ltb_spec maxAlloc (8 * data.Size pageToken)); [done|lia]. }
  split; [exact Hpage|]. intros fuel. cbn [listApps]. by rewrite Hpage.
Qed.

End RunTimePanics.

Lemma nil_deployment_event_panics_witness :
  let C := Fixture.collaborators in
  let reqD := protobuf.mkStreamDeploymentsRequest 0 "" [] [] true true in
  let scale :=
    fun r => createScale r None [SelectEvent (Fixture.scaleEvent 23 "sr1:complete")] None in
  let sr := protobuf.mkCreateScaleRequest "" {[ "web" := 2 ]} ∅ in
  let req := protobuf.mkCreateDeploymentRequest "apps/app1" "apps/app1/releases/r2" (Some sr) in
  let null := Fixture.event 70 "deployment" "d1" "null" in
  let later := Fixture.event 71 "deployment" "d1" "complete:up" in
  StreamDeployments_loop reqD 0 [RecvEvent null; RecvEvent later]
  = ([], Panics nilDereference)
  /\ CreateDeployment_loop scale req 1 [RecvEvent null; RecvEvent later]
     = ([CallCreateScale
           (protobuf.mkCreateScaleRequest "apps/app1/releases/r2" {[ "web" := 2 ]} ∅)],
        Panics nilDereference).
Proof.
  intros C reqD scale sr req null later.
  assert (Hnil : Unmarshal_DeploymentEvent (ct.Event_Data null) = inr None)
    by (vm_compute; reflexivity).
  destruct (nil_deployment_event_panics reqD scale req 1 null [RecvEvent later] Hnil)
    as (_ & _ & Hcreate).
  destruct (nil_deployment_event_panics reqD scale req 0 null [RecvEvent later] Hnil)
    as (Hstream & _ & _).
  split.
  - apply (Hstream (ct.mkExpandedDeployment "d1" "app1" "code" "pending")).
    vm_compute; reflexivity.
  - apply (Hcreate (ct.mkDeployment "d1" "app1" "r1" "r2" "complete")).
    + reflexivity.
    + vm_compute; reflexivity.
    + intros r. eexists. reflexivity.
Defined.

Lemma listApps_capacity_out_of_range_witness :
  let C := Fixture.collaborators in
  let req := protobuf.mkStreamAppsRequest 0 "huge" [] [] false false in
  listApps 1 req = Panics "makeslice: cap out of range".
Proof.
  intros C req.
  pose (pageToken := data.mkPageToken None (2 ^ 62)).
  assert (Htoken : ParsePageToken (protobuf.StreamAppsRequest_PageToken req)
                   = inr pageToken) by (vm_compute; reflexivity).
  assert (Hsize : protobuf.StreamAppsRequest_PageSize req <= 0) by (cbn; lia).
  assert (Hlist : appRepo_ListPage pageToken
                  = inr ([Fixture.app "a1"; Fixture.app "a2"],
                         Some (data.mkPageToken (Some "a2") (2 ^ 62))))
    by (vm_compute; reflexivity).
  assert (Hcap : data.Size pageToken < 0 \/ maxAlloc < 8 * data.Size pageToken)
    by (right; vm_compute; reflexivity).
  exact (proj2 (listApps_capacity_out_of_range req pageToken _ _
                  Htoken Hsize Hlist Hcap) 0%nat).
Defined.
